(** * orbs: the session registry, the frame dispatcher and the party
    coordinator, embedded from the Go sources.

    - [Chan]      Go's buffered channels, as far as the sources use them.
    - [Registry]  [src/session.go]: [Session.run], [Session.broadcast],
                  [Session.deleteClient].
    - [Dispatch]  [src/session.go]: [Session.processMsgs], [Session.processMsg].
    - [SyncMapVariant]  [src/server/session.go]: [joinSessionWs].
    - [PartyDb]   [src/database.go]: the party queries.
    - [PartyApi]  [src/unnamed/part_000]: [handleParty], [handlePartyMemberLeave].

    Go's [int] is modelled by [Z]: the counters of these functions are bounded
    by the number of clients or by [maxID], far below 2^63.  Go's [string] and
    [[]byte] are both modelled by [string], a sequence of bytes. *)

From Stdlib Require Import ZArith String Ascii List Bool Lia.
From stdpp Require Import base option list gmap sets strings pretty sorting.

Local Open Scope string_scope.
Local Open Scope list_scope.
Local Open Scope Z_scope.

(** ** Buffered channels *)

Module Chan.

(** What a channel operation can do to the goroutine that runs it. *)
Inductive res (A : Type) : Type :=
| Ok (a : A)
| Blocked
| Panic.
Arguments Ok {A} a.
Arguments Blocked {A}.
Arguments Panic {A}.

Definition bind {A B} (m : res A) (k : A -> res B) : res B :=
  match m with
  | Ok a => k a
  | Blocked => Blocked
  | Panic => Panic
  end.

(** [make(chan []byte, n)]. *)
Record chan : Type := Make {
  cap : nat;
  buf : list string;
  closed : bool
}.

Definition make (n : nat) : chan := {| cap := n; buf := []; closed := false |}.

Definition has_room (c : chan) : bool := (length (buf c) <? cap c)%nat.

Definition push (c : chan) (v : string) : chan :=
  {| cap := cap c; buf := buf c ++ [v]; closed := closed c |}.

(** [c <- v]: panics on a closed channel, waits while the buffer is full. *)
Definition send (c : chan) (v : string) : res chan :=
  if closed c then Panic
  else if has_room c then Ok (push c v)
  else Blocked.

(** [select { case c <- v: ...; default: ... }]: [Ok None] is the default
    branch. *)
Definition try_send (c : chan) (v : string) : res (option chan) :=
  if closed c then Panic
  else if has_room c then Ok (Some (push c v))
  else Ok None.

(** [close(c)]: panics when [c] is closed already. *)
Definition close (c : chan) : res chan :=
  if closed c then Panic
  else Ok {| cap := cap c; buf := buf c; closed := true |}.

(** [<-c] by the goroutine at the other end: takes the oldest value. *)
Definition recv (c : chan) : chan :=
  {| cap := cap c; buf := tail (buf c); closed := closed c |}.

End Chan.

Notation "'let*' x ':=' m 'in' k" := (Chan.bind m (fun x => k))
  (at level 10, x name, m at level 100, k at level 200).

(** ** The session actor of [src/session.go] *)

Module Registry.

Import Chan.

(** A [*SessionClient]. *)
Definition ptr := positive.

(** Modelled from the spec: the access type of a player is declared outside
    the sources at hand.  The spec tells a hard-banned identity (refused)
    from a shadow-banned one (admitted, invisible); these are the two
    methods [run] calls, and the record carries their answers. *)
Record AccessType : Type := {
  isShadowBanned : bool;
  isBanned : bool
}.

(** The fields of [SessionClient] that [src/session.go] and
    [src/database.go] read or write, but for [conn], the websocket; [muted]
    is not set by [run] and starts as [false]. *)
Record SessionClient : Type := {
  send : chan;
  ip : string;
  id : Z;
  online : bool;
  account : bool;
  name : string;
  uuid : string;
  rank : Z;
  badge : string;
  muted : bool;
  accessType : AccessType;
  spriteName : string;
  spriteIndex : Z;
  systemName : string
}.

Definition with_send (c : SessionClient) (ch : chan) : SessionClient :=
  {| send := ch; ip := ip c; id := id c; online := online c;
     account := account c; name := name c; uuid := uuid c; rank := rank c;
     badge := badge c; muted := muted c; accessType := accessType c;
     spriteName := spriteName c; spriteIndex := spriteIndex c;
     systemName := systemName c |}.

#[export] Instance SessionClient_inhabited : Inhabited SessionClient :=
  populate {| send := make 0; ip := ""; id := 0; online := false;
              account := false; name := ""; uuid := ""; rank := 0;
              badge := ""; muted := false;
              accessType := {| isShadowBanned := false; isBanned := false |};
              spriteName := ""; spriteIndex := 0; systemName := "" |}.

(** The request on the [connect] channel, with what [getPlayerInfo] and
    [readPlayerGameData] answer for it (both read the database). *)
Record ConnInfo : Type := {
  Ip : string;
  Token : string;
  Online : bool;
  info_uuid : string;
  info_name : string;
  info_rank : Z;
  info_badge : string;
  info_accessType : AccessType;
  info_account : bool;
  data_systemName : string;
  data_spriteName : string;
  data_spriteIndex : Z
}.

Inductive LogLine : Type :=
| ErrLog (who : string) (place : string) (what : string)
| Log (who : string) (place : string) (what : string) (code : Z).

(** The row [updatePlayerGameData] writes. *)
Record GameDataRow : Type := {
  row_uuid : string;
  row_name : string;
  row_systemName : string;
  row_spriteName : string;
  row_spriteIndex : Z
}.

(** [Session], the global [sessionClients], and what the actor touches
    besides: the clients it allocated, the log and the database writes. *)
Record Session : Type := {
  clients : gmap ptr bool;
  ids : gmap Z bool;
  sessionClients : gmap string ptr;
  heap : gmap ptr SessionClient;
  logs : list LogLine;
  gameData : list GameDataRow
}.

(** [newSessionWs]. *)
Definition newSessionWs : Session :=
  {| clients := ∅; ids := ∅; sessionClients := ∅; heap := ∅;
     logs := []; gameData := [] |}.

Definition deref (s : Session) (p : ptr) : SessionClient := heap s !!! p.

(** [s.id[i]]: a missing key reads as [false]. *)
Definition id_used (s : Session) (i : Z) : bool := default false (ids s !! i).

(** The keys [range s.clients] goes through, in one of the orders Go may
    pick. *)
Definition registered (s : Session) : list ptr := elements (dom (clients s)).

Definition writeErrLog (who place what : string) (s : Session) : Session :=
  {| clients := clients s; ids := ids s; sessionClients := sessionClients s;
     heap := heap s; logs := logs s ++ [ErrLog who place what];
     gameData := gameData s |}.

Definition writeLog (who place what : string) (code : Z) (s : Session) : Session :=
  {| clients := clients s; ids := ids s; sessionClients := sessionClients s;
     heap := heap s; logs := logs s ++ [Log who place what code];
     gameData := gameData s |}.

Definition row_of (c : SessionClient) : GameDataRow :=
  {| row_uuid := uuid c; row_name := name c;
     row_systemName := systemName c; row_spriteName := spriteName c;
     row_spriteIndex := spriteIndex c |}.

Definition updatePlayerGameData (c : SessionClient) (s : Session) : Session :=
  {| clients := clients s; ids := ids s; sessionClients := sessionClients s;
     heap := heap s; logs := logs s;
     gameData := gameData s ++ [row_of c] |}.

Definition set_send (p : ptr) (ch : chan) (s : Session) : Session :=
  {| clients := clients s; ids := ids s; sessionClients := sessionClients s;
     heap := <[p := with_send (deref s p) ch]> (heap s);
     logs := logs s; gameData := gameData s |}.

(** The three [delete]s of [deleteClient]. *)
Definition forget (p : ptr) (c : SessionClient) (s : Session) : Session :=
  {| clients := delete p (clients s);
     ids := delete (id c) (ids s);
     sessionClients := delete (uuid c) (sessionClients s);
     heap := heap s; logs := logs s; gameData := gameData s |}.

(** [Session.deleteClient]. *)
Definition deleteClient (p : ptr) (s : Session) : res Session :=
  let c := deref s p in
  let s1 := updatePlayerGameData c s in
  let s2 := forget p c s1 in
  let* ch := close (send c) in
  Ok (set_send p ch s2).

(** One turn of the loop of [Session.broadcast]. *)
Definition broadcast_one (data : string) (s : Session) (p : ptr) : res Session :=
  let* r := try_send (send (deref s p)) data in
  match r with
  | Some ch => Ok (set_send p ch s)
  | None => deleteClient p s
  end.

(** [Session.broadcast], going through the clients in [order]. *)
Fixpoint broadcast_in (order : list ptr) (data : string) (s : Session) : res Session :=
  match order with
  | [] => Ok s
  | p :: rest => let* s' := broadcast_one data s p in broadcast_in rest data s'
  end.

(** [order] is an order in which [range s.clients] may visit the map. *)
Definition range_order (s : Session) (order : list ptr) : Prop :=
  order ≡ₚ registered s.

(** [p] is a key of [s.clients]. *)
Definition is_registered (s : Session) (p : ptr) : Prop :=
  is_Some (clients s !! p).

(** Some registered client holds the session id [i]. *)
Definition held (s : Session) (i : Z) : Prop :=
  exists p, is_registered s p /\ id (deref s p) = i.

Section Run.

(** Constants and a helper declared outside the sources at hand. *)
Variable maxID : Z.
Variable delim : string.
Variable btoa : bool -> string.

(** [strconv.Itoa]. *)
Definition itoa (n : Z) : string := pretty n.

(** The loop that counts the registered clients of one address. *)
Definition same_ip_in (order : list ptr) (s : Session) (addr : string) : Z :=
  foldl (fun n p => if decide (ip (deref s p) = addr) then n + 1 else n) 0 order.

Definition same_ip (s : Session) (addr : string) : Z :=
  same_ip_in (registered s) s addr.

(** The loop [for i := 1; i <= maxID; i++]: the first [i] with [!s.id[i]],
    and [0], the zero value of [id], when the loop finds none. *)
Definition first_free_id (s : Session) : Z :=
  default 0 (List.find (fun i => negb (id_used s i)) (seqZ 1 maxID)).

Definition greeting (i : Z) (conn : ConnInfo) : string :=
  ("s" ++ delim ++ itoa i ++ delim ++ info_uuid conn ++ delim
       ++ itoa (info_rank conn) ++ delim ++ btoa (info_account conn)
       ++ delim ++ info_badge conn)%string.

Definition newClient (i : Z) (on : bool) (conn : ConnInfo) : SessionClient :=
  {| send := make 256; ip := Ip conn; id := i; online := on;
     account := info_account conn; name := info_name conn;
     uuid := info_uuid conn; rank := info_rank conn;
     badge := info_badge conn; muted := false;
     accessType := info_accessType conn;
     spriteName := data_spriteName conn;
     spriteIndex := data_spriteIndex conn;
     systemName := data_systemName conn |}.

(** The three assignments that register the client allocated at [p]. *)
Definition install (p : ptr) (c : SessionClient) (s : Session) : Session :=
  {| clients := <[p := true]> (clients s);
     ids := <[id c := true]> (ids s);
     sessionClients := <[uuid c := p]> (sessionClients s);
     heap := <[p := c]> (heap s);
     logs := logs s; gameData := gameData s |}.

(** The [connect] case of [run] from the address count on; [on] is
    [conn.Online] as the ban check left it. *)
Definition enroll (conn : ConnInfo) (on : bool) (s : Session) : res Session :=
  if 3 <=? same_ip s (Ip conn) then
    Ok (writeErrLog (Ip conn) "session" "too many connections" s)
  else
    let i := first_free_id s in
    if i =? 0 then
      Ok (writeErrLog (Ip conn) "session" "room is full" s)
    else
      let p := fresh (dom (heap s)) in
      let client := newClient i on conn in
      let* ch := Chan.send (send client) (greeting i conn) in
      Ok (writeLog (Ip conn) "session" "connect" 200
            (install p (with_send client ch) s)).

(** The [connect] case of [run]. *)
Definition connect (conn : ConnInfo) (s : Session) : res Session :=
  if isShadowBanned (info_accessType conn) then
    enroll conn false
      (writeErrLog (Ip conn) "session"
         "player is shadowbanned, setting connection to offline" s)
  else if isBanned (info_accessType conn) then
    Ok (writeErrLog (Ip conn) "session" "player is banned, aborting connection" s)
  else
    enroll conn (Online conn) s.

(** The [unregister] case of [run]. *)
Definition unregister (p : ptr) (s : Session) : res Session :=
  match clients s !! p with
  | Some _ =>
      let* s' := deleteClient p s in
      Ok (writeLog (ip (deref s' p)) "session" "disconnect" 200 s')
  | None =>
      Ok (writeErrLog (ip (deref s p)) "session" "attempted to unregister nil client" s)
  end.

(** The writer goroutine of client [p] takes one message off its queue. *)
Definition drain (p : ptr) (s : Session) : Session :=
  set_send p (recv (send (deref s p))) s.

(** The client at [p] becomes [c]: what an assignment to a field of the
    client does ([client.badge = badge] in [setPlayerBadge], [client.muted =
    true] in [tryMutePlayer]), or a send to its queue. *)
Definition set_client (p : ptr) (c : SessionClient) (s : Session) : Session :=
  {| clients := clients s; ids := ids s; sessionClients := sessionClients s;
     heap := <[p := c]> (heap s); logs := logs s; gameData := gameData s |}.

(** The states the actor reaches from [newSessionWs]: connects and
    unregisters taken off the channels, broadcasts, the writers emptying
    the queues in between, and other code changing the fields or filling the
    queue of a client it holds; the session id of a client and the closing
    of its queue are the actor's alone. *)
Inductive reachable : Session -> Prop :=
| reach_new : reachable newSessionWs
| reach_connect s conn s' :
    reachable s -> connect conn s = Ok s' -> reachable s'
| reach_unregister s p s' :
    reachable s -> unregister p s = Ok s' -> reachable s'
| reach_broadcast s order data s' :
    reachable s -> range_order s order ->
    broadcast_in order data s = Ok s' -> reachable s'
| reach_drain s p :
    reachable s -> reachable (drain p s)
| reach_update s p c :
    reachable s -> p ∈ dom (heap s) ->
    id c = id (deref s p) ->
    closed (send c) = closed (send (deref s p)) ->
    reachable (set_client p c s).

(** *** Basic facts *)

Lemma elem_of_registered s p : p ∈ registered s <-> is_registered s p.
Proof.
  unfold registered, is_registered.
  rewrite elem_of_elements. apply elem_of_dom.
Qed.

Lemma range_order_elem s order p :
  range_order s order -> (p ∈ order <-> is_registered s p).
Proof.
  unfold range_order. intros Hperm.
  rewrite <- elem_of_registered. by rewrite Hperm.
Qed.

Lemma range_order_NoDup s order : range_order s order -> NoDup order.
Proof.
  unfold range_order, registered. intros Hperm.
  rewrite Hperm. apply NoDup_elements.
Qed.

Lemma deref_set_send s p ch q :
  deref (set_send p ch s) q =
  if decide (p = q) then with_send (deref s p) ch else deref s q.
Proof.
  unfold deref, set_send. simpl.
  destruct (decide (p = q)) as [->|Hne].
  - by rewrite lookup_total_insert_eq.
  - by rewrite lookup_total_insert_ne.
Qed.

Lemma same_ip_in_acc order s addr n :
  foldl (fun n p => if decide (ip (deref s p) = addr) then n + 1 else n) n order
  = n + Z.of_nat (length (filter (fun p => ip (deref s p) = addr) order)).
Proof.
  revert n. induction order as [|p order IH]; intros n; simpl.
  - lia.
  - rewrite IH, filter_cons.
    destruct (decide (ip (deref s p) = addr)); simpl; lia.
Qed.

(** The loop counts the registered clients whose address is [addr]. *)
Lemma same_ip_in_count order s addr :
  same_ip_in order s addr
  = Z.of_nat (length (filter (fun p => ip (deref s p) = addr) order)).
Proof. unfold same_ip_in. rewrite same_ip_in_acc. lia. Qed.

(** The count does not depend on the order of the iteration. *)
Lemma same_ip_in_order s order addr :
  range_order s order -> same_ip_in order s addr = same_ip s addr.
Proof.
  unfold same_ip, range_order. intros Hperm.
  rewrite !same_ip_in_count. by rewrite Hperm.
Qed.

Lemma find_seqZ_spec (f : Z -> bool) (m : Z) (n : nat) :
  match List.find f (seqZ m (Z.of_nat n)) with
  | Some i => m <= i < m + Z.of_nat n /\ f i = true
              /\ forall j, m <= j < i -> f j = false
  | None => forall j, m <= j < m + Z.of_nat n -> f j = false
  end.
Proof.
  revert m. induction n as [|n IH]; intros m.
  - simpl. intros j Hj. lia.
  - rewrite Nat2Z.inj_succ, seqZ_cons by lia.
    replace (Z.pred (Z.succ (Z.of_nat n))) with (Z.of_nat n) by lia.
    simpl. destruct (f m) eqn:Hfm.
    + split; [lia|]. split; [done|]. intros j Hj. lia.
    + specialize (IH (Z.succ m)).
      destruct (List.find f (seqZ (Z.succ m) (Z.of_nat n))) as [i|].
      * destruct IH as (Hi & Hfi & Hlt). split; [lia|]. split; [done|].
        intros j Hj. destruct (decide (j = m)) as [->|]; [done|].
        apply Hlt. lia.
      * intros j Hj. destruct (decide (j = m)) as [->|]; [done|].
        apply IH. lia.
Qed.

(** What the scan for a free id returns. *)
Lemma first_free_id_spec s :
  let i := first_free_id s in
  (i = 0 /\ forall j, 1 <= j <= maxID -> id_used s j = true)
  \/ (1 <= i <= maxID /\ id_used s i = false
      /\ forall j, 1 <= j < i -> id_used s j = true).
Proof.
  unfold first_free_id.
  destruct (Z_le_gt_dec 0 maxID) as [Hpos|Hneg].
  - pose proof (find_seqZ_spec (fun i => negb (id_used s i)) 1 (Z.to_nat maxID)) as H.
    rewrite Z2Nat.id in H by done.
    destruct (List.find _ (seqZ 1 maxID)) as [i|]; simpl.
    + right. destruct H as (Hi & Hf & Hlt).
      split; [lia|]. split; [by apply negb_true_iff|].
      intros j Hj. apply negb_false_iff. by apply Hlt.
    + left. split; [done|]. intros j Hj. apply negb_false_iff. apply H. lia.
  - replace (seqZ 1 maxID) with (@nil Z).
    + simpl. left. split; [done|]. intros j Hj. lia.
    + unfold seqZ. replace (Z.to_nat maxID) with 0%nat by lia. done.
Qed.

(** *** The invariant of the actor *)

Record inv (s : Session) : Prop := {
  inv_heap : forall p, is_registered s p -> p ∈ dom (heap s);
  inv_ids : forall i, id_used s i = true <-> held s i;
  inv_uniq : forall p q,
      is_registered s p -> is_registered s q ->
      id (deref s p) = id (deref s q) -> p = q;
  inv_open : forall p, is_registered s p -> closed (send (deref s p)) = false;
  inv_range : forall p, is_registered s p -> 1 <= id (deref s p) <= maxID
}.

Lemma inv_new : inv newSessionWs.
Proof.
  assert (Hno : forall p, ~ is_registered newSessionWs p).
  { intros p [b Hb]. simpl in Hb. by rewrite lookup_empty in Hb. }
  constructor; try (intros p Hp; by apply Hno in Hp).
  - intros i. unfold id_used, held. simpl. rewrite lookup_empty. simpl.
    split; [done|]. intros (p & Hp & _). by apply Hno in Hp.
  - intros p q Hp. by apply Hno in Hp.
Qed.

Lemma inv_writeErrLog who place what s :
  inv s -> inv (writeErrLog who place what s).
Proof. intros [H1 H2 H3 H4 H5]. constructor; assumption. Qed.

Lemma inv_writeLog who place what code s :
  inv s -> inv (writeLog who place what code s).
Proof. intros [H1 H2 H3 H4 H5]. constructor; assumption. Qed.

Lemma registered_set_send p ch s q :
  is_registered (set_send p ch s) q <-> is_registered s q.
Proof. done. Qed.

Lemma inv_set_send p ch s :
  inv s -> (is_registered s p -> closed ch = false) -> inv (set_send p ch s).
Proof.
  intros [H1 H2 H3 H4 H5] Hch.
  assert (Hid : forall q, id (deref (set_send p ch s) q) = id (deref s q)).
  { intros q. rewrite deref_set_send. by destruct (decide (p = q)) as [->|]. }
  constructor.
  - intros q Hq. simpl. rewrite dom_insert_L. apply H1 in Hq.
    apply elem_of_union. by right.
  - intros i. change (id_used (set_send p ch s) i) with (id_used s i).
    rewrite H2. unfold held.
    split; intros (q & Hq & Hi); exists q; (split; [exact Hq|]);
      [by rewrite Hid | by rewrite <- Hid].
  - intros q r Hq Hr. rewrite !Hid. by apply H3.
  - intros q Hq. rewrite deref_set_send.
    destruct (decide (p = q)) as [->|]; [by apply Hch | by apply H4].
  - intros q Hq. rewrite Hid. by apply H5.
Qed.

Lemma inv_set_client p c s :
  inv s -> id c = id (deref s p) ->
  closed (send c) = closed (send (deref s p)) ->
  inv (set_client p c s).
Proof.
  intros [H1 H2 H3 H4 H5] Hidc Hcl.
  assert (Hd : forall q, deref (set_client p c s) q
                         = if decide (p = q) then c else deref s q).
  { intros q. unfold deref, set_client. simpl.
    destruct (decide (p = q)) as [->|Hne].
    - by rewrite lookup_total_insert_eq.
    - by rewrite lookup_total_insert_ne. }
  assert (Hid : forall q, id (deref (set_client p c s) q) = id (deref s q)).
  { intros q. rewrite Hd. by destruct (decide (p = q)) as [->|]. }
  constructor.
  - intros q Hq. simpl. rewrite dom_insert_L. apply H1 in Hq.
    apply elem_of_union. by right.
  - intros i. change (id_used (set_client p c s) i) with (id_used s i).
    rewrite H2. unfold held.
    split; intros (q & Hq & Hi); exists q; (split; [exact Hq|]);
      [by rewrite Hid | by rewrite <- Hid].
  - intros q r Hq Hr. rewrite !Hid. by apply H3.
  - intros q Hq. rewrite Hd.
    destruct (decide (p = q)) as [->|]; [|by apply H4].
    rewrite Hcl. by apply H4.
  - intros q Hq. rewrite Hid. by apply H5.
Qed.

Lemma registered_install p c s q :
  is_registered (install p c s) q <-> q = p \/ is_registered s q.
Proof.
  unfold is_registered, install. simpl.
  destruct (decide (p = q)) as [->|Hne].
  - rewrite lookup_insert_eq. split; [by left | by eexists].
  - rewrite lookup_insert_ne by done. split; [by right|].
    by intros [->|].
Qed.

Lemma deref_install p c s q :
  deref (install p c s) q = if decide (p = q) then c else deref s q.
Proof.
  unfold deref, install. simpl.
  destruct (decide (p = q)) as [->|Hne].
  - by rewrite lookup_total_insert_eq.
  - by rewrite lookup_total_insert_ne.
Qed.

Lemma id_used_install p c s i :
  id_used (install p c s) i = if decide (id c = i) then true else id_used s i.
Proof.
  unfold id_used, install. simpl.
  destruct (decide (id c = i)) as [->|Hne].
  - by rewrite lookup_insert_eq.
  - by rewrite lookup_insert_ne.
Qed.

Lemma inv_install p c s :
  inv s -> p ∉ dom (heap s) -> id_used s (id c) = false ->
  1 <= id c <= maxID -> closed (send c) = false ->
  inv (install p c s).
Proof.
  intros [H1 H2 H3 H4 H5] Hp Hfree Hrange Hopen.
  assert (Hnew : ~ is_registered s p) by (intros Hr; by apply H1 in Hr).
  assert (Hnot : ~ held s (id c)).
  { intros Hh. apply H2 in Hh. congruence. }
  assert (Hold : forall q, is_registered s q ->
                           deref (install p c s) q = deref s q).
  { intros q Hq. rewrite deref_install.
    destruct (decide (p = q)) as [->|]; [done|done]. }
  assert (Hself : deref (install p c s) p = c).
  { rewrite deref_install. by destruct (decide (p = p)). }
  constructor.
  - intros q Hq. simpl. rewrite dom_insert_L.
    apply elem_of_union.
    apply registered_install in Hq as [->|Hq];
      [left; by apply elem_of_singleton | right; by apply H1].
  - intros i. rewrite id_used_install. unfold held.
    destruct (decide (id c = i)) as [<-|Hne].
    + split; [|done]. intros _. exists p.
      split; [apply registered_install; by left | by rewrite Hself].
    + rewrite H2. split.
      * intros (q & Hq & Hi). exists q.
        split; [apply registered_install; by right | by rewrite Hold].
      * intros (q & Hq & Hi).
        apply registered_install in Hq as [->|Hq].
        -- rewrite Hself in Hi. done.
        -- exists q. split; [done|]. by rewrite <- Hold.
  - intros q r Hq Hr Heq.
    apply registered_install in Hq as [->|Hq];
      apply registered_install in Hr as [->|Hr]; [done| | |].
    + rewrite Hself, Hold in Heq by done. exfalso. apply Hnot. by exists r.
    + rewrite Hself, Hold in Heq by done. exfalso. apply Hnot. by exists q.
    + rewrite !Hold in Heq by done. by apply H3.
  - intros q Hq. apply registered_install in Hq as [->|Hq].
    + by rewrite Hself.
    + rewrite Hold by done. by apply H4.
  - intros q Hq. apply registered_install in Hq as [->|Hq].
    + by rewrite Hself.
    + rewrite Hold by done. by apply H5.
Qed.

Lemma registered_forget p c s q :
  is_registered (forget p c s) q <-> q <> p /\ is_registered s q.
Proof.
  unfold is_registered, forget. simpl.
  destruct (decide (p = q)) as [->|Hne].
  - rewrite lookup_delete_eq. split; [by intros [? ?] | by intros [? _]].
  - rewrite lookup_delete_ne by done. split; [|by intros [_ ?]].
    intros H. split; [congruence|done].
Qed.

Lemma id_used_forget p c s i :
  id_used (forget p c s) i = if decide (id c = i) then false else id_used s i.
Proof.
  unfold id_used, forget. simpl.
  destruct (decide (id c = i)) as [->|Hne].
  - by rewrite lookup_delete_eq.
  - by rewrite lookup_delete_ne.
Qed.

Lemma inv_forget p s :
  inv s -> is_registered s p -> inv (forget p (deref s p) s).
Proof.
  intros [H1 H2 H3 H4 H5] Hp.
  constructor.
  - intros q Hq. apply registered_forget in Hq as [_ Hq]. by apply H1.
  - intros i. rewrite id_used_forget. unfold held.
    destruct (decide (id (deref s p) = i)) as [<-|Hne].
    + split; [done|]. intros (q & Hq & Hi).
      apply registered_forget in Hq as [Hqp Hq].
      exfalso. apply Hqp. by apply H3.
    + rewrite H2. split.
      * intros (q & Hq & Hi). exists q. split; [|done].
        apply registered_forget. split; [|done]. intros ->. done.
      * intros (q & Hq & Hi). apply registered_forget in Hq as [_ Hq].
        by exists q.
  - intros q r Hq Hr. apply registered_forget in Hq as [_ Hq].
    apply registered_forget in Hr as [_ Hr]. by apply H3.
  - intros q Hq. apply registered_forget in Hq as [_ Hq]. by apply H4.
  - intros q Hq. apply registered_forget in Hq as [_ Hq]. by apply H5.
Qed.

Lemma inv_updatePlayerGameData c s : inv s -> inv (updatePlayerGameData c s).
Proof. intros [H1 H2 H3 H4 H5]. constructor; assumption. Qed.

(** The state [deleteClient] leaves when the queue of [p] is open. *)
Definition deleted (p : ptr) (s : Session) : Session :=
  let c := deref s p in
  set_send p {| cap := cap (send c); buf := buf (send c); closed := true |}
    (forget p c (updatePlayerGameData c s)).

Lemma deleteClient_open p s :
  closed (send (deref s p)) = false -> deleteClient p s = Ok (deleted p s).
Proof.
  intros Hopen. unfold deleteClient, deleted, close. by rewrite Hopen.
Qed.

Lemma deleteClient_closed p s :
  closed (send (deref s p)) = true -> deleteClient p s = Panic.
Proof.
  intros Hc. unfold deleteClient, close. by rewrite Hc.
Qed.

Lemma registered_deleted p s q :
  is_registered (deleted p s) q <-> q <> p /\ is_registered s q.
Proof.
  unfold deleted. rewrite registered_set_send.
  apply (registered_forget p (deref s p) (updatePlayerGameData (deref s p) s) q).
Qed.

Lemma deref_deleted_ne p s q : q <> p -> deref (deleted p s) q = deref s q.
Proof.
  intros Hne. unfold deleted. rewrite deref_set_send.
  destruct (decide (p = q)); [congruence|done].
Qed.

Lemma inv_deleted p s : inv s -> is_registered s p -> inv (deleted p s).
Proof.
  intros Hinv Hp. unfold deleted. apply inv_set_send.
  - apply (inv_forget p (updatePlayerGameData (deref s p) s)).
    + by apply inv_updatePlayerGameData.
    + exact Hp.
  - intros Hr.
    apply (registered_forget p (deref s p)
             (updatePlayerGameData (deref s p) s) p) in Hr as [Hne _].
    done.
Qed.

(** *** Broadcast *)

(** What a broadcast can change besides the queues: ids and identities
    are only freed, rows are only written. *)
Record shrinks (s s' : Session) : Prop := {
  shr_ids : forall i, id_used s' i = true -> id_used s i = true;
  shr_sessionClients :
    forall u, sessionClients s !! u = None -> sessionClients s' !! u = None;
  shr_gameData : forall r, r ∈ gameData s -> r ∈ gameData s';
  shr_logs : logs s' = logs s
}.

Lemma shrinks_refl s : shrinks s s.
Proof. by constructor. Qed.

Lemma shrinks_trans s1 s2 s3 : shrinks s1 s2 -> shrinks s2 s3 -> shrinks s1 s3.
Proof.
  intros [A1 A2 A3 A4] [B1 B2 B3 B4]. constructor; auto. congruence.
Qed.

(** The payload went on the queue of [p], which stays registered. *)
Definition delivered (data : string) (s s' : Session) (p : ptr) : Prop :=
  is_registered s' p /\
  deref s' p = with_send (deref s p) (push (send (deref s p)) data).

(** [deleteClient] ran for [p]: its row is written, its id and identity are
    freed, it is no longer registered and its queue is closed. *)
Definition evicted (s s' : Session) (p : ptr) : Prop :=
  ~ is_registered s' p /\
  id_used s' (id (deref s p)) = false /\
  sessionClients s' !! uuid (deref s p) = None /\
  closed (send (deref s' p)) = true /\
  row_of (deref s p) ∈ gameData s'.

Definition served (data : string) (s s' : Session) (p : ptr) : Prop :=
  if has_room (send (deref s p)) then delivered data s s' p else evicted s s' p.

Lemma shrinks_deleted p s : shrinks s (deleted p s).
Proof.
  constructor.
  - intros i. unfold deleted.
    change (id_used (set_send p _ ?t) i) with (id_used t i).
    rewrite id_used_forget. by destruct (decide _).
  - intros u Hu. unfold deleted. simpl.
    destruct (decide (uuid (deref s p) = u)) as [->|Hne].
    + by rewrite lookup_delete_eq.
    + by rewrite lookup_delete_ne.
  - intros r Hr. unfold deleted. simpl. apply elem_of_app. by left.
  - done.
Qed.

Lemma evicted_deleted p s : evicted s (deleted p s) p.
Proof.
  unfold evicted. repeat split.
  - intros Hr. apply registered_deleted in Hr as [Hne _]. done.
  - unfold deleted.
    change (id_used (set_send p _ ?t) ?i) with (id_used t i).
    rewrite id_used_forget. by destruct (decide _).
  - unfold deleted. simpl. by rewrite lookup_delete_eq.
  - unfold deleted. rewrite deref_set_send. by destruct (decide (p = p)).
  - unfold deleted. simpl. apply elem_of_app. right. by apply list_elem_of_singleton.
Qed.

Lemma broadcast_one_spec data s p :
  inv s -> is_registered s p ->
  exists s1,
    broadcast_one data s p = Ok s1 /\ inv s1 /\ served data s s1 p /\
    (forall q, q <> p ->
               (is_registered s1 q <-> is_registered s q) /\
               deref s1 q = deref s q) /\
    shrinks s s1.
Proof.
  intros Hinv Hp.
  pose proof (inv_open s Hinv p Hp) as Hopen.
  unfold broadcast_one, try_send, served. rewrite Hopen.
  destruct (has_room (send (deref s p))) eqn:Hroom; simpl.
  - eexists. split; [reflexivity|]. split; [|split; [|split]].
    + apply inv_set_send; [done|]. intros _. exact Hopen.
    + split; [exact Hp|]. rewrite deref_set_send.
      by destruct (decide (p = p)).
    + intros q Hq. split; [done|]. rewrite deref_set_send.
      destruct (decide (p = q)); [congruence|done].
    + by constructor.
  - rewrite deleteClient_open by done.
    eexists. split; [reflexivity|]. split; [|split; [|split]].
    + by apply inv_deleted.
    + apply evicted_deleted.
    + intros q Hq. split.
      * rewrite registered_deleted. split; [by intros [_ ?] | by split].
      * by apply deref_deleted_ne.
    + apply shrinks_deleted.
Qed.

Lemma served_later data s s1 s' p :
  served data s s1 p ->
  (is_registered s' p <-> is_registered s1 p) ->
  deref s' p = deref s1 p ->
  shrinks s1 s' ->
  served data s s' p.
Proof.
  unfold served. intros Hs Hreg Hd Hshr.
  destruct (has_room (send (deref s p))).
  - destruct Hs as [Hr He]. split; [by apply Hreg | congruence].
  - destruct Hs as (Hr & Hi & Hu & Hc & Hrow).
    repeat split.
    + intros H. by apply Hr, Hreg.
    + destruct (id_used s' (id (deref s p))) eqn:E; [|done].
      apply (shr_ids _ _ Hshr) in E. congruence.
    + by apply (shr_sessionClients _ _ Hshr).
    + by rewrite Hd.
    + by apply (shr_gameData _ _ Hshr).
Qed.

Lemma served_from data s s1 s' p :
  deref s1 p = deref s p -> served data s1 s' p -> served data s s' p.
Proof.
  unfold served, delivered, evicted. intros Hd. by rewrite Hd.
Qed.

(** The loop of [broadcast] over clients that are all registered and
    visited once: it ends, and serves each of them. *)
Lemma broadcast_in_spec data order : forall s,
  inv s -> NoDup order -> (forall p, p ∈ order -> is_registered s p) ->
  exists s',
    broadcast_in order data s = Ok s' /\ inv s' /\
    (forall p, p ∈ order -> served data s s' p) /\
    (forall q, q ∉ order ->
               (is_registered s' q <-> is_registered s q) /\
               deref s' q = deref s q) /\
    shrinks s s'.
Proof.
  induction order as [|p rest IH]; intros s Hinv Hnd Hreg.
  - exists s. simpl. split; [done|]. split; [done|].
    split; [intros p Hp; by apply elem_of_nil in Hp|].
    split; [done|]. apply shrinks_refl.
  - apply NoDup_cons in Hnd as [Hp Hnd].
    destruct (broadcast_one_spec data s p Hinv) as (s1 & E1 & Hinv1 & Hs1 & Hoth1 & Hshr1).
    { apply Hreg. by left. }
    destruct (IH s1 Hinv1 Hnd) as (s' & E' & Hinv' & Hs' & Hoth' & Hshr').
    { intros q Hq. apply Hoth1.
      - intros ->. done.
      - apply Hreg. by right. }
    exists s'. simpl. rewrite E1. simpl.
    split; [exact E'|]. split; [done|].
    split; [|split].
    + intros q Hq. apply elem_of_cons in Hq as [->|Hq].
      * destruct (Hoth' p Hp) as [Hr Hd].
        by apply (served_later data s s1 s' p).
      * apply (served_from data s s1 s' q); [|by apply Hs'].
        apply Hoth1. intros ->. done.
    + intros q Hq. apply not_elem_of_cons in Hq as [Hqp Hq].
      destruct (Hoth' q Hq) as [Hr Hd]. destruct (Hoth1 q Hqp) as [Hr1 Hd1].
      split; [by rewrite Hr | congruence].
    + by apply (shrinks_trans s s1 s').
Qed.

Lemma broadcast_spec data order s :
  inv s -> range_order s order ->
  exists s',
    broadcast_in order data s = Ok s' /\ inv s' /\
    (forall p, is_registered s p -> served data s s' p) /\
    (forall q, ~ is_registered s q ->
               ~ is_registered s' q /\ deref s' q = deref s q) /\
    shrinks s s'.
Proof.
  intros Hinv Hord.
  destruct (broadcast_in_spec data order s Hinv) as (s' & E & Hinv' & Hs & Hoth & Hshr).
  { by apply (range_order_NoDup s). }
  { intros p Hp. by apply (range_order_elem s order p Hord). }
  exists s'. split; [done|]. split; [done|]. split; [|split; [|done]].
  - intros p Hp. apply Hs. by apply (range_order_elem s order p Hord).
  - intros q Hq.
    assert (Hno : q ∉ order).
    { intros Hin. by apply Hq, (range_order_elem s order q Hord). }
    destruct (Hoth q Hno) as [Hr Hd]. split; [|done].
    intros H. by apply Hq, Hr.
Qed.

(** *** The invariant holds in every reachable state *)

Lemma inv_enroll conn on s s' : inv s -> enroll conn on s = Ok s' -> inv s'.
Proof.
  intros Hinv. unfold enroll.
  destruct (3 <=? same_ip s (Ip conn)).
  { intros [= <-]. by apply inv_writeErrLog. }
  pose proof (first_free_id_spec s) as Hfree. simpl in Hfree.
  destruct (first_free_id s =? 0) eqn:Hz.
  { intros [= <-]. by apply inv_writeErrLog. }
  apply Z.eqb_neq in Hz.
  destruct Hfree as [[Hzero _]|(Hrange & Hunused & _)]; [done|].
  simpl. intros [= <-].
  apply inv_writeLog, inv_install; try done.
  apply is_fresh.
Qed.

Lemma inv_connect conn s s' : inv s -> connect conn s = Ok s' -> inv s'.
Proof.
  intros Hinv. unfold connect.
  destruct (isShadowBanned (info_accessType conn)).
  { apply inv_enroll. by apply inv_writeErrLog. }
  destruct (isBanned (info_accessType conn)).
  { intros [= <-]. by apply inv_writeErrLog. }
  by apply inv_enroll.
Qed.

Lemma inv_unregister p s s' : inv s -> unregister p s = Ok s' -> inv s'.
Proof.
  intros Hinv. unfold unregister.
  destruct (clients s !! p) as [b|] eqn:Hp.
  - assert (Hreg : is_registered s p) by (by exists b).
    rewrite deleteClient_open by (by apply (inv_open s Hinv)).
    simpl. intros [= <-]. by apply inv_writeLog, inv_deleted.
  - intros [= <-]. by apply inv_writeErrLog.
Qed.

Lemma inv_drain p s : inv s -> inv (drain p s).
Proof.
  intros Hinv. unfold drain. apply inv_set_send; [done|].
  intros Hp. simpl. by apply (inv_open s Hinv).
Qed.

Lemma reachable_inv s : reachable s -> inv s.
Proof.
  induction 1 as [|s conn s' _ IH E|s p s' _ IH E|s order data s' _ IH Hord E
                  |s p _ IH|s p c _ IH Hp Hid Hcl].
  - apply inv_new.
  - by apply (inv_connect conn s).
  - by apply (inv_unregister p s).
  - destruct (broadcast_spec data order s IH Hord) as (s2 & E2 & Hinv2 & _).
    congruence.
  - by apply inv_drain.
  - by apply inv_set_client.
Qed.

(** *** What a connect does *)

(** The ban check refuses the request: banned and not shadow-banned. *)
Definition hard_banned (conn : ConnInfo) : bool :=
  negb (isShadowBanned (info_accessType conn)) && isBanned (info_accessType conn).

(** The client a successful connect allocates, with its greeting queued. *)
Definition greeted (i : Z) (on : bool) (conn : ConnInfo) : SessionClient :=
  with_send (newClient i on conn) (push (make 256) (greeting i conn)).

Lemma enroll_cases conn on s :
  enroll conn on s =
  if 3 <=? same_ip s (Ip conn) then
    Ok (writeErrLog (Ip conn) "session" "too many connections" s)
  else if first_free_id s =? 0 then
    Ok (writeErrLog (Ip conn) "session" "room is full" s)
  else
    Ok (writeLog (Ip conn) "session" "connect" 200
          (install (fresh (dom (heap s))) (greeted (first_free_id s) on conn) s)).
Proof.
  unfold enroll. destruct (3 <=? same_ip s (Ip conn)); [done|].
  destruct (first_free_id s =? 0); done.
Qed.

(** [connect] is [enroll] on a state that differs from [s] by the log only. *)
Lemma connect_cases conn s :
  hard_banned conn = false ->
  exists on s0,
    connect conn s = enroll conn on s0 /\
    clients s0 = clients s /\ ids s0 = ids s /\
    sessionClients s0 = sessionClients s /\ heap s0 = heap s /\
    gameData s0 = gameData s.
Proof.
  unfold hard_banned, connect. intros Hb.
  destruct (isShadowBanned (info_accessType conn)).
  - eexists _, _. split; [reflexivity|]. done.
  - simpl in Hb. rewrite Hb. eexists _, _. split; [reflexivity|]. done.
Qed.

Lemma same_fields_inv s0 s :
  clients s0 = clients s -> ids s0 = ids s -> heap s0 = heap s ->
  inv s -> inv s0.
Proof.
  intros Hc Hi Hh [H1 H2 H3 H4 H5].
  assert (Hreg : forall p, is_registered s0 p <-> is_registered s p).
  { intros p. unfold is_registered. by rewrite Hc. }
  assert (Hd : forall p, deref s0 p = deref s p).
  { intros p. unfold deref. by rewrite Hh. }
  constructor.
  - intros p Hp. rewrite Hh. by apply H1, Hreg.
  - intros i. unfold id_used, held. rewrite Hi. rewrite (H2 i). unfold held.
    split; intros (p & Hp & Hpi); exists p.
    + by rewrite Hreg, Hd.
    + by rewrite <- Hreg, <- Hd.
  - intros p q Hp Hq. rewrite !Hd. apply H3; by apply Hreg.
  - intros p Hp. rewrite Hd. by apply H4, Hreg.
  - intros p Hp. rewrite Hd. by apply H5, Hreg.
Qed.

(** A connect unregisters nobody and touches no other client. *)
Lemma connect_keeps conn s s' q :
  inv s -> connect conn s = Ok s' -> is_registered s q ->
  is_registered s' q /\ deref s' q = deref s q.
Proof.
  intros Hinv E Hq.
  assert (Hreg0 : forall on s0,
    clients s0 = clients s -> heap s0 = heap s ->
    enroll conn on s0 = Ok s' -> is_registered s' q /\ deref s' q = deref s q).
  { intros on s0 Hc Hh. rewrite enroll_cases.
    assert (Hq0 : is_registered s0 q) by (unfold is_registered; by rewrite Hc).
    assert (Hd0 : deref s0 q = deref s q) by (unfold deref; by rewrite Hh).
    destruct (3 <=? same_ip s0 (Ip conn)); [by intros [= <-]|].
    destruct (first_free_id s0 =? 0); [by intros [= <-]|].
    intros [= <-]. split.
    - apply (registered_install _ _ s0 q). by right.
    - change (deref (writeLog _ _ _ _ ?t) q) with (deref t q).
      rewrite deref_install.
      destruct (decide (fresh (dom (heap s0)) = q)) as [Hf|]; [|done].
      exfalso. apply (is_fresh (dom (heap s0))). rewrite Hf, Hh.
      by apply (inv_heap s Hinv). }
  unfold connect in E.
  destruct (isShadowBanned (info_accessType conn)).
  - by apply (Hreg0 false (writeErrLog (Ip conn) "session"
       "player is shadowbanned, setting connection to offline" s)).
  - destruct (isBanned (info_accessType conn)).
    + by injection E as <-.
    + by apply (Hreg0 (Online conn) s).
Qed.

(** A connect that passes the ban check and the address check, when some id of
    [1..maxID] is free: a new client is registered under the least such id. *)
Lemma connect_allocates conn s :
  inv s -> hard_banned conn = false -> same_ip s (Ip conn) < 3 ->
  (exists i, 1 <= i <= maxID /\ ~ held s i) ->
  exists s' p,
    connect conn s = Ok s' /\
    ~ is_registered s p /\ is_registered s' p /\
    (forall q, is_registered s' q <-> q = p \/ is_registered s q) /\
    uuid (deref s' p) = info_uuid conn /\ ip (deref s' p) = Ip conn /\
    sessionClients s' !! info_uuid conn = Some p /\
    1 <= id (deref s' p) <= maxID /\
    ~ held s (id (deref s' p)) /\
    (forall j, 1 <= j < id (deref s' p) -> held s j).
Proof.
  intros Hinv Hb Hip (i0 & Hi0 & Hfree0).
  destruct (connect_cases conn s Hb) as (on & s0 & -> & Hc & Hi & Hsc & Hh & _).
  assert (Hinv0 : inv s0) by (by apply (same_fields_inv s0 s)).
  assert (Hreg : forall p, is_registered s0 p <-> is_registered s p).
  { intros p. unfold is_registered. by rewrite Hc. }
  assert (Hheld : forall i, held s0 i <-> held s i).
  { intros i. rewrite <- (inv_ids s0 Hinv0), <- (inv_ids s Hinv).
    unfold id_used. by rewrite Hi. }
  assert (Hsame : same_ip s0 (Ip conn) = same_ip s (Ip conn)).
  { unfold same_ip, same_ip_in, registered, deref. by rewrite Hc, Hh. }
  rewrite enroll_cases, Hsame.
  destruct (3 <=? same_ip s (Ip conn)) eqn:E3; [apply Z.leb_le in E3; lia|].
  pose proof (first_free_id_spec s0) as Hspec. simpl in Hspec.
  destruct Hspec as [[Hz Hall]|(Hrange & Hunused & Hbelow)].
  { exfalso. apply Hfree0, Hheld, (inv_ids s0 Hinv0). by apply Hall. }
  destruct (first_free_id s0 =? 0) eqn:Ez; [apply Z.eqb_eq in Ez; lia|].
  set (p := fresh (dom (heap s0))).
  set (c := greeted (first_free_id s0) on conn).
  assert (Hp : ~ is_registered s0 p).
  { intros Hr. apply (is_fresh (dom (heap s0))). by apply (inv_heap s0 Hinv0). }
  assert (Hself : deref (writeLog (Ip conn) "session" "connect" 200 (install p c s0)) p = c).
  { change (deref (writeLog _ _ _ _ ?t) p) with (deref t p).
    rewrite deref_install. by destruct (decide (p = p)). }
  eexists _, p. split; [reflexivity|]. rewrite Hself.
  split; [by rewrite <- Hreg|].
  split; [apply (registered_install p c s0 p); by left|].
  split.
  { intros q. rewrite <- Hreg. apply (registered_install p c s0 q). }
  split; [done|]. split; [done|].
  split; [simpl; by rewrite lookup_insert_eq|].
  split; [exact Hrange|].
  split.
  - intros Hh'. apply Hheld, (inv_ids s0 Hinv0) in Hh'. simpl in Hh'. congruence.
  - intros j Hj. apply Hheld, (inv_ids s0 Hinv0). by apply Hbelow.
Qed.

(** The same connect when every id of [1..maxID] is held: refused as a full
    room, and nothing is registered. *)
Lemma connect_room_full conn s :
  inv s -> hard_banned conn = false -> same_ip s (Ip conn) < 3 ->
  (forall i, 1 <= i <= maxID -> held s i) ->
  exists s',
    connect conn s = Ok s' /\
    clients s' = clients s /\ ids s' = ids s /\
    sessionClients s' = sessionClients s /\ heap s' = heap s /\
    last (logs s') = Some (ErrLog (Ip conn) "session" "room is full").
Proof.
  intros Hinv Hb Hip Hall.
  destruct (connect_cases conn s Hb) as (on & s0 & -> & Hc & Hi & Hsc & Hh & _).
  assert (Hinv0 : inv s0) by (by apply (same_fields_inv s0 s)).
  assert (Hheld : forall i, held s0 i <-> held s i).
  { intros i. rewrite <- (inv_ids s0 Hinv0), <- (inv_ids s Hinv).
    unfold id_used. by rewrite Hi. }
  assert (Hsame : same_ip s0 (Ip conn) = same_ip s (Ip conn)).
  { unfold same_ip, same_ip_in, registered, deref. by rewrite Hc, Hh. }
  rewrite enroll_cases, Hsame.
  destruct (3 <=? same_ip s (Ip conn)) eqn:E3; [apply Z.leb_le in E3; lia|].
  pose proof (first_free_id_spec s0) as Hspec. simpl in Hspec.
  destruct Hspec as [[Hz _]|(Hrange & Hunused & _)].
  - rewrite Hz. simpl. eexists. split; [reflexivity|]. simpl.
    repeat (split; [done|]). by rewrite last_snoc.
  - exfalso. assert (Hu : id_used s0 (first_free_id s0) = true).
    { apply (inv_ids s0 Hinv0), Hheld. by apply Hall. }
    congruence.
Qed.

(** The registered clients whose address is [addr]. *)
Definition from_address (s : Session) (addr : string) : list ptr :=
  filter (fun p => ip (deref s p) = addr) (registered s).

Lemma same_ip_from_address s addr :
  same_ip s addr = Z.of_nat (length (from_address s addr)).
Proof. unfold same_ip, from_address. apply same_ip_in_count. Qed.

(** A connect from an address with three registered clients or more is
    refused, whatever else holds of the request; nothing is registered. *)
Lemma connect_too_many conn s :
  (3 <= length (from_address s (Ip conn)))%nat ->
  exists s',
    connect conn s = Ok s' /\
    clients s' = clients s /\ ids s' = ids s /\
    sessionClients s' = sessionClients s /\ heap s' = heap s /\
    (hard_banned conn = false ->
     last (logs s') = Some (ErrLog (Ip conn) "session" "too many connections")).
Proof.
  intros Hn.
  assert (Hreg0 : forall on s0,
    clients s0 = clients s -> ids s0 = ids s ->
    sessionClients s0 = sessionClients s -> heap s0 = heap s ->
    exists s', enroll conn on s0 = Ok s' /\
      clients s' = clients s /\ ids s' = ids s /\
      sessionClients s' = sessionClients s /\ heap s' = heap s /\
      last (logs s') = Some (ErrLog (Ip conn) "session" "too many connections")).
  { intros on s0 Hc Hi Hsc Hh. rewrite enroll_cases.
    assert (Hsame : same_ip s0 (Ip conn) = same_ip s (Ip conn)).
    { unfold same_ip, same_ip_in, registered, deref. by rewrite Hc, Hh. }
    rewrite Hsame, same_ip_from_address.
    destruct (3 <=? Z.of_nat (length (from_address s (Ip conn)))) eqn:E3;
      [|apply Z.leb_gt in E3; lia].
    eexists. split; [reflexivity|]. simpl.
    repeat (split; [done|]). by rewrite last_snoc. }
  unfold connect, hard_banned.
  destruct (isShadowBanned (info_accessType conn)).
  - destruct (Hreg0 false (writeErrLog (Ip conn) "session"
       "player is shadowbanned, setting connection to offline" s))
      as (s' & E & H1 & H2 & H3 & H4 & H5); try done.
    exists s'. by repeat (split; [done|]).
  - destruct (isBanned (info_accessType conn)).
    + eexists. split; [reflexivity|]. simpl. by repeat (split; [done|]).
    + destruct (Hreg0 (Online conn) s) as (s' & E & H1 & H2 & H3 & H4 & H5); try done.
      exists s'. by repeat (split; [done|]).
Qed.

Lemma broadcast_in_not_blocked order data : forall s,
  broadcast_in order data s <> Blocked.
Proof.
  induction order as [|p rest IH]; intros s; simpl; [done|].
  unfold broadcast_one, try_send, deleteClient, close.
  destruct (closed (send (deref s p))); simpl; [done|].
  destruct (has_room (send (deref s p))); simpl; apply IH.
Qed.

(** Requests taken off the [connect] channel one after the other. *)
Fixpoint connects (cs : list ConnInfo) (s : Session) : res Session :=
  match cs with
  | [] => Ok s
  | c :: rest => let* s' := connect c s in connects rest s'
  end.

Lemma connects_reachable cs : forall s s',
  reachable s -> connects cs s = Ok s' -> reachable s'.
Proof.
  induction cs as [|c rest IH]; intros s s' Hs; simpl.
  - by intros [= <-].
  - destruct (connect c s) as [s1| |] eqn:E; simpl; try done.
    apply IH. by apply (reach_connect s c s1).
Qed.

(** *** Properties of the registry *)

(** C2. In every state the actor reaches no two registered clients hold the
    same session id.  A connect that gets past the ban check and the address
    check is given the least id of [1..maxID] that no registered client
    holds, and is registered under it; when every id of [1..maxID] is held
    it is refused with the log line "room is full" and no record is
    installed. *)
Theorem connect_allocates_least_free_id s :
  reachable s ->
  (forall p q, is_registered s p -> is_registered s q ->
               id (deref s p) = id (deref s q) -> p = q) /\
  (forall conn,
      hard_banned conn = false ->
      (length (from_address s (Ip conn)) < 3)%nat ->
      ((exists i, 1 <= i <= maxID /\ ~ held s i) ->
       exists s' p,
         connect conn s = Ok s' /\
         ~ is_registered s p /\ is_registered s' p /\
         id_used s' (id (deref s' p)) = true /\
         1 <= id (deref s' p) <= maxID /\
         ~ held s (id (deref s' p)) /\
         (forall j, 1 <= j < id (deref s' p) -> held s j)) /\
      ((forall i, 1 <= i <= maxID -> held s i) ->
       exists s',
         connect conn s = Ok s' /\
         clients s' = clients s /\ ids s' = ids s /\
         sessionClients s' = sessionClients s /\ heap s' = heap s /\
         last (logs s') = Some (ErrLog (Ip conn) "session" "room is full"))).
Proof.
  intros Hreach. pose proof (reachable_inv s Hreach) as Hinv.
  split; [exact (inv_uniq s Hinv)|].
  intros conn Hb Hn.
  assert (Hip : same_ip s (Ip conn) < 3) by (rewrite same_ip_from_address; lia).
  split.
  - intros Hfree.
    destruct (connect_allocates conn s Hinv Hb Hip Hfree)
      as (s' & p & E & Hnew & Hreg & _ & _ & _ & _ & Hrange & Hleast & Hbelow).
    exists s', p. repeat (split; [done|]). split; [|done].
    assert (Hinv' : inv s').
    { apply (reachable_inv s'). by apply (reach_connect s conn s'). }
    apply (inv_ids s' Hinv'). by exists p.
  - by apply connect_room_full.
Qed.

(** C3. A broadcast over the registered clients of a reachable state, in
    whatever order the map is visited, ends without blocking: the payload
    is appended to the queue of every client whose queue has room, and every
    client whose queue is full goes through [deleteClient] (unregistered,
    its id and identity freed, its row written, its queue closed); nobody
    else becomes registered. *)
Theorem broadcast_delivers_or_evicts data order s :
  reachable s -> range_order s order ->
  exists s',
    broadcast_in order data s = Ok s' /\
    (forall p, is_registered s p ->
       (has_room (send (deref s p)) = true -> delivered data s s' p) /\
       (has_room (send (deref s p)) = false -> evicted s s' p)) /\
    (forall q, ~ is_registered s q -> ~ is_registered s' q) /\
    (forall order0 s0, broadcast_in order0 data s0 <> Blocked).
Proof.
  intros Hreach Hord. pose proof (reachable_inv s Hreach) as Hinv.
  destruct (broadcast_spec data order s Hinv Hord) as (s' & E & _ & Hs & Hoth & _).
  exists s'. split; [done|]. split; [|split].
  - intros p Hp. specialize (Hs p Hp). unfold served in Hs.
    split; intros Hroom; by rewrite Hroom in Hs.
  - intros q Hq. by apply Hoth.
  - intros order0 s0. apply broadcast_in_not_blocked.
Qed.

(** C9. In a reachable state, a connect from an address that three (or more)
    registered clients have is refused: the registry, the ids and the
    clients are as before, and unless the ban check refused it first the log
    says "too many connections".  With fewer than three, a connect that
    passes the ban check is registered as long as an id is free. *)
Theorem connect_address_limit s conn :
  reachable s ->
  ((3 <= length (from_address s (Ip conn)))%nat ->
   exists s',
     connect conn s = Ok s' /\
     clients s' = clients s /\ ids s' = ids s /\
     sessionClients s' = sessionClients s /\ heap s' = heap s /\
     (forall p, is_registered s p -> is_registered s' p) /\
     (hard_banned conn = false ->
      last (logs s') = Some (ErrLog (Ip conn) "session" "too many connections"))) /\
  ((length (from_address s (Ip conn)) < 3)%nat ->
   hard_banned conn = false ->
   (exists i, 1 <= i <= maxID /\ ~ held s i) ->
   exists s' p,
     connect conn s = Ok s' /\
     ~ is_registered s p /\ is_registered s' p /\
     ip (deref s' p) = Ip conn /\
     (forall q, is_registered s q -> is_registered s' q)).
Proof.
  intros Hreach. pose proof (reachable_inv s Hreach) as Hinv. split.
  - intros Hn.
    destruct (connect_too_many conn s Hn) as (s' & E & Hc & Hi & Hsc & Hh & Hlog).
    exists s'. repeat (split; [done|]). split; [|done].
    intros p. unfold is_registered. by rewrite Hc.
  - intros Hn Hb Hfree.
    assert (Hip : same_ip s (Ip conn) < 3) by (rewrite same_ip_from_address; lia).
    destruct (connect_allocates conn s Hinv Hb Hip Hfree)
      as (s' & p & E & Hnew & Hreg & Hall & _ & Haddr & _).
    exists s', p. repeat (split; [done|]).
    intros q Hq. apply Hall. by right.
Qed.

(** A connect for an identity that is registered already evicts nobody: the
    prior record stays registered with its queue open, next to the new one. *)
Lemma connect_does_not_evict conn s q :
  reachable s -> is_registered s q -> uuid (deref s q) = info_uuid conn ->
  hard_banned conn = false ->
  (length (from_address s (Ip conn)) < 3)%nat ->
  (exists i, 1 <= i <= maxID /\ ~ held s i) ->
  exists s' p,
    connect conn s = Ok s' /\ p <> q /\
    is_registered s' p /\ uuid (deref s' p) = info_uuid conn /\
    is_registered s' q /\ uuid (deref s' q) = info_uuid conn /\
    closed (send (deref s' q)) = false.
Proof.
  intros Hreach Hq Hu Hb Hn Hfree. pose proof (reachable_inv s Hreach) as Hinv.
  assert (Hip : same_ip s (Ip conn) < 3) by (rewrite same_ip_from_address; lia).
  destruct (connect_allocates conn s Hinv Hb Hip Hfree)
    as (s' & p & E & Hnew & Hreg & _ & Hup & _).
  destruct (connect_keeps conn s s' q Hinv E Hq) as [Hq' Hd].
  exists s', p. split; [done|]. split; [by intros ->|].
  split; [done|]. split; [done|]. split; [done|].
  rewrite Hd. split; [done|]. by apply (inv_open s Hinv).
Qed.

End Run.

(** *** Concrete runs *)

Definition demo_btoa (b : bool) : string := if b then "1" else "0".

(** A request of a player that is neither banned nor shadow-banned. *)
Definition player (addr u : string) : ConnInfo :=
  {| Ip := addr; Token := ""; Online := true;
     info_uuid := u; info_name := u; info_rank := 0; info_badge := "null";
     info_accessType := {| isShadowBanned := false; isBanned := false |};
     info_account := false;
     data_systemName := ""; data_spriteName := ""; data_spriteIndex := 0 |}.

(** The state after the requests [cs], for ids [1..n]. *)
Definition after (n : Z) (cs : list ConnInfo) : Session :=
  match connects n "|" demo_btoa cs newSessionWs with
  | Ok s => s
  | _ => newSessionWs
  end.

Lemma after_reachable n cs :
  connects n "|" demo_btoa cs newSessionWs = Ok (after n cs) ->
  reachable n "|" demo_btoa (after n cs).
Proof.
  intros E. apply (connects_reachable n "|" demo_btoa cs newSessionWs); [|done].
  apply reach_new.
Qed.

Definition two_players : Session :=
  after 3 [player "10.0.0.1" "a"; player "10.0.0.2" "b"].

Definition three_from_one_address : Session :=
  after 9 [player "10.0.0.9" "a"; player "10.0.0.9" "b"; player "10.0.0.9" "c"].

Example two_players_ids :
  map (fun p => (p, id (deref two_players p), buf (send (deref two_players p))))
      (registered two_players)
  = [(2%positive, 2, ["s|2|b|0|0|null"]); (1%positive, 1, ["s|1|a|0|0|null"])].
Proof. vm_compute. reflexivity. Qed.

Lemma connect_allocates_least_free_id_witness :
  exists s' p,
    connect 3 "|" demo_btoa (player "10.0.0.3" "c") two_players = Ok s' /\
    ~ is_registered two_players p /\ is_registered s' p /\
    id_used s' (id (deref s' p)) = true /\
    1 <= id (deref s' p) <= 3 /\
    ~ held two_players (id (deref s' p)) /\
    (forall j, 1 <= j < id (deref s' p) -> held two_players j).
Proof.
  assert (Hreach : reachable 3 "|" demo_btoa two_players).
  { apply after_reachable. vm_compute. reflexivity. }
  destruct (connect_allocates_least_free_id 3 "|" demo_btoa two_players Hreach)
    as [_ Hconn].
  destruct (Hconn (player "10.0.0.3" "c")) as [Hfree _].
  - reflexivity.
  - vm_compute. lia.
  - apply Hfree. exists 3. split; [lia|].
    intros Hheld. apply (inv_ids 3 two_players) in Hheld.
    + vm_compute in Hheld. discriminate.
    + by apply (reachable_inv 3 "|" demo_btoa).
Defined.

(** With two ids only, the third player finds the room full. *)
Example third_player_room_full :
  exists s',
    connect 2 "|" demo_btoa (player "10.0.0.3" "c")
      (after 2 [player "10.0.0.1" "a"; player "10.0.0.2" "b"]) = Ok s' /\
    registered s' = [2%positive; 1%positive] /\
    logs s' = [Log "10.0.0.1" "session" "connect" 200;
               Log "10.0.0.2" "session" "connect" 200;
               ErrLog "10.0.0.3" "session" "room is full"].
Proof. eexists. split; [vm_compute; reflexivity|]. split; vm_compute; reflexivity. Qed.

Lemma broadcast_delivers_or_evicts_witness :
  exists s',
    broadcast_in (registered two_players) "pc|2" two_players = Ok s' /\
    (forall p, is_registered two_players p ->
       (has_room (send (deref two_players p)) = true ->
        delivered "pc|2" two_players s' p) /\
       (has_room (send (deref two_players p)) = false ->
        evicted two_players s' p)) /\
    (forall q, ~ is_registered two_players q -> ~ is_registered s' q) /\
    (forall order0 s0, broadcast_in order0 "pc|2" s0 <> Blocked).
Proof.
  apply (broadcast_delivers_or_evicts 3 "|" demo_btoa).
  - apply after_reachable. vm_compute. reflexivity.
  - unfold range_order. reflexivity.
Defined.

Lemma connect_address_limit_witness :
  exists s',
    connect 9 "|" demo_btoa (player "10.0.0.9" "d") three_from_one_address = Ok s' /\
    clients s' = clients three_from_one_address /\
    ids s' = ids three_from_one_address /\
    sessionClients s' = sessionClients three_from_one_address /\
    heap s' = heap three_from_one_address /\
    (forall p, is_registered three_from_one_address p -> is_registered s' p) /\
    (hard_banned (player "10.0.0.9" "d") = false ->
     last (logs s') = Some (ErrLog "10.0.0.9" "session" "too many connections")).
Proof.
  assert (Hreach : reachable 9 "|" demo_btoa three_from_one_address).
  { apply after_reachable. vm_compute. reflexivity. }
  apply (proj1 (connect_address_limit 9 "|" demo_btoa three_from_one_address
                  (player "10.0.0.9" "d") Hreach)).
  vm_compute. lia.
Defined.

(** [n] rounds of the periodic broadcast; the writer of [fast] empties its
    queue after each round, every other writer is stuck. *)
Fixpoint rounds (n : nat) (fast : ptr) (data : string) (s : Session) : res Session :=
  match n with
  | O => Ok s
  | S n' =>
      let* s1 := broadcast_in (registered s) data s in
      rounds n' fast data (drain fast s1)
  end.

(** Client 1 never reads: the greeting and 255 broadcasts fill its queue, the
    256th broadcast evicts it and frees id 1, and client 2 still gets the
    payload. *)
Example slow_client_evicted :
  exists s255 s256,
    rounds 255 2%positive "pc|2" two_players = Ok s255 /\
    length (buf (send (deref s255 1%positive))) = 256%nat /\
    registered s255 = [2%positive; 1%positive] /\
    broadcast_in (registered s255) "pc|2" s255 = Ok s256 /\
    registered s256 = [2%positive] /\
    id_used s256 1 = false /\ id_used s256 2 = true /\
    closed (send (deref s256 1%positive)) = true /\
    buf (send (deref s255 2%positive)) = ["pc|2"] /\
    buf (send (deref s256 2%positive)) = ["pc|2"; "pc|2"] /\
    gameData s256 = [row_of (deref two_players 1%positive)].
Proof.
  eexists _, _. split; [vm_compute; reflexivity|].
  split; [vm_compute; reflexivity|]. split; [vm_compute; reflexivity|].
  split; [vm_compute; reflexivity|].
  repeat split; vm_compute; reflexivity.
Qed.

(** C1. Two connects of the player "u", the second from another address: the
    actor installs the second record next to the first.  Both stay in
    [s.clients] under the ids 1 and 2, the queue of the first is still open
    and nothing was logged or written for a disconnect. *)
Theorem second_connect_keeps_prior_record :
  exists s',
    connects 9 "|" demo_btoa
      [player "10.0.0.1" "u"; player "10.0.0.2" "u"] newSessionWs = Ok s' /\
    registered s' = [2%positive; 1%positive] /\
    uuid (deref s' 1%positive) = "u" /\ uuid (deref s' 2%positive) = "u" /\
    id (deref s' 1%positive) = 1 /\ id (deref s' 2%positive) = 2 /\
    closed (send (deref s' 1%positive)) = false /\
    sessionClients s' !! "u" = Some 2%positive /\
    gameData s' = [] /\
    logs s' = [Log "10.0.0.1" "session" "connect" 200;
               Log "10.0.0.2" "session" "connect" 200].
Proof.
  eexists. split; [vm_compute; reflexivity|].
  repeat split; vm_compute; reflexivity.
Qed.

(** When the older of the two records is unregistered afterwards,
    [deleteClient] drops the identity from [sessionClients] although the
    newer record is still registered. *)
Example stale_unregister_drops_identity :
  exists s',
    unregister 1%positive
      (after 9 [player "10.0.0.1" "u"; player "10.0.0.2" "u"]) = Ok s' /\
    registered s' = [2%positive] /\
    uuid (deref s' 2%positive) = "u" /\
    sessionClients s' !! "u" = None.
Proof.
  eexists. split; [vm_compute; reflexivity|].
  repeat split; vm_compute; reflexivity.
Qed.

End Registry.

(** ** The concurrent-map variant of [src/server/session.go] *)

Module SyncMapVariant.

Record SessionClient : Type := {
  ip : string;
  uuid : string;
  name : string;
  rank : Z;
  badge : string;
  muted : bool;
  account : bool;
  id : Z;
  spriteName : string;
  spriteIndex : Z;
  systemName : string
}.

(** A connection attempt: the arguments of [joinSessionWs] with the answers
    of [getPlayerDataFromToken], [getOrCreatePlayerData] and
    [getPlayerGameData] for them. *)
Record Join : Type := {
  j_ip : string;
  j_token : string;
  t_uuid : string; t_name : string; t_rank : Z; t_badge : string;
  t_banned : bool; t_muted : bool;
  g_uuid : string; g_banned : bool; g_muted : bool;
  d_spriteName : string; d_spriteIndex : Z; d_systemName : string
}.

Inductive LogLine : Type :=
| ErrLog (who place what : string)
| Log (who place what : string) (code : Z).

(** The package variables [clients] (a [sync.Map] from uuid to client) and
    [session], with the log and the clients whose [disconnect] ran. *)
Record State : Type := {
  clients : gmap string SessionClient;
  lastId : Z;
  logs : list LogLine;
  disconnected : list SessionClient
}.

(** Modelled from the spec: [SessionClient.disconnect] is not among the
    sources; the spec's Disconnect "removes the record from the map ... closes
    its outbound queue".  The record leaves [clients] and is listed as
    disconnected. *)
Definition disconnect (c : SessionClient) (s : State) : State :=
  {| clients := delete (uuid c) (clients s); lastId := lastId s;
     logs := logs s; disconnected := disconnected s ++ [c] |}.

Definition writeErrLog (who place what : string) (s : State) : State :=
  {| clients := clients s; lastId := lastId s;
     logs := logs s ++ [ErrLog who place what]; disconnected := disconnected s |}.

Definition writeLog (who place what : string) (code : Z) (s : State) : State :=
  {| clients := clients s; lastId := lastId s;
     logs := logs s ++ [Log who place what code]; disconnected := disconnected s |}.

(** The identity the first lines of [joinSessionWs] resolve: the client
    fields read from the token or from the address, and the ban flag. *)
Definition resolve (j : Join) : SessionClient * bool :=
  let '(u, n, r, b, banned, m) :=
    if decide (j_token j = "") then ("", "", 0, "", false, false)
    else (t_uuid j, t_name j, t_rank j, t_badge j, t_banned j, t_muted j) in
  if decide (u = "") then
    ({| ip := j_ip j; uuid := g_uuid j; name := n; rank := r; badge := b;
        muted := g_muted j; account := false; id := 0;
        spriteName := ""; spriteIndex := 0; systemName := "" |}, g_banned j)
  else
    ({| ip := j_ip j; uuid := u; name := n; rank := r; badge := b;
        muted := m; account := true; id := 0;
        spriteName := ""; spriteIndex := 0; systemName := "" |}, banned).

(** Go's [int], 64 bits wide: [session.lastId++] wraps around from the
    largest value to the smallest. *)
Definition int_wrap (z : Z) : Z := (z + 2 ^ 63) mod 2 ^ 64 - 2 ^ 63.

(** The [clients.Range] that counts the clients of one address. *)
Definition sameIp (s : State) (addr : string) : Z :=
  Z.of_nat (length (filter (fun kv => ip (snd kv) = addr) (map_to_list (clients s)))).

(** [joinSessionWs]. *)
Definition joinSessionWs (j : Join) (s : State) : State :=
  let '(client, banned) := resolve j in
  if banned then writeErrLog (uuid client) "sess" "player is banned" s
  else
    let s1 :=
      match clients s !! uuid client with
      | Some prior => disconnect prior s
      | None => s
      end in
    if 3 <? sameIp s1 (j_ip j) then
      writeErrLog (uuid client) "sess" "too many connections from ip" s1
    else
      let client' :=
        {| ip := ip client; uuid := uuid client; name := name client;
           rank := rank client;
           badge := if decide (badge client = "") then "null" else badge client;
           muted := muted client; account := account client;
           id := lastId s1;
           spriteName := d_spriteName j; spriteIndex := d_spriteIndex j;
           systemName := d_systemName j |} in
      writeLog (uuid client) "sess" "connect" 200
        {| clients := <[uuid client := client']> (clients s1);
           lastId := int_wrap (lastId s1 + 1);
           logs := logs s1; disconnected := disconnected s1 |}.

(** This variant does what [Session.run] leaves out: when the identity has
    a record already, [disconnect] runs for it before anything else is
    stored. *)
Lemma joinSessionWs_evicts_prior j s prior :
  snd (resolve j) = false ->
  clients s !! uuid (fst (resolve j)) = Some prior ->
  prior ∈ disconnected (joinSessionWs j s).
Proof.
  intros Hb Hprior. unfold joinSessionWs.
  destruct (resolve j) as [client banned]. simpl in *. subst banned.
  rewrite Hprior.
  destruct (3 <? sameIp (disconnect prior s) (j_ip j)); simpl;
    apply elem_of_app; right; by apply list_elem_of_singleton.
Qed.

(** [clients] is keyed by the uuid, so an identity has one record at most;
    after a join that is not refused it is the one of the new connection,
    numbered by the counter. *)
Lemma joinSessionWs_installs j s :
  snd (resolve j) = false ->
  let s1 := match clients s !! uuid (fst (resolve j)) with
            | Some prior => disconnect prior s
            | None => s
            end in
  sameIp s1 (j_ip j) <= 3 ->
  exists c,
    clients (joinSessionWs j s) !! uuid (fst (resolve j)) = Some c /\
    uuid c = uuid (fst (resolve j)) /\ ip c = j_ip j /\ id c = lastId s /\
    lastId (joinSessionWs j s) = int_wrap (lastId s + 1).
Proof.
  intros Hb. simpl. unfold joinSessionWs.
  assert (Hip : ip (fst (resolve j)) = j_ip j).
  { unfold resolve. destruct (decide (j_token j = "")); simpl; [done|].
    destruct (decide (t_uuid j = "")); done. }
  destruct (resolve j) as [client banned]. simpl in *. subst banned.
  intros Hle. apply Z.ltb_ge in Hle. rewrite Hle. simpl.
  eexists. split; [by rewrite lookup_insert_eq|]. simpl.
  split; [done|]. split; [done|].
  destruct (clients s !! uuid client); done.
Qed.

(** A guest at [addr] whose identity is [u]. *)
Definition guest (addr u : string) : Join :=
  {| j_ip := addr; j_token := "";
     t_uuid := ""; t_name := ""; t_rank := 0; t_badge := "";
     t_banned := false; t_muted := false;
     g_uuid := u; g_banned := false; g_muted := false;
     d_spriteName := ""; d_spriteIndex := 0; d_systemName := "" |}.

Definition empty : State :=
  {| clients := ∅; lastId := 0; logs := []; disconnected := [] |}.

(** Ids come from a counter that starts at 0, and the address check lets a
    fourth client of one address in: it refuses from the fifth on. *)
Example counter_ids_and_fifth_refused :
  let s4 := foldl (fun s j => joinSessionWs j s) empty
              [guest "10.0.0.9" "a"; guest "10.0.0.9" "b";
               guest "10.0.0.9" "c"; guest "10.0.0.9" "d"] in
  let s5 := joinSessionWs (guest "10.0.0.9" "e") s4 in
  map (fun u => id <$> clients s4 !! u) ["a"; "b"; "c"; "d"]
    = [Some 0; Some 1; Some 2; Some 3] /\
  clients s5 = clients s4 /\
  last (logs s5) = Some (ErrLog "e" "sess" "too many connections from ip").
Proof.
  split; [|split].
  - vm_compute. reflexivity.
  - vm_compute. reflexivity.
  - vm_compute. reflexivity.
Qed.

End SyncMapVariant.

(** ** Go's [unicode/utf8] and [strings.Split], as far as the dispatcher
    uses them *)

Module GoText.

Definition byte_val (a : ascii) : Z := Z.of_N (N_of_ascii a).

Definition bytes (s : string) : list Z := map byte_val (list_ascii_of_string s).

Definition between (lo hi b : Z) : bool := (lo <=? b) && (b <=? hi).

(** The second byte a leading byte of a three- or four-byte sequence
    accepts (no overlong forms, no surrogates, nothing above U+10FFFF). *)
Definition second_ok (b0 b1 : Z) : bool :=
  if b0 =? 224 then between 160 191 b1
  else if b0 =? 237 then between 128 159 b1
  else if b0 =? 240 then between 144 191 b1
  else if b0 =? 244 then between 128 143 b1
  else between 128 191 b1.

(** The length of the well-formed sequence at the head of [bs], if any. *)
Definition rune_len (bs : list Z) : option nat :=
  match bs with
  | [] => None
  | b0 :: r0 =>
      if b0 <? 128 then Some 1%nat
      else match r0 with
        | [] => None
        | b1 :: r1 =>
            if between 194 223 b0 then
              if between 128 191 b1 then Some 2%nat else None
            else match r1 with
              | [] => None
              | b2 :: r2 =>
                  if between 224 239 b0 then
                    if second_ok b0 b1 && between 128 191 b2 then Some 3%nat else None
                  else match r2 with
                    | [] => None
                    | b3 :: _ =>
                        if between 240 244 b0 && second_ok b0 b1
                           && between 128 191 b2 && between 128 191 b3
                        then Some 4%nat else None
                    end
              end
        end
  end.

(** [utf8.Valid]. *)
Fixpoint valid_bytes (bs : list Z) : bool :=
  match bs with
  | [] => true
  | b0 :: r0 =>
      if b0 <? 128 then valid_bytes r0
      else match r0 with
        | [] => false
        | b1 :: r1 =>
            if between 194 223 b0 then between 128 191 b1 && valid_bytes r1
            else match r1 with
              | [] => false
              | b2 :: r2 =>
                  if between 224 239 b0 then
                    second_ok b0 b1 && between 128 191 b2 && valid_bytes r2
                  else match r2 with
                    | [] => false
                    | b3 :: r3 =>
                        between 240 244 b0 && second_ok b0 b1
                        && between 128 191 b2 && between 128 191 b3
                        && valid_bytes r3
                    end
              end
        end
  end.

Definition Valid (s : string) : bool := valid_bytes (bytes s).

(** [explode]: one string per rune, an ill-formed byte counting as a rune of
    its own; [more] is the number of bytes the current rune still takes. *)
Fixpoint explode_go (s : string) (more : nat) (cur : string) : list string :=
  match s with
  | EmptyString => if decide (cur = "") then [] else [cur]
  | String a rest =>
      match more with
      | S k => explode_go rest k (cur ++ String a "")%string
      | O =>
          let n := default 1%nat (rune_len (bytes s)) in
          let tail := explode_go rest (n - 1) (String a "") in
          if decide (cur = "") then tail else cur :: tail
      end
  end.

(** [genSplit] for a separator that is not empty: [skip] bytes of a matched
    separator are still to be passed over, [cur] is the piece read so far. *)
Fixpoint split_go (sep s : string) (skip : nat) (cur : string) : list string :=
  match s with
  | EmptyString => [cur]
  | String a rest =>
      match skip with
      | S k => split_go sep rest k cur
      | O =>
          if String.prefix sep s then
            cur :: split_go sep rest (String.length sep - 1) ""
          else split_go sep rest 0 (cur ++ String a "")%string
      end
  end.

(** [strings.Split]. *)
Definition Split (s sep : string) : list string :=
  if decide (sep = "") then explode_go s 0 "" else split_go sep s 0 "".

Example Split_fields : Split "name|Madotsuki" "|" = ["name"; "Madotsuki"].
Proof. reflexivity. Qed.

Example Split_edges :
  Split "" "|" = [""] /\ Split "a||b|" "|" = ["a"; ""; "b"; ""] /\
  Split "a::b:c" "::" = ["a"; "b:c"] /\ Split "" "" = [] /\
  Split "abc" "" = ["a"; "b"; "c"].
Proof. repeat split; reflexivity. Qed.

(** U+FFFF is well-formed, a lone continuation byte and a surrogate are
    not. *)
Example Valid_samples :
  Valid (String (ascii_of_nat 239) (String (ascii_of_nat 191) (String (ascii_of_nat 191) ""))) = true /\
  Valid (String (ascii_of_nat 128) "") = false /\
  Valid (String (ascii_of_nat 237) (String (ascii_of_nat 160) (String (ascii_of_nat 128) ""))) = false.
Proof. repeat split; reflexivity. Qed.

End GoText.

(** ** The frame dispatcher of [src/session.go] *)

Module Dispatch.

Import Chan Registry GoText.

(** A Go [error], by its message; [None] is [nil]. *)
Definition error := string.

Record SessionMessage : Type := {
  sender : ptr;
  data : string
}.

(** What a command handler does: the handlers are methods of [Session]
    declared outside the sources at hand, so the dispatcher is stated for any
    handlers of this shape. *)
Definition Handler := list string -> ptr -> Session -> Session * option error.

Section Handlers.

Variable delim mdelim : string.
Variables handleI handleName handlePloc handleGSay handlePSay
          handlePt handleEp handleEl : Handler.

(** The tail of [processMsg] after the [switch]. *)
Definition finish (msgStr : string) (p : ptr) (r : Session * option error)
  : res (Session * option error) :=
  match snd r with
  | Some e => Ok (fst r, Some e)
  | None => Ok (writeLog (ip (deref (fst r) p)) "session" msgStr 200 (fst r), None)
  end.

(** The case ["pt"]: when the handler fails, "pt null" is sent to the sender
    with a plain channel send. *)
Definition pt_case (msgFields : list string) (p : ptr) (s : Session)
  : res (Session * option error) :=
  let r := handlePt msgFields p s in
  match snd r with
  | Some e =>
      let* ch := Chan.send (send (deref (fst r) p)) ("pt" ++ delim ++ "null")%string in
      Ok (set_send p ch (fst r), Some e)
  | None => Ok r
  end.

(** [Session.processMsg]. *)
Definition processMsg (msgStr : string) (p : ptr) (s : Session)
  : res (Session * option error) :=
  let err : error := msgStr in
  let msgFields := Split msgStr delim in
  if decide (length msgFields = 0%nat) then Ok (s, Some err)
  else
    let cmd := hd "" msgFields in
    if decide (cmd = "i") then finish msgStr p (handleI msgFields p s)
    else if decide (cmd = "name") then finish msgStr p (handleName msgFields p s)
    else if decide (cmd = "ploc") then finish msgStr p (handlePloc msgFields p s)
    else if decide (cmd = "gsay") then finish msgStr p (handleGSay msgFields p s)
    else if decide (cmd = "psay") then finish msgStr p (handlePSay msgFields p s)
    else if decide (cmd = "pt") then
      let* r := pt_case msgFields p s in finish msgStr p r
    else if decide (cmd = "ep") then finish msgStr p (handleEp msgFields p s)
    else if decide (cmd = "el") then finish msgStr p (handleEl msgFields p s)
    else Ok (s, Some err).

(** The loop of [processMsgs] over the sub-messages, adding to [errs]. *)
Fixpoint process_each (msgs : list string) (p : ptr) (s : Session) (errs : list error)
  : res (Session * list error) :=
  match msgs with
  | [] => Ok (s, errs)
  | msgStr :: rest =>
      let* r := processMsg msgStr p s in
      process_each rest p (fst r)
        (match snd r with Some e => errs ++ [e] | None => errs end)
  end.

(** [Session.processMsgs]. *)
Definition processMsgs (msg : SessionMessage) (s : Session)
  : res (Session * list error) :=
  if (4096 <? String.length (data msg))%nat then Ok (s, ["bad request size"])
  else if existsb (fun v => v <? 32) (bytes (data msg)) then
    Ok (s, ["bad byte sequence"])
  else if negb (Valid (data msg)) then Ok (s, ["invalid UTF-8"])
  else process_each (Split (data msg) mdelim) (sender msg) s [].

(** The [processMsgCh] case of [run]. *)
Definition on_message (msg : SessionMessage) (s : Session) : res Session :=
  let* r := processMsgs msg s in
  Ok (foldl (fun s' e => writeErrLog (ip (deref s' (sender msg))) "session" e s')
            (fst r) (snd r)).

(** The commands of the [switch]. *)
Definition commands : list string :=
  ["i"; "name"; "ploc"; "gsay"; "psay"; "pt"; "ep"; "el"].

(** The handler the [switch] picks for a command other than ["pt"]. *)
Definition handler_of (cmd : string) : option Handler :=
  if decide (cmd = "i") then Some handleI
  else if decide (cmd = "name") then Some handleName
  else if decide (cmd = "ploc") then Some handlePloc
  else if decide (cmd = "gsay") then Some handleGSay
  else if decide (cmd = "psay") then Some handlePSay
  else if decide (cmd = "ep") then Some handleEp
  else if decide (cmd = "el") then Some handleEl
  else None.

(** The three checks of [processMsgs] pass. *)
Definition well_formed (d : string) : Prop :=
  (String.length d <= 4096)%nat /\
  Forall (fun v => 32 <= v) (bytes d) /\
  Valid d = true.

(** *** Facts about the loop *)

Lemma process_each_errs msgs p : forall s errs,
  process_each msgs p s errs =
  let* r := process_each msgs p s [] in Ok (fst r, (errs ++ snd r)%list).
Proof.
  induction msgs as [|m rest IH]; intros s errs; simpl.
  - by rewrite app_nil_r.
  - destruct (processMsg m p s) as [[s1 e]| |]; simpl; try done.
    rewrite (IH s1 (match e with Some e0 => errs ++ [e0] | None => errs end)).
    rewrite (IH s1 (match e with Some e0 => [e0] | None => [] end)).
    destruct (process_each rest p s1 []) as [[s2 es]| |]; simpl; try done.
    destruct e; simpl; by rewrite <- ?app_assoc.
Qed.

Lemma process_each_app ms1 ms2 p : forall s errs,
  process_each (ms1 ++ ms2) p s errs =
  let* r := process_each ms1 p s errs in process_each ms2 p (fst r) (snd r).
Proof.
  induction ms1 as [|m rest IH]; intros s errs; simpl; [done|].
  destruct (processMsg m p s) as [[s1 e]| |]; simpl; [apply IH|done|done].
Qed.

(** A sub-message in the middle of a frame: whatever it returns, the ones
    after it are processed from the state it leaves, and it adds its own
    error to the list and nothing else. *)
Lemma process_each_middle ms1 m ms2 p s s1 e1 s2 em :
  process_each ms1 p s [] = Ok (s1, e1) ->
  processMsg m p s1 = Ok (s2, em) ->
  process_each (ms1 ++ m :: ms2) p s [] =
  let* r := process_each ms2 p s2 [] in
  Ok (fst r, (e1 ++ option_list em ++ snd r)%list).
Proof.
  intros E1 Em. rewrite process_each_app, E1. simpl. rewrite Em. simpl.
  rewrite process_each_errs.
  destruct (process_each ms2 p s2 []) as [[s3 e3]| |]; simpl; try done.
  destruct em; simpl; by rewrite <- ?app_assoc.
Qed.

Lemma handler_of_known cmd h : handler_of cmd = Some h -> cmd ∈ commands /\ cmd <> "pt".
Proof.
  unfold handler_of, commands.
  repeat (destruct (decide _) as [->|?];
    [intros _; split; [set_solver|done]|]).
  done.
Qed.

Lemma processMsg_unknown msgStr p s :
  hd "" (Split msgStr delim) ∉ commands ->
  processMsg msgStr p s = Ok (s, Some msgStr).
Proof.
  unfold processMsg, commands. intros Hcmd.
  destruct (decide (length (Split msgStr delim) = 0%nat)); [done|].
  repeat (destruct (decide _) as [Heq|?];
    [exfalso; apply Hcmd; rewrite Heq; set_solver|]).
  done.
Qed.

Lemma processMsg_handler msgStr p s h :
  handler_of (hd "" (Split msgStr delim)) = Some h ->
  processMsg msgStr p s = finish msgStr p (h (Split msgStr delim) p s).
Proof.
  unfold processMsg, handler_of.
  generalize (Split msgStr delim). intros fields.
  destruct (decide (length fields = 0%nat)) as [Hl|_].
  { destruct fields; [|done]. simpl.
    repeat (destruct (decide _) as [?|?]; [done|]). done. }
  generalize (hd "" fields). intros cmd.
  repeat (destruct (decide (cmd = _)) as [->|?];
          [try (intros [= <-]; reflexivity); try done|]).
  done.
Qed.

Lemma processMsg_pt msgStr p s :
  hd "" (Split msgStr delim) = "pt" ->
  processMsg msgStr p s =
  let* r := pt_case (Split msgStr delim) p s in finish msgStr p r.
Proof.
  unfold processMsg. intros Hpt.
  destruct (decide (length (Split msgStr delim) = 0%nat)) as [Hl|].
  { destruct (Split msgStr delim); [|done]. done. }
  rewrite Hpt. done.
Qed.

Lemma on_message_logs msg s s' errs :
  processMsgs msg s = Ok (s', errs) ->
  exists s'',
    on_message msg s = Ok s'' /\
    clients s'' = clients s' /\ ids s'' = ids s' /\
    sessionClients s'' = sessionClients s' /\ heap s'' = heap s' /\
    logs s'' = (logs s' ++ map (ErrLog (ip (deref s' (sender msg))) "session") errs)%list.
Proof.
  intros E. unfold on_message. rewrite E. simpl.
  eexists. split; [reflexivity|].
  clear E. revert s'. induction errs as [|e errs IH]; intros s'; simpl.
  - by rewrite app_nil_r.
  - destruct (IH (writeErrLog (ip (deref s' (sender msg))) "session" e s'))
      as (H1 & H2 & H3 & H4 & H5).
    repeat (split; [done|]). rewrite H5. simpl. by rewrite <- app_assoc.
Qed.

Lemma existsb_low d :
  existsb (fun v => v <? 32) (bytes d) = true <-> Exists (fun v => v < 32) (bytes d).
Proof.
  rewrite existsb_exists, Exists_exists. split.
  - intros (v & Hin & Hv). exists v. split; [by apply list_elem_of_In|].
    by apply Z.ltb_lt.
  - intros (v & Hin & Hv). exists v. split; [by apply list_elem_of_In|].
    by apply Z.ltb_lt.
Qed.

Lemma well_formed_checks d :
  well_formed d ->
  (4096 <? String.length d)%nat = false /\
  existsb (fun v => v <? 32) (bytes d) = false /\
  Valid d = true.
Proof.
  intros (Hlen & Hlow & Hvalid). split; [by apply Nat.ltb_ge|]. split; [|done].
  destruct (existsb _ (bytes d)) eqn:E; [|done].
  apply existsb_low, Exists_exists in E as (v & Hin & Hv).
  rewrite Forall_forall in Hlow. specialize (Hlow v Hin). lia.
Qed.

(** [run] drops the frame [msg] with the single error [e]: no handler ran,
    the state is [s] with one more log line. *)
Definition refused (msg : SessionMessage) (s : Session) (e : error) : Prop :=
  processMsgs msg s = Ok (s, [e]) /\
  on_message msg s = Ok (writeErrLog (ip (deref s (sender msg))) "session" e s).

(** *** Properties of the dispatcher *)

(** C7. [processMsgs] checks a frame in this order: its size (more than 4096
    bytes is refused), then its bytes (one below 32 is refused), then
    [utf8.Valid].  A frame that fails a check yields that check's error and
    no other, the state is returned as it was whatever the handlers are, so
    no sub-message reached one, and [run] logs the one error. *)
Theorem frame_checks_in_order (msg : SessionMessage) (s : Session) :
  ((4096 < String.length (data msg))%nat -> refused msg s "bad request size") /\
  ((String.length (data msg) <= 4096)%nat ->
   Exists (fun v => v < 32) (bytes (data msg)) ->
   refused msg s "bad byte sequence") /\
  ((String.length (data msg) <= 4096)%nat ->
   Forall (fun v => 32 <= v) (bytes (data msg)) ->
   Valid (data msg) = false ->
   refused msg s "invalid UTF-8").
Proof.
  unfold refused, on_message, processMsgs. split; [|split].
  - intros Hlen. apply Nat.ltb_lt in Hlen. by rewrite Hlen.
  - intros Hlen Hlow. apply Nat.ltb_ge in Hlen. apply existsb_low in Hlow.
    by rewrite Hlen, Hlow.
  - intros Hlen Hlow Hvalid. apply Nat.ltb_ge in Hlen.
    assert (Hno : existsb (fun v => v <? 32) (bytes (data msg)) = false).
    { destruct (existsb _ (bytes (data msg))) eqn:E; [|done].
      apply existsb_low, Exists_exists in E as (v & Hin & Hv).
      rewrite Forall_forall in Hlow. specialize (Hlow v Hin). lia. }
    by rewrite Hlen, Hno, Hvalid.
Qed.

(** What holds of a batch as long as [processMsg] returns.  A frame that
    passes the checks is split on [mdelim] and every
    sub-message goes through [processMsg] in turn.  Whatever one sub-message
    returns, those after it are processed from the state it leaves, and it
    contributes its own error and nothing else.  An unknown command returns
    the sub-message as its error and leaves the state alone; a failing
    handler's error is returned with the state the handler left, the
    dispatcher unregisters nobody; [run] logs each error and changes the log
    only.  When the handler of "pt" fails and the sender's queue is open
    with room, "pt", [delim], "null" is appended to that queue; and
    whenever [processMsg] returns from a failing "pt", that reply is on the
    queue. *)
Theorem sub_messages_dispatched_independently (msg : SessionMessage) (s : Session) :
  well_formed (data msg) ->
  processMsgs msg s = process_each (Split (data msg) mdelim) (sender msg) s [] /\
  (forall p s0 ms1 m ms2 s1 e1 s2 em,
      process_each ms1 p s0 [] = Ok (s1, e1) ->
      processMsg m p s1 = Ok (s2, em) ->
      process_each (ms1 ++ m :: ms2) p s0 [] =
      let* r := process_each ms2 p s2 [] in
      Ok (fst r, e1 ++ option_list em ++ snd r)) /\
  (forall p s0 m,
      hd "" (Split m delim) ∉ commands ->
      processMsg m p s0 = Ok (s0, Some m)) /\
  (forall p s0 m h s1 e,
      handler_of (hd "" (Split m delim)) = Some h ->
      h (Split m delim) p s0 = (s1, Some e) ->
      processMsg m p s0 = Ok (s1, Some e)) /\
  (forall p s0 m s1 e,
      hd "" (Split m delim) = "pt" ->
      handlePt (Split m delim) p s0 = (s1, Some e) ->
      closed (send (deref s1 p)) = false ->
      has_room (send (deref s1 p)) = true ->
      processMsg m p s0 =
      Ok (set_send p (push (send (deref s1 p)) ("pt" ++ delim ++ "null")%string) s1,
          Some e)) /\
  (forall p s0 m s1 e s' em,
      hd "" (Split m delim) = "pt" ->
      handlePt (Split m delim) p s0 = (s1, Some e) ->
      processMsg m p s0 = Ok (s', em) ->
      em = Some e /\
      s' = set_send p (push (send (deref s1 p)) ("pt" ++ delim ++ "null")%string) s1) /\
  (forall s' errs,
      processMsgs msg s = Ok (s', errs) ->
      exists s'',
        on_message msg s = Ok s'' /\
        clients s'' = clients s' /\ ids s'' = ids s' /\
        sessionClients s'' = sessionClients s' /\ heap s'' = heap s' /\
        logs s'' = logs s' ++ map (ErrLog (ip (deref s' (sender msg))) "session") errs).
Proof.
  intros Hwf. destruct (well_formed_checks _ Hwf) as (Hlen & Hlow & Hvalid).
  split; [|split; [|split; [|split; [|split; [|split]]]]].
  - unfold processMsgs. by rewrite Hlen, Hlow, Hvalid.
  - intros p s0 ms1 m ms2 s1 e1 s2 em. apply process_each_middle.
  - intros p s0 m. apply processMsg_unknown.
  - intros p s0 m h s1 e Hh Hfail.
    rewrite (processMsg_handler m p s0 h Hh), Hfail. done.
  - intros p s0 m s1 e Hpt Hfail Hopen Hroom.
    rewrite (processMsg_pt m p s0 Hpt). unfold pt_case, Chan.send.
    rewrite Hfail. simpl. by rewrite Hopen, Hroom.
  - intros p s0 m s1 e s' em Hpt Hfail.
    rewrite (processMsg_pt m p s0 Hpt). unfold pt_case, Chan.send.
    rewrite Hfail. simpl.
    destruct (closed (send (deref s1 p))); [done|].
    destruct (has_room (send (deref s1 p))); [|done].
    simpl. by intros [= <- <-].
  - intros s' errs. apply on_message_logs.
Qed.

End Handlers.

(** *** Concrete handlers and frames *)

Definition accepts : Handler := fun _ _ s => (s, None).

Definition set_name (p : ptr) (n : string) (s : Session) : Session :=
  let c := deref s p in
  {| clients := clients s; ids := ids s; sessionClients := sessionClients s;
     heap := <[p := {| send := send c; ip := ip c; id := id c; online := online c;
                       account := account c; name := n; uuid := uuid c;
                       rank := rank c; badge := badge c; muted := muted c;
                       accessType := accessType c; spriteName := spriteName c;
                       spriteIndex := spriteIndex c; systemName := systemName c |}]>
               (heap s);
     logs := logs s; gameData := gameData s |}.

(** A stand-in for [handleName]: two fields, the second is the new name. *)
Definition renames : Handler := fun fields p s =>
  match fields with
  | [_; n] => (set_name p n s, None)
  | _ => (s, Some "segment count mismatch")
  end.

(** A stand-in for a [handlePt] whose sender is in no party. *)
Definition no_party : Handler := fun _ _ s => (s, Some "player not in a party").

(** A handler that leaves a trace of every call in the log. *)
Definition traced (tag : string) : Handler := fun _ p s =>
  (writeLog (ip (deref s p)) "handler" tag 0 s, None).

Definition demo_frame (d : string) : res Session :=
  on_message "|" ";" accepts renames accepts accepts accepts no_party accepts accepts
    {| sender := 1%positive; data := d |} two_players.

(** A frame with a name update and an unknown command: the name is set and
    logged, the unknown command is logged as an error, the sender stays
    registered. *)
Example name_and_unknown_command :
  exists s',
    demo_frame "name|Madotsuki;fly|1" = Ok s' /\
    name (deref s' 1%positive) = "Madotsuki" /\
    registered s' = registered two_players /\
    skipn 2 (logs s') = [Log "10.0.0.1" "session" "name|Madotsuki" 200;
                         ErrLog "10.0.0.1" "session" "fly|1"].
Proof. eexists. split; [vm_compute; reflexivity|]. repeat split. Qed.

(** A failing "pt" in front of a name update: "pt|null" is queued for the
    sender and the name update still runs. *)
Example pt_fails_then_name :
  exists s',
    demo_frame "pt;name|Urotsuki" = Ok s' /\
    buf (send (deref s' 1%positive)) = ["s|1|a|0|0|null"; "pt|null"] /\
    name (deref s' 1%positive) = "Urotsuki" /\
    registered s' = registered two_players /\
    skipn 2 (logs s') = [Log "10.0.0.1" "session" "name|Urotsuki" 200;
                         ErrLog "10.0.0.1" "session" "player not in a party"].
Proof. eexists. split; [vm_compute; reflexivity|]. repeat split. Qed.

Fixpoint repeat_byte (a : ascii) (n : nat) : string :=
  match n with
  | O => ""
  | S n' => String a (repeat_byte a n')
  end.

Definition frame_of (d : string) : SessionMessage :=
  {| sender := 1%positive; data := d |}.

(** Handlers that trace their calls see nothing of a frame that fails a
    check: the log gets the error line only. *)
Example refused_frame_reaches_no_handler :
  on_message "|" ";" (traced "i") (traced "name") (traced "ploc") (traced "gsay")
    (traced "psay") (traced "pt") (traced "ep") (traced "el")
    (frame_of (String "010" "i;name|x")) two_players
  = Ok (writeErrLog "10.0.0.1" "session" "bad byte sequence" two_players).
Proof. vm_compute. reflexivity. Qed.

Lemma frame_checks_in_order_witness :
  let refused' := refused "|" ";" accepts renames accepts accepts accepts
                    no_party accepts accepts in
  refused' (frame_of (repeat_byte "a" 4097)) two_players "bad request size" /\
  refused' (frame_of (String "010" "name|x")) two_players "bad byte sequence" /\
  refused' (frame_of (String (ascii_of_nat 128) "name|x")) two_players "invalid UTF-8".
Proof.
  simpl. split; [|split].
  - apply (proj1 (frame_checks_in_order "|" ";" accepts renames accepts accepts
                    accepts no_party accepts accepts
                    (frame_of (repeat_byte "a" 4097)) two_players)).
    apply Nat.ltb_lt. vm_compute. reflexivity.
  - apply (proj1 (proj2 (frame_checks_in_order "|" ";" accepts renames accepts
                    accepts accepts no_party accepts accepts
                    (frame_of (String "010" "name|x")) two_players))).
    + apply Nat.leb_le. vm_compute. reflexivity.
    + apply Exists_cons_hd. vm_compute. reflexivity.
  - apply (proj2 (proj2 (frame_checks_in_order "|" ";" accepts renames accepts
                    accepts accepts no_party accepts accepts
                    (frame_of (String (ascii_of_nat 128) "name|x")) two_players))).
    + apply Nat.leb_le. vm_compute. reflexivity.
    + repeat constructor; vm_compute; discriminate.
    + vm_compute. reflexivity.
Defined.

Lemma sub_messages_dispatched_independently_witness :
  exists s1,
    processMsg "|" accepts renames accepts accepts accepts no_party accepts accepts
      "pt" 1%positive two_players = Ok (s1, Some "player not in a party") /\
    buf (send (deref s1 1%positive)) = ["s|1|a|0|0|null"; "pt|null"] /\
    processMsg "|" accepts renames accepts accepts accepts no_party accepts accepts
      "fly|1" 1%positive two_players = Ok (two_players, Some "fly|1").
Proof.
  destruct (sub_messages_dispatched_independently "|" ";" accepts renames accepts
              accepts accepts no_party accepts accepts
              (frame_of "pt;fly|1") two_players)
    as (_ & _ & Hunknown & _ & Hpt & _ & _).
  - split; [apply Nat.leb_le; vm_compute; reflexivity|].
    split; [repeat constructor; vm_compute; discriminate | vm_compute; reflexivity].
  - eexists. split; [|split].
    + apply (Hpt 1%positive two_players "pt" two_players "player not in a party");
        vm_compute; reflexivity.
    + vm_compute. reflexivity.
    + apply Hunknown. vm_compute. intros H.
      repeat (apply elem_of_cons in H as [H|H]; [discriminate|]).
      by apply elem_of_nil in H.
Defined.

(** *** The reply to a failing "pt" on a queue without room *)

Lemma rounds_reachable maxID delim btoa n fast payload : forall s s',
  reachable maxID delim btoa s ->
  rounds n fast payload s = Ok s' ->
  reachable maxID delim btoa s'.
Proof.
  induction n as [|n IH]; intros s s' Hs; simpl.
  - by intros [= <-].
  - destruct (broadcast_in (registered s) payload s) as [s1| |] eqn:E; simpl; try done.
    apply IH. apply reach_drain.
    apply (reach_broadcast maxID delim btoa s (registered s) payload s1);
      [done|unfold range_order; reflexivity|done].
Qed.

(** [two_players] after 255 population broadcasts that client 1 has not read:
    with the greeting its queue holds 256 messages and is full. *)
Definition queue_full : Session :=
  match rounds 255 2%positive "pc|2" two_players with
  | Ok s => s
  | _ => two_players
  end.

(** One broadcast more: client 1 is dropped and its queue is closed. *)
Definition sender_dropped : Session :=
  match broadcast_in (registered queue_full) "pc|2" queue_full with
  | Ok s => s
  | _ => queue_full
  end.

(** [run] takes a frame of client 1 off [processMsgCh] in the state [s]; the
    sender is in no party, so [handlePt] fails. *)
Definition demo_frame_in (s : Session) (d : string) : res Session :=
  on_message "|" ";" accepts renames accepts accepts accepts no_party accepts accepts
    {| sender := 1%positive; data := d |} s.

(** C8. The frame "pt;name|Urotsuki" of client 1 passes the three checks.
    With room on the queue of client 1 the failing "pt" is answered "pt|null"
    and logged, and the name update behind it is applied.  With the queue
    of client 1 full, a state the actor reaches with the client registered
    and the queue open, the plain send of "pt|null" waits: [run] returns
    from neither [processMsgs] nor its own case, the name update is not
    processed and nothing is logged.  With client 1 dropped by a broadcast
    and its frame still to be taken, the same send is on a closed queue and
    panics. *)
Theorem failing_pt_reply_stalls_or_crashes_the_batch :
  well_formed "pt;name|Urotsuki" /\
  (exists s', demo_frame_in two_players "pt;name|Urotsuki" = Ok s' /\
              name (deref s' 1%positive) = "Urotsuki" /\
              last (buf (send (deref s' 1%positive))) = Some "pt|null" /\
              last (logs s') = Some (ErrLog "10.0.0.1" "session" "player not in a party")) /\
  (reachable 3 "|" demo_btoa queue_full /\
   is_registered queue_full 1%positive /\
   closed (send (deref queue_full 1%positive)) = false /\
   has_room (send (deref queue_full 1%positive)) = false /\
   processMsgs "|" ";" accepts renames accepts accepts accepts no_party accepts accepts
     {| sender := 1%positive; data := "pt;name|Urotsuki" |} queue_full = Blocked /\
   demo_frame_in queue_full "pt;name|Urotsuki" = Blocked) /\
  (reachable 3 "|" demo_btoa sender_dropped /\
   ~ is_registered sender_dropped 1%positive /\
   closed (send (deref sender_dropped 1%positive)) = true /\
   demo_frame_in sender_dropped "pt;name|Urotsuki" = Panic).
Proof.
  assert (Hfull : reachable 3 "|" demo_btoa queue_full).
  { apply (rounds_reachable 3 "|" demo_btoa 255 2%positive "pc|2" two_players).
    - apply after_reachable. vm_compute. reflexivity.
    - vm_compute. reflexivity. }
  split; [|split; [|split]].
  - split; [apply Nat.leb_le; vm_compute; reflexivity|].
    split; [repeat constructor; vm_compute; discriminate | vm_compute; reflexivity].
  - eexists. split; [vm_compute; reflexivity|]. repeat split.
  - split; [exact Hfull|]. split; [exists true; vm_compute; reflexivity|].
    repeat split; vm_compute; reflexivity.
  - split.
    { apply (reach_broadcast 3 "|" demo_btoa queue_full (registered queue_full) "pc|2").
      - exact Hfull.
      - unfold range_order. reflexivity.
      - vm_compute. reflexivity. }
    split.
    { intros [b Hb]. vm_compute in Hb. discriminate. }
    split; vm_compute; reflexivity.
Qed.

End Dispatch.

(** ** The party tables and queries of [src/database.go] *)

Module PartyDb.

(** The value or the error a query returns. *)
Inductive result (A : Type) : Type :=
| Val (a : A)
| Err (e : string).
Arguments Val {A} a.
Arguments Err {A} e.

(** A row of [parties]; [owner] is [None] when the column is NULL. *)
Record PartyRow : Type := {
  p_id : Z;
  p_game : string;
  p_owner : option string;
  p_name : string;
  p_public : bool;
  p_pass : string;
  p_theme : string;
  p_description : string
}.

(** A row of [partyMembers]; [pm_id] is the auto-increment key, so it grows
    with the order of joining. *)
Record MemberRow : Type := {
  pm_id : Z;
  pm_partyId : Z;
  pm_uuid : string
}.

(** The columns of [players] the party queries read. *)
Record PlayerRow : Type := {
  pd_uuid : string;
  pd_rank : Z
}.

Record Db : Type := {
  parties : list PartyRow;
  partyMembers : list MemberRow;
  players : list PlayerRow;
  next_party_id : Z;
  next_member_id : Z
}.

Definition with_parties (ps : list PartyRow) (db : Db) : Db :=
  {| parties := ps; partyMembers := partyMembers db; players := players db;
     next_party_id := next_party_id db; next_member_id := next_member_id db |}.

Definition with_members (ms : list MemberRow) (db : Db) : Db :=
  {| parties := parties db; partyMembers := ms; players := players db;
     next_party_id := next_party_id db; next_member_id := next_member_id db |}.

Definition set_owner (o : option string) (p : PartyRow) : PartyRow :=
  {| p_id := p_id p; p_game := p_game p; p_owner := o; p_name := p_name p;
     p_public := p_public p; p_pass := p_pass p; p_theme := p_theme p;
     p_description := p_description p |}.

Definition no_rows : string := "sql: no rows in result set".
Definition null_scan : string := "sql: Scan error: converting NULL to string is unsupported".

(** [SELECT ... FROM parties WHERE id = ?], first row. *)
Definition party_by_id (partyId : Z) (db : Db) : option PartyRow :=
  List.find (fun p => bool_decide (p_id p = partyId)) (parties db).

Section Queries.

(** [config.gameName], and whether a uuid is a key of [hubClients]. *)
Variable gameName : string.
Variable online : string -> bool.

(** The member row [pm] belongs to a party of this game
    ([JOIN parties p ON p.id = pm.partyId ... AND p.game = ?]). *)
Definition in_this_game (db : Db) (pm : MemberRow) : bool :=
  existsb (fun p => bool_decide (p_id p = pm_partyId pm) && bool_decide (p_game p = gameName))
          (parties db).

(** [readPlayerPartyId]: [0] when the player is in no party of this game. *)
Definition readPlayerPartyId (uuid : string) (db : Db) : Z :=
  match List.find (fun pm => bool_decide (pm_uuid pm = uuid) && in_this_game db pm)
                  (partyMembers db) with
  | Some pm => pm_partyId pm
  | None => 0
  end.

(** [readPartyOwnerUuid]. *)
Definition readPartyOwnerUuid (partyId : Z) (db : Db) : result string :=
  match party_by_id partyId db with
  | Some p => match p_owner p with Some o => Val o | None => Err null_scan end
  | None => Err no_rows
  end.

(** [readPartyDescription]. *)
Definition readPartyDescription (partyId : Z) (db : Db) : result string :=
  match party_by_id partyId db with
  | Some p => Val (p_description p)
  | None => Err no_rows
  end.

(** [readPartyPublic]. *)
Definition readPartyPublic (partyId : Z) (db : Db) : result bool :=
  match party_by_id partyId db with
  | Some p => Val (p_public p)
  | None => Err no_rows
  end.

(** [readPartyPass]. *)
Definition readPartyPass (partyId : Z) (db : Db) : result string :=
  match party_by_id partyId db with
  | Some p => Val (p_pass p)
  | None => Err no_rows
  end.

(** [createPartyData]: the new row gets the next auto-increment id. *)
Definition createPartyData (name : string) (public : bool) (pass theme description : string)
           (playerUuid : string) (db : Db) : Z * Db :=
  let i := next_party_id db in
  (i, {| parties := parties db ++
           [{| p_id := i; p_game := gameName; p_owner := Some playerUuid;
               p_name := name; p_public := public; p_pass := pass;
               p_theme := theme; p_description := description |}];
         partyMembers := partyMembers db; players := players db;
         next_party_id := i + 1; next_member_id := next_member_id db |}).

(** [updatePartyData]. *)
Definition updatePartyData (partyId : Z) (name : string) (public : bool)
           (pass theme description : string) (playerUuid : string) (db : Db) : Db :=
  with_parties
    (map (fun p => if bool_decide (p_id p = partyId) then
                     {| p_id := p_id p; p_game := gameName; p_owner := Some playerUuid;
                        p_name := name; p_public := public; p_pass := pass;
                        p_theme := theme; p_description := description |}
                   else p) (parties db)) db.

(** [createPlayerParty]. *)
Definition createPlayerParty (partyId : Z) (playerUuid : string) (db : Db) : Db :=
  {| parties := parties db;
     partyMembers := partyMembers db ++
       [{| pm_id := next_member_id db; pm_partyId := partyId; pm_uuid := playerUuid |}];
     players := players db;
     next_party_id := next_party_id db;
     next_member_id := next_member_id db + 1 |}.

(** [clearPlayerParty]: the player's member rows in parties of this game
    go. *)
Definition clearPlayerParty (playerUuid : string) (db : Db) : Db :=
  with_members
    (List.filter (fun pm => negb (bool_decide (pm_uuid pm = playerUuid) && in_this_game db pm))
                 (partyMembers db)) db.

(** A row of [partyMembers pm JOIN players pd ON pd.uuid = pm.uuid]. *)
Record Listed : Type := {
  l_rank : Z;
  l_pm_id : Z;
  l_uuid : string
}.

(** The join, for the members of one party. *)
Definition listed (partyId : Z) (db : Db) : list Listed :=
  flat_map (fun pm =>
    if bool_decide (pm_partyId pm = partyId) then
      map (fun pd => {| l_rank := pd_rank pd; l_pm_id := pm_id pm; l_uuid := pm_uuid pm |})
          (List.filter (fun pd => bool_decide (pd_uuid pd = pm_uuid pm)) (players db))
    else []) (partyMembers db).

(** [ORDER BY pd.rank DESC, pm.id]. *)
Definition listed_before (a b : Listed) : Prop :=
  l_rank b < l_rank a \/ (l_rank a = l_rank b /\ l_pm_id a <= l_pm_id b).

#[export] Instance listed_before_dec : RelDecision listed_before.
Proof. intros a b. unfold listed_before. apply _. Defined.

(** [readPartyMemberUuids]. *)
Definition readPartyMemberUuids (partyId : Z) (db : Db) : list string :=
  map l_uuid (merge_sort listed_before (listed partyId db)).

(** [readPartyMemberCount]. *)
Definition readPartyMemberCount (partyId : Z) (db : Db) : Z :=
  Z.of_nat (length (List.filter (fun pm => bool_decide (pm_partyId pm = partyId))
                                (partyMembers db))).

(** [setPartyOwner]. *)
Definition setPartyOwner (partyId : Z) (playerUuid : string) (db : Db) : Db :=
  with_parties
    (map (fun p => if bool_decide (p_id p = partyId) then set_owner (Some playerUuid) p else p)
         (parties db)) db.

(** The [UPDATE] of [assumeNextPartyOwner]: the owner becomes the first row
    of the ordered join, NULL when the join is empty. *)
Definition setPartyOwnerToFirstListed (partyId : Z) (db : Db) : Db :=
  with_parties
    (map (fun p => if bool_decide (p_id p = partyId) then
                     set_owner (head (readPartyMemberUuids (p_id p) db)) p
                   else p)
         (parties db)) db.

(** [assumeNextPartyOwner]. *)
Definition assumeNextPartyOwner (partyId : Z) (db : Db) : Db :=
  let partyMemberUuids := readPartyMemberUuids partyId db in
  let nextOnlinePlayerUuid := default "" (List.find online partyMemberUuids) in
  if negb (bool_decide (nextOnlinePlayerUuid = "")) then
    setPartyOwner partyId nextOnlinePlayerUuid db
  else
    setPartyOwnerToFirstListed partyId db.

(** [checkDeleteOrphanedParty]. *)
Definition checkDeleteOrphanedParty (partyId : Z) (db : Db) : bool * Db :=
  if readPartyMemberCount partyId db =? 0 then
    (true, with_parties
             (List.filter (fun p => negb (bool_decide (p_id p = partyId))) (parties db)) db)
  else (false, db).

(** [deletePartyAndMembers]. *)
Definition deletePartyAndMembers (partyId : Z) (db : Db) : Db :=
  let db1 :=
    with_members
      (List.filter (fun pm => negb (bool_decide (pm_partyId pm = partyId))) (partyMembers db))
      db in
  with_parties
    (List.filter (fun p => negb (bool_decide (p_id p = partyId))) (parties db1)) db1.

(** *** Facts about the queries *)

#[export] Instance listed_before_total : Total listed_before.
Proof. intros a b. unfold listed_before. lia. Qed.

#[export] Instance listed_before_trans : Transitive listed_before.
Proof. intros a b c. unfold listed_before. lia. Qed.

Lemma listed_before_refl a : listed_before a a.
Proof. unfold listed_before. lia. Qed.

(** The first element of a sorted list that passes a test comes before every
    other element that passes it. *)
Lemma find_sorted (f : string -> bool) (l : list Listed) :
  StronglySorted listed_before l ->
  match List.find f (map l_uuid l) with
  | Some u =>
      exists c, c ∈ l /\ l_uuid c = u /\ f u = true /\
                forall c', c' ∈ l -> f (l_uuid c') = true -> listed_before c c'
  | None => forall c, c ∈ l -> f (l_uuid c) = false
  end.
Proof.
  induction 1 as [|x l Hsorted IH Hall]; simpl.
  - intros c Hc. by apply elem_of_nil in Hc.
  - destruct (f (l_uuid x)) eqn:Hx.
    + exists x. split; [by left|]. split; [done|]. split; [done|].
      intros c' Hc' _. apply elem_of_cons in Hc' as [->|Hc'].
      * apply listed_before_refl.
      * rewrite Forall_forall in Hall. by apply Hall.
    + destruct (List.find f (map l_uuid l)) as [u|].
      * destruct IH as (c & Hc & Hu & Hfu & Hfirst).
        exists c. split; [by right|]. split; [done|]. split; [done|].
        intros c' Hc' Hf. apply elem_of_cons in Hc' as [->|Hc']; [congruence|].
        by apply Hfirst.
      * intros c Hc. apply elem_of_cons in Hc as [->|Hc]; [done|]. by apply IH.
Qed.

Lemma head_sorted (l : list Listed) :
  StronglySorted listed_before l ->
  match head (map l_uuid l) with
  | Some u => exists c, c ∈ l /\ l_uuid c = u /\ forall c', c' ∈ l -> listed_before c c'
  | None => l = []
  end.
Proof.
  destruct 1 as [|x l Hsorted Hall]; simpl; [done|].
  exists x. split; [by left|]. split; [done|].
  intros c' Hc'. apply elem_of_cons in Hc' as [->|Hc'].
  - apply listed_before_refl.
  - rewrite Forall_forall in Hall. by apply Hall.
Qed.

Lemma sorted_listed partyId db :
  StronglySorted listed_before (merge_sort listed_before (listed partyId db)).
Proof. apply StronglySorted_merge_sort; apply _. Qed.

Lemma elem_of_sorted_listed partyId db c :
  c ∈ merge_sort listed_before (listed partyId db) <-> c ∈ listed partyId db.
Proof. by rewrite merge_sort_Permutation. Qed.

(** An [UPDATE parties SET ... WHERE id = ?] that keeps the ids, seen by the
    next [SELECT ... WHERE id = ?]. *)
Lemma party_by_id_update (g : PartyRow -> PartyRow) partyId db :
  (forall p, p_id (g p) = p_id p) ->
  party_by_id partyId
    (with_parties (map (fun p => if bool_decide (p_id p = partyId) then g p else p)
                       (parties db)) db)
  = g <$> party_by_id partyId db.
Proof.
  intros Hg. unfold party_by_id. simpl.
  induction (parties db) as [|p ps IH]; simpl; [done|].
  destruct (bool_decide (p_id p = partyId)) eqn:E.
  - rewrite Hg, E. done.
  - rewrite E. exact IH.
Qed.

Lemma party_by_id_id partyId db p :
  party_by_id partyId db = Some p -> p_id p = partyId.
Proof.
  unfold party_by_id. intros H. apply find_some in H as [_ H].
  by apply bool_decide_eq_true in H.
Qed.

Lemma owner_after_setPartyOwner partyId u db p :
  party_by_id partyId db = Some p ->
  readPartyOwnerUuid partyId (setPartyOwner partyId u db) = Val u.
Proof.
  intros Hp. unfold readPartyOwnerUuid, setPartyOwner.
  rewrite (party_by_id_update (set_owner (Some u))) by done.
  by rewrite Hp.
Qed.

Lemma owner_after_first_listed partyId db p u :
  party_by_id partyId db = Some p ->
  head (readPartyMemberUuids partyId db) = Some u ->
  readPartyOwnerUuid partyId (setPartyOwnerToFirstListed partyId db) = Val u.
Proof.
  intros Hp Hu. unfold readPartyOwnerUuid, setPartyOwnerToFirstListed.
  rewrite (party_by_id_update
             (fun p => set_owner (head (readPartyMemberUuids (p_id p) db)) p)) by done.
  rewrite Hp. simpl. rewrite (party_by_id_id partyId db p Hp), Hu. done.
Qed.

Lemma party_by_id_deleted partyId db :
  party_by_id partyId
    (with_parties (List.filter (fun p => negb (bool_decide (p_id p = partyId)))
                               (parties db)) db) = None.
Proof.
  unfold party_by_id. simpl.
  induction (parties db) as [|p ps IH]; simpl; [done|].
  destruct (bool_decide (p_id p = partyId)) eqn:E; simpl; [done|].
  by rewrite E.
Qed.

(** A party with a member row whose player is known has a listed member. *)
Lemma listed_nonempty partyId db :
  (forall pm, pm ∈ partyMembers db ->
              exists pd, pd ∈ players db /\ pd_uuid pd = pm_uuid pm) ->
  readPartyMemberCount partyId db <> 0 ->
  listed partyId db <> [].
Proof.
  intros Hknown Hcount. unfold readPartyMemberCount in Hcount.
  destruct (List.filter _ (partyMembers db)) as [|pm rest] eqn:E; [done|].
  assert (Hin : In pm (List.filter (fun pm => bool_decide (pm_partyId pm = partyId))
                                   (partyMembers db))) by (rewrite E; by left).
  apply filter_In in Hin as [Hin Hid].
  destruct (Hknown pm) as (pd & Hpd & Hu); [by apply list_elem_of_In|].
  intros Hnil.
  assert (Hl : In {| l_rank := pd_rank pd; l_pm_id := pm_id pm; l_uuid := pm_uuid pm |}
                  (listed partyId db)).
  { unfold listed. apply in_flat_map. exists pm. split; [done|].
    rewrite Hid. apply in_map_iff. exists pd. split; [done|].
    apply filter_In. split; [by apply list_elem_of_In|].
    by apply bool_decide_eq_true. }
  rewrite Hnil in Hl. done.
Qed.

(** The listed rows of a party are rows of its members. *)
Lemma listed_member partyId db c :
  c ∈ listed partyId db ->
  exists pm, pm ∈ partyMembers db /\ pm_partyId pm = partyId /\
             pm_uuid pm = l_uuid c /\ pm_id pm = l_pm_id c.
Proof.
  intros Hc. apply list_elem_of_In in Hc. unfold listed in Hc.
  apply in_flat_map in Hc as (pm & Hpm & Hc).
  destruct (bool_decide (pm_partyId pm = partyId)) eqn:E; [|done].
  apply in_map_iff in Hc as (pd & <- & _).
  exists pm. split; [by apply list_elem_of_In|].
  split; [by apply bool_decide_eq_true in E|]. done.
Qed.

End Queries.

End PartyDb.

(** ** The party endpoint of [src/unnamed/part_000] *)

Module PartyApi.

Import PartyDb.

(** The [http.ResponseWriter]: the first [WriteHeader] fixes the status, a
    [Write] without one means 200. *)
Record Writer : Type := {
  status : option Z;
  body : string
}.

Definition WriteHeader (code : Z) (w : Writer) : Writer :=
  match status w with
  | Some _ => w
  | None => {| status := Some code; body := body w |}
  end.

Definition Write (b : string) (w : Writer) : Writer :=
  {| status := Some (default 200 (status w)); body := (body w ++ b)%string |}.

(** The response so far and the lines [writeErrLog] got. *)
Definition Reply : Type := Writer * list string.

Definition fresh_reply : Reply := ({| status := None; body := "" |}, []).

(** [handleError]. *)
Definition handleError (payload : string) (r : Reply) : Reply :=
  (Write payload (WriteHeader 400 (fst r)), snd r ++ [payload]).

(** [handleInternalError]. *)
Definition handleInternalError (err : string) (r : Reply) : Reply :=
  (Write "400 - Bad Request" (WriteHeader 400 (fst r)), snd r ++ [err]).

Definition unauthorized (r : Reply) : Reply :=
  (Write "401 - Unauthorized" (WriteHeader 401 (fst r)), snd r).

(** The closing [w.Write([]byte("ok"))]. *)
Definition ok (r : Reply) : Reply := (Write "ok" (fst r), snd r).

Definition write (b : string) (r : Reply) : Reply := (Write b (fst r), snd r).

(** A request: the identity the first lines of [handleParty] resolve from the
    Authorization header or the address, and the query of the URL. *)
Record Request : Type := {
  r_uuid : string;
  r_rank : Z;
  r_banned : bool;
  query : gmap string (list string)
}.

(** [v, ok := r.URL.Query()[key]; if !ok || len(v) < 1] fails, else [v[0]]. *)
Definition param (key : string) (req : Request) : option string :=
  match query req !! key with
  | Some (v :: _) => Some v
  | _ => None
  end.

Fixpoint digits (s : string) (acc : Z) : option Z :=
  match s with
  | EmptyString => Some acc
  | String a rest =>
      let v := Z.of_N (N_of_ascii a) - 48 in
      if (0 <=? v) && (v <=? 9) then digits rest (10 * acc + v) else None
  end.

(** [strconv.Atoi]: an optional sign and decimal digits, within 64 bits. *)
Definition atoi (s : string) : option Z :=
  let '(neg, ds) :=
    match s with
    | String "+" r => (false, r)
    | String "-" r => (true, r)
    | _ => (false, s)
    end in
  if bool_decide (ds = "") then None
  else match digits ds 0 with
       | Some n =>
           let v := if neg : bool then - n else n in
           if (- 2 ^ 63 <=? v) && (v <? 2 ^ 63) then Some v else None
       | None => None
       end.

Definition itoa (n : Z) : string := pretty n.

Section Endpoint.

Variable gameName : string.
Variable online : string -> bool.
(** [gameAssets.IsValidSystem(theme, true)] and the JSON of the party list
    are computed outside the sources at hand. *)
Variable isValidSystem : string -> bool.
Variable partyListJson : Db -> result string.

(** [handlePartyMemberLeave]. *)
Definition handlePartyMemberLeave (partyId : Z) (playerUuid : string) (db : Db)
  : result Db :=
  match readPartyOwnerUuid partyId db with
  | Err e => Err e
  | Val ownerUuid =>
      let db1 := clearPlayerParty gameName playerUuid db in
      let '(deleted, db2) := checkDeleteOrphanedParty partyId db1 in
      if negb deleted && bool_decide (playerUuid = ownerUuid) then
        Val (assumeNextPartyOwner online partyId db2)
      else Val db2
  end.

(** The cases ["create"] and ["update"]. *)
Definition create_update_case (create : bool) (req : Request) (db : Db) : Reply * Db :=
  let r := fresh_reply in
  let uuid := r_uuid req in
  let partyId := readPlayerPartyId gameName uuid db in
  let early : option Reply :=
    if create then
      if 0 <? partyId then Some (handleError "player already in a party" r) else None
    else
      if partyId =? 0 then Some (handleError "player not in a party" r)
      else match readPartyOwnerUuid partyId db with
           | Err e => Some (handleInternalError e r)
           | Val ownerUuid =>
               if negb (bool_decide (ownerUuid = uuid)) then
                 Some (handleError "attempted party update from non-owner" r)
               else None
           end in
  match early with
  | Some out => (out, db)
  | None =>
      match param "name" req with
      | None => (handleError "name not specified" r, db)
      | Some name =>
          if (255 <? String.length name)%nat then (handleError "name too long" r, db)
          else
            let description := default "" (param "description" req) in
            let public := bool_decide (is_Some (param "public" req)) in
            let pass_or_err : option string :=
              if negb public then
                match param "pass" req with
                | Some pass => if (255 <? String.length pass)%nat then None else Some pass
                | None => Some ""
                end
              else Some "" in
            match pass_or_err with
            | None => (handleError "pass too long" r, db)
            | Some pass =>
                match param "theme" req with
                | None => (handleError "theme not specified" r, db)
                | Some theme =>
                    if negb (isValidSystem theme) then
                      (handleError "invalid system name for theme" r, db)
                    else if create then
                      let '(newId, db1) :=
                        createPartyData gameName name public pass theme description uuid db in
                      (write (itoa newId) r, createPlayerParty newId uuid db1)
                    else
                      (ok r, updatePartyData gameName partyId name public pass theme
                               description uuid db)
                end
            end
      end
  end.

(** The block [if rank == 0 { ... }] of the case ["join"]: [inl] is a reply
    that ends the request, [inr] lets it go on. *)
Definition join_check (partyId : Z) (req : Request) (db : Db) (r : Reply)
  : Reply + Reply :=
  if r_rank req =? 0 then
    match readPartyPublic partyId db with
    | Err e => inl (handleInternalError e r)
    | Val public =>
        if negb public then
          match param "pass" req with
          | None => inl (handleError "pass not specified" r)
          | Some pass =>
              let '(partyPass, r1) :=
                match readPartyPass partyId db with
                | Err e => ("", handleInternalError e r)
                | Val p => (p, r)
                end in
              if negb (bool_decide (partyPass = "")) && negb (bool_decide (pass = partyPass))
              then inl (unauthorized r1)
              else inr r1
          end
        else inr r
    end
  else inr r.

(** The case ["join"]. *)
Definition join_case (req : Request) (db : Db) : Reply * Db :=
  let r := fresh_reply in
  match param "partyId" req with
  | None => (handleError "partyId not specified" r, db)
  | Some partyIdParam =>
      match atoi partyIdParam with
      | None => (handleError "invalid partyId value" r, db)
      | Some partyId =>
          match join_check partyId req db r with
          | inl out => (out, db)
          | inr r1 =>
              let playerPartyId := readPlayerPartyId gameName (r_uuid req) db in
              if 0 <? playerPartyId then
                (handleError "player already in a party" r1, db)
              else (ok r1, createPlayerParty partyId (r_uuid req) db)
          end
      end
  end.

(** The case ["leave"]. *)
Definition leave_case (req : Request) (db : Db) : Reply * Db :=
  let r := fresh_reply in
  let partyId := readPlayerPartyId gameName (r_uuid req) db in
  if partyId =? 0 then (handleError "player not in a party" r, db)
  else match handlePartyMemberLeave partyId (r_uuid req) db with
       | Err e => (handleInternalError e r, db)
       | Val db' => (ok r, db')
       end.

(** The cases ["kick"] and ["transfer"]. *)
Definition kick_transfer_case (kick : bool) (req : Request) (db : Db) : Reply * Db :=
  let r := fresh_reply in
  let uuid := r_uuid req in
  let partyId := readPlayerPartyId gameName uuid db in
  if partyId =? 0 then (handleError "player not in a party" r, db)
  else match readPartyOwnerUuid partyId db with
       | Err e => (handleInternalError e r, db)
       | Val ownerUuid =>
           if negb (bool_decide (ownerUuid = uuid)) then
             (handleError (if kick then "attempted party kick non-owner"
                           else "attempted owner transfer from non-owner") r, db)
           else match param "player" req with
                | None => (handleError "player not specified" r, db)
                | Some playerUuid =>
                    let playerPartyId := readPlayerPartyId gameName playerUuid db in
                    if negb (playerPartyId =? partyId) then
                      (handleError
                         (if kick then "specified player to kick not in same party"
                          else "specified player to transfer owner not in same party") r, db)
                    else if kick then (ok r, clearPlayerParty gameName playerUuid db)
                    else (ok r, setPartyOwner partyId playerUuid db)
                end
       end.

(** The case ["disband"]. *)
Definition disband_case (req : Request) (db : Db) : Reply * Db :=
  let r := fresh_reply in
  let partyId := readPlayerPartyId gameName (r_uuid req) db in
  match readPartyOwnerUuid partyId db with
  | Err e => (handleInternalError e r, db)
  | Val ownerUuid =>
      if negb (bool_decide (ownerUuid = r_uuid req)) then
        (handleError "attempted party disband from non-owner" r, db)
      else (ok r, deletePartyAndMembers partyId db)
  end.

(** [handleParty]. *)
Definition handleParty (req : Request) (db : Db) : Reply * Db :=
  let r := fresh_reply in
  if r_banned req then (handleError "player is banned" r, db)
  else match param "command" req with
  | None => (handleError "command not specified" r, db)
  | Some command =>
      if decide (command = "id") then
        (write (itoa (readPlayerPartyId gameName (r_uuid req) db)) r, db)
      else if decide (command = "list") then
        match partyListJson db with
        | Err e => (handleInternalError e r, db)
        | Val json => (write json r, db)
        end
      else if decide (command = "description") then
        match param "partyId" req with
        | None => (handleError "partyId not specified" r, db)
        | Some partyIdParam =>
            match atoi partyIdParam with
            | None => (handleError "invalid partyId value" r, db)
            | Some partyId =>
                match readPartyDescription partyId db with
                | Err e => (handleInternalError e r, db)
                | Val description => (write description r, db)
                end
            end
        end
      else if decide (command = "create") then create_update_case true req db
      else if decide (command = "update") then create_update_case false req db
      else if decide (command = "join") then join_case req db
      else if decide (command = "leave") then leave_case req db
      else if decide (command = "kick") then kick_transfer_case true req db
      else if decide (command = "transfer") then kick_transfer_case false req db
      else if decide (command = "disband") then disband_case req db
      else (handleError "unknown command" r, db)
  end.

(** *** Leaving a party *)

Lemma owner_party partyId db owner :
  readPartyOwnerUuid partyId db = Val owner ->
  exists p, party_by_id partyId db = Some p.
Proof.
  unfold readPartyOwnerUuid. destruct (party_by_id partyId db) as [p|]; [|done].
  intros _. by exists p.
Qed.

(** What [assumeNextPartyOwner] makes of a party that has listed members. *)
Lemma assumeNextPartyOwner_spec partyId db p :
  party_by_id partyId db = Some p ->
  online "" = false ->
  listed partyId db <> [] ->
  exists c,
    c ∈ listed partyId db /\
    readPartyOwnerUuid partyId (assumeNextPartyOwner online partyId db) = Val (l_uuid c) /\
    partyMembers (assumeNextPartyOwner online partyId db) = partyMembers db /\
    ((exists c', c' ∈ listed partyId db /\ online (l_uuid c') = true) ->
     online (l_uuid c) = true /\
     forall c', c' ∈ listed partyId db -> online (l_uuid c') = true ->
                listed_before c c') /\
    ((forall c', c' ∈ listed partyId db -> online (l_uuid c') = false) ->
     forall c', c' ∈ listed partyId db -> listed_before c c').
Proof.
  intros Hp Hempty Hrows.
  unfold assumeNextPartyOwner, readPartyMemberUuids.
  pose proof (find_sorted online _ (sorted_listed partyId db)) as Hfind.
  pose proof (head_sorted _ (sorted_listed partyId db)) as Hhead.
  destruct (List.find online (map l_uuid (merge_sort listed_before (listed partyId db))))
    as [u|] eqn:E; simpl.
  - destruct Hfind as (c & Hc & Hu & Hon & Hfirst).
    assert (Hne : bool_decide (u = "") = false).
    { apply bool_decide_eq_false. intros ->. congruence. }
    rewrite Hne. simpl.
    exists c. split; [by apply elem_of_sorted_listed|].
    split; [rewrite Hu; by apply (owner_after_setPartyOwner partyId u db p)|].
    split; [done|]. split.
    + intros _. split; [by rewrite Hu|].
      intros c' Hc' Hon'. apply Hfirst; [by apply elem_of_sorted_listed|done].
    + intros Hoff. apply elem_of_sorted_listed in Hc. apply Hoff in Hc. congruence.
  - destruct (head (map l_uuid (merge_sort listed_before (listed partyId db))))
      as [u|] eqn:Eh.
    + destruct Hhead as (c & Hc & Hu & Hfirst).
      exists c. split; [by apply elem_of_sorted_listed|].
      split.
      { rewrite Hu. apply (owner_after_first_listed partyId db p u Hp).
        unfold readPartyMemberUuids. exact Eh. }
      split; [done|]. split.
      * intros (c' & Hc' & Hon'). apply elem_of_sorted_listed in Hc'.
        apply Hfind in Hc'. congruence.
      * intros _ c' Hc'. apply Hfirst. by apply elem_of_sorted_listed.
    + exfalso. apply Hrows.
      apply Permutation_nil_r. rewrite <- Hhead. symmetry.
      apply merge_sort_Permutation.
Qed.

(** C4. A leave from a party whose owner can be read, every member being
    a known player and no online client having the empty uuid.  When no
    member row of the party is left, the party row is deleted and nothing
    else happens to the tables.  Otherwise the member rows stay as the
    delete left them; a leaver who was not the owner changes nothing more,
    and for a leaver who was the owner the new owner is a listed member
    that, when some listed member is online, is online and comes before every
    online member in the order rank descending, then member id ascending, and
    when none is online comes before every member in that order. *)
Theorem leave_deletes_or_reassigns partyId uuid owner db :
  readPartyOwnerUuid partyId db = Val owner ->
  online "" = false ->
  (forall pm, pm ∈ partyMembers db ->
              exists pd, pd ∈ players db /\ pd_uuid pd = pm_uuid pm) ->
  exists db',
    handlePartyMemberLeave partyId uuid db = Val db' /\
    partyMembers db' = partyMembers (clearPlayerParty gameName uuid db) /\
    (readPartyMemberCount partyId (clearPlayerParty gameName uuid db) = 0 ->
     party_by_id partyId db' = None /\
     parties db' =
       List.filter (fun p => negb (bool_decide (p_id p = partyId))) (parties db)) /\
    (readPartyMemberCount partyId (clearPlayerParty gameName uuid db) <> 0 ->
     (uuid <> owner -> db' = clearPlayerParty gameName uuid db) /\
     (uuid = owner ->
      exists c,
        c ∈ listed partyId (clearPlayerParty gameName uuid db) /\
        readPartyOwnerUuid partyId db' = Val (l_uuid c) /\
        ((exists c', c' ∈ listed partyId (clearPlayerParty gameName uuid db) /\
                     online (l_uuid c') = true) ->
         online (l_uuid c) = true /\
         forall c', c' ∈ listed partyId (clearPlayerParty gameName uuid db) ->
                    online (l_uuid c') = true -> listed_before c c') /\
        ((forall c', c' ∈ listed partyId (clearPlayerParty gameName uuid db) ->
                     online (l_uuid c') = false) ->
         forall c', c' ∈ listed partyId (clearPlayerParty gameName uuid db) ->
                    listed_before c c'))).
Proof.
  intros Howner Hempty Hknown.
  destruct (owner_party partyId db owner Howner) as [p Hp].
  set (db1 := clearPlayerParty gameName uuid db).
  assert (Hp1 : party_by_id partyId db1 = Some p) by exact Hp.
  assert (Hknown1 : forall pm, pm ∈ partyMembers db1 ->
                               exists pd, pd ∈ players db1 /\ pd_uuid pd = pm_uuid pm).
  { intros pm Hpm. apply Hknown. apply list_elem_of_In in Hpm.
    unfold db1, clearPlayerParty in Hpm. simpl in Hpm.
    apply filter_In in Hpm as [Hpm _]. by apply list_elem_of_In. }
  unfold handlePartyMemberLeave. rewrite Howner. fold db1.
  unfold checkDeleteOrphanedParty.
  destruct (readPartyMemberCount partyId db1 =? 0) eqn:Ecount.
  - apply Z.eqb_eq in Ecount. simpl.
    eexists. split; [reflexivity|]. split; [done|]. split; [|done].
    intros _. split; [apply (party_by_id_deleted partyId db1) | done].
  - apply Z.eqb_neq in Ecount. simpl.
    destruct (bool_decide (uuid = owner)) eqn:Eown.
    + apply bool_decide_eq_true in Eown.
      destruct (assumeNextPartyOwner_spec partyId db1 p Hp1 Hempty)
        as (c & Hc & Hnew & Hmem & Hon & Hoff).
      { by apply listed_nonempty. }
      eexists. split; [reflexivity|]. split; [done|]. split; [done|].
      intros _. split; [done|]. intros _. by exists c.
    + apply bool_decide_eq_false in Eown.
      eexists. split; [reflexivity|]. split; [done|]. split; [done|].
      intros _. split; [done|]. done.
Qed.

(** *** Joining and kicking *)

Lemma handleParty_join req db partyIdParam :
  r_banned req = false ->
  param "command" req = Some "join" ->
  param "partyId" req = Some partyIdParam ->
  handleParty req db =
  match atoi partyIdParam with
  | None => (handleError "invalid partyId value" fresh_reply, db)
  | Some partyId =>
      match join_check partyId req db fresh_reply with
      | inl out => (out, db)
      | inr r1 =>
          if 0 <? readPlayerPartyId gameName (r_uuid req) db then
            (handleError "player already in a party" r1, db)
          else (ok r1, createPlayerParty partyId (r_uuid req) db)
      end
  end.
Proof.
  intros Hb Hcmd Hid. unfold handleParty. rewrite Hb, Hcmd. simpl.
  unfold join_case. by rewrite Hid.
Qed.

Lemma handleParty_kick req db :
  r_banned req = false ->
  param "command" req = Some "kick" ->
  handleParty req db = kick_transfer_case true req db.
Proof.
  intros Hb Hcmd. unfold handleParty. by rewrite Hb, Hcmd.
Qed.

(** A kick asked by somebody who is not the owner of their party is refused
    and changes nothing. *)
Lemma kick_by_non_owner_refused req db owner :
  r_banned req = false ->
  param "command" req = Some "kick" ->
  readPlayerPartyId gameName (r_uuid req) db <> 0 ->
  readPartyOwnerUuid (readPlayerPartyId gameName (r_uuid req) db) db = Val owner ->
  owner <> r_uuid req ->
  handleParty req db = (handleError "attempted party kick non-owner" fresh_reply, db).
Proof.
  intros Hb Hcmd Hin Howner Hne.
  rewrite handleParty_kick by done. unfold kick_transfer_case.
  apply Z.eqb_neq in Hin. rewrite Hin, Howner.
  by rewrite bool_decide_eq_false_2.
Qed.

(** A kick by the owner of somebody outside the party is refused and changes
    nothing. *)
Lemma kick_of_outsider_refused req db target :
  r_banned req = false ->
  param "command" req = Some "kick" ->
  readPlayerPartyId gameName (r_uuid req) db <> 0 ->
  readPartyOwnerUuid (readPlayerPartyId gameName (r_uuid req) db) db = Val (r_uuid req) ->
  param "player" req = Some target ->
  readPlayerPartyId gameName target db <> readPlayerPartyId gameName (r_uuid req) db ->
  handleParty req db =
  (handleError "specified player to kick not in same party" fresh_reply, db).
Proof.
  intros Hb Hcmd Hin Howner Htarget Hout.
  rewrite handleParty_kick by done. unfold kick_transfer_case.
  apply Z.eqb_neq in Hin. rewrite Hin, Howner.
  rewrite bool_decide_eq_true_2 by done. simpl. rewrite Htarget.
  apply Z.eqb_neq in Hout. by rewrite Hout.
Qed.

(** A kick by the owner of a member of the party, the owner included: the
    member rows of the target go, and the party row is not touched. *)
Lemma kick_by_owner_removes req db target :
  r_banned req = false ->
  param "command" req = Some "kick" ->
  readPlayerPartyId gameName (r_uuid req) db <> 0 ->
  readPartyOwnerUuid (readPlayerPartyId gameName (r_uuid req) db) db = Val (r_uuid req) ->
  param "player" req = Some target ->
  readPlayerPartyId gameName target db = readPlayerPartyId gameName (r_uuid req) db ->
  handleParty req db = (ok fresh_reply, clearPlayerParty gameName target db).
Proof.
  intros Hb Hcmd Hin Howner Htarget Hsame.
  rewrite handleParty_kick by done. unfold kick_transfer_case.
  apply Z.eqb_neq in Hin. rewrite Hin, Howner.
  rewrite bool_decide_eq_true_2 by done. simpl. rewrite Htarget, Hsame.
  by rewrite Z.eqb_refl.
Qed.

(** *** Properties of a join *)

(** C10. A join by a requester of rank 1 or more, with a party id that
    parses: the reply and the tables do not depend on the party being
    public or private, on its password or on a pass parameter.  A requester
    in no party becomes a member and gets "ok". *)
Theorem ranked_join_skips_password req db partyIdParam partyId :
  r_banned req = false ->
  param "command" req = Some "join" ->
  param "partyId" req = Some partyIdParam ->
  atoi partyIdParam = Some partyId ->
  1 <= r_rank req ->
  join_check partyId req db fresh_reply = inr fresh_reply /\
  handleParty req db =
  if 0 <? readPlayerPartyId gameName (r_uuid req) db then
    (handleError "player already in a party" fresh_reply, db)
  else (ok fresh_reply, createPlayerParty partyId (r_uuid req) db).
Proof.
  intros Hb Hcmd Hid Hatoi Hrank.
  assert (Hcheck : join_check partyId req db fresh_reply = inr fresh_reply).
  { unfold join_check. destruct (r_rank req =? 0) eqn:E; [|done].
    apply Z.eqb_eq in E. lia. }
  split; [done|].
  rewrite (handleParty_join req db partyIdParam) by done.
  by rewrite Hatoi, Hcheck.
Qed.

(** C6, as the code has it. A join of a private party by a requester of
    rank 0, with a party id that parses.  Without a pass parameter the
    reply is 400 "pass not specified".  With one: a stored password that is
    not empty and differs gives 401 and leaves the tables alone; a stored
    password that is empty or equal lets the request on, to 400 "player
    already in a party" for a requester in a party and to a new member row
    and "ok" otherwise. *)
Theorem private_join_rank0 req db partyIdParam partyId p :
  r_banned req = false ->
  param "command" req = Some "join" ->
  param "partyId" req = Some partyIdParam ->
  atoi partyIdParam = Some partyId ->
  r_rank req = 0 ->
  party_by_id partyId db = Some p ->
  p_public p = false ->
  (param "pass" req = None ->
   handleParty req db = (handleError "pass not specified" fresh_reply, db)) /\
  (forall pass,
      param "pass" req = Some pass ->
      (p_pass p <> "" -> pass <> p_pass p ->
       handleParty req db = (unauthorized fresh_reply, db) /\
       status (fst (unauthorized fresh_reply)) = Some 401) /\
      (p_pass p = "" \/ pass = p_pass p ->
       handleParty req db =
       if 0 <? readPlayerPartyId gameName (r_uuid req) db then
         (handleError "player already in a party" fresh_reply, db)
       else (ok fresh_reply, createPlayerParty partyId (r_uuid req) db))) /\
  (forall payload, status (fst (handleError payload fresh_reply)) = Some 400).
Proof.
  intros Hb Hcmd Hid Hatoi Hrank Hp Hprivate.
  rewrite (handleParty_join req db partyIdParam) by done.
  rewrite Hatoi. unfold join_check, readPartyPublic, readPartyPass.
  rewrite Hrank, Hp, Hprivate. simpl.
  split; [|split; [|done]].
  - intros Hpass. by rewrite Hpass.
  - intros pass Hpass. rewrite Hpass. split.
    + intros Hset Hdiff.
      rewrite (bool_decide_eq_false_2 (p_pass p = "")) by done.
      rewrite (bool_decide_eq_false_2 (pass = p_pass p)) by done.
      done.
    + intros [Hnone|Hsame].
      * rewrite (bool_decide_eq_true_2 (p_pass p = "")) by done. done.
      * rewrite (bool_decide_eq_true_2 (pass = p_pass p)) by done.
        by rewrite andb_false_r.
Qed.

End Endpoint.

(** *** Concrete requests *)

Definition request (u : string) (rk : Z) (params : list (string * string)) : Request :=
  {| r_uuid := u; r_rank := rk; r_banned := false;
     query := list_to_map (map (fun kv => (fst kv, [snd kv])) params) |}.

(** The endpoint for the game "2kki", every theme valid, with the clients
    [on] online. *)
Definition serve (on : list string) (req : Request) (db : Db) : Reply * Db :=
  handleParty "2kki" (fun u => bool_decide (u ∈ on)) (fun _ => true)
    (fun _ => Val "[]") req db.

(** The requests [reqs] one after the other: the replies and the tables. *)
Fixpoint serve_all (on : list string) (reqs : list Request) (db : Db)
  : list (option Z * string) * Db :=
  match reqs with
  | [] => ([], db)
  | req :: rest =>
      let '(r, db1) := serve on req db in
      let '(rs, db2) := serve_all on rest db1 in
      ((status (fst r), body (fst r)) :: rs, db2)
  end.

(** Players A, B and D of rank 0 and the moderator C, no party yet. *)
Definition db0 : Db :=
  {| parties := []; partyMembers := [];
     players := [ {| pd_uuid := "A"; pd_rank := 0 |}; {| pd_uuid := "B"; pd_rank := 0 |};
                  {| pd_uuid := "C"; pd_rank := 1 |}; {| pd_uuid := "D"; pd_rank := 0 |} ];
     next_party_id := 1; next_member_id := 1 |}.

Definition create_public (u : string) : Request :=
  request u 0 [("command", "create"); ("name", "Explorers"); ("public", "1");
               ("theme", "system")].

Definition create_private (u pass : string) : Request :=
  request u 0 [("command", "create"); ("name", "Explorers"); ("pass", pass);
               ("theme", "system")].

Definition join (u : string) (rk : Z) (partyId : string) (params : list (string * string))
  : Request :=
  request u rk ([("command", "join"); ("partyId", partyId)] ++ params).

(** A creates a public party, B joins it, A leaves and B owns it, B disbands
    it, and a later join finds no party. *)
Example create_join_leave_disband :
  let '(replies, db) :=
    serve_all [] [create_public "A"; join "B" 0 "1" []; request "A" 0 [("command", "leave")]]
      db0 in
  let '(replies', db') :=
    serve_all [] [request "B" 0 [("command", "disband")]; join "D" 0 "1" []] db in
  replies = [(Some 200, "1"); (Some 200, "ok"); (Some 200, "ok")] /\
  readPartyOwnerUuid 1 db = Val "B" /\
  readPartyMemberUuids 1 db = ["B"] /\
  replies' = [(Some 200, "ok"); (Some 400, "400 - Bad Request")] /\
  parties db' = [] /\ partyMembers db' = [].
Proof. vm_compute. repeat split. Qed.

(** The private party of A with the password "xyz". *)
Definition db_private : Db := snd (serve [] (create_private "A" "xyz") db0).

(** B is refused with the wrong password and let in with the right one. *)
Example wrong_then_right_password :
  fst (serve_all [] [join "B" 0 "1" [("pass", "wrong")]; join "B" 0 "1" [("pass", "xyz")]]
         db_private)
  = [(Some 401, "401 - Unauthorized"); (Some 200, "ok")].
Proof. vm_compute. reflexivity. Qed.

(** The party of A with the members A, B, C and D, in this order of
    joining; C is the moderator. *)
Definition db_four : Db :=
  snd (serve_all [] [create_public "A"; join "B" 0 "1" []; join "C" 1 "1" [];
                     join "D" 0 "1" []] db0).

Example db_four_listing :
  readPartyOwnerUuid 1 db_four = Val "A" /\
  readPartyMemberUuids 1 db_four = ["C"; "A"; "B"; "D"].
Proof. vm_compute. split; reflexivity. Qed.

(** The owner leaves: with B and D online the owner becomes B, the earlier
    of the two; with nobody online it becomes C, of the highest rank. *)
Example leave_as_owner :
  (readPartyOwnerUuid 1 <$>
     [snd (serve ["B"; "D"] (request "A" 0 [("command", "leave")]) db_four);
      snd (serve ["D"; "C"] (request "A" 0 [("command", "leave")]) db_four);
      snd (serve [] (request "A" 0 [("command", "leave")]) db_four)])
  = [Val "B"; Val "C"; Val "C"].
Proof. vm_compute. reflexivity. Qed.

Lemma db_four_players_known pm :
  pm ∈ partyMembers db_four ->
  exists pd, pd ∈ players db_four /\ pd_uuid pd = pm_uuid pm.
Proof.
  intros Hpm. apply list_elem_of_In in Hpm. vm_compute in Hpm.
  destruct Hpm as [<-|[<-|[<-|[<-|[]]]]];
    (eexists; split; [apply list_elem_of_In; vm_compute|]);
    [ left; reflexivity | reflexivity
    | right; left; reflexivity | reflexivity
    | right; right; left; reflexivity | reflexivity
    | right; right; right; left; reflexivity | reflexivity ].
Qed.

Lemma leave_deletes_or_reassigns_witness :
  exists db' c,
    handlePartyMemberLeave "2kki" (fun u => bool_decide (u ∈ ["B"; "D"])) 1 "A" db_four
      = Val db' /\
    c ∈ listed 1 (clearPlayerParty "2kki" "A" db_four) /\
    readPartyOwnerUuid 1 db' = Val (l_uuid c) /\
    bool_decide (l_uuid c ∈ ["B"; "D"]) = true.
Proof.
  destruct (leave_deletes_or_reassigns "2kki" (fun u => bool_decide (u ∈ ["B"; "D"]))
              1 "A" "A" db_four)
    as (db' & E & _ & _ & Hstay).
  - vm_compute. reflexivity.
  - vm_compute. reflexivity.
  - apply db_four_players_known.
  - destruct Hstay as [_ Hown]; [vm_compute; discriminate|].
    destruct (Hown eq_refl) as (c & Hc & Hnew & Hon & _).
    exists db', c. split; [done|]. split; [done|]. split; [done|].
    apply Hon. exists {| l_rank := 0; l_pm_id := 2; l_uuid := "B" |}.
    split; [|vm_compute; reflexivity].
    apply list_elem_of_In. vm_compute. left. reflexivity.
Defined.

(** C5. The owner A of the party with the members A and B asks to kick A:
    the reply is "ok", the member row of A is gone, and the party still
    names A as its owner.  Alone in the party, the owner kicks the last
    member and the party row stays behind with no member. *)
Theorem owner_kicks_self :
  let db_two := snd (serve_all [] [create_public "A"; join "B" 0 "1" []] db0) in
  let kick_self := request "A" 0 [("command", "kick"); ("player", "A")] in
  let '(r, db') := serve [] kick_self db_two in
  let '(r1, db1) := serve [] kick_self (snd (serve [] (create_public "A") db0)) in
  (status (fst r), body (fst r)) = (Some 200, "ok") /\
  readPlayerPartyId "2kki" "A" db_two = 1 /\
  readPlayerPartyId "2kki" "A" db' = 0 /\
  readPartyMemberUuids 1 db' = ["B"] /\
  readPartyOwnerUuid 1 db' = Val "A" /\
  (status (fst r1), body (fst r1)) = (Some 200, "ok") /\
  readPartyMemberCount 1 db1 = 0 /\
  readPartyOwnerUuid 1 db1 = Val "A".
Proof. vm_compute. repeat split. Qed.

(** C6, as stated, fails for a moderator: C joins the private party with the
    wrong password and becomes a member.  It also fails for a requester of
    rank 0 who sends no pass parameter to a private party whose stored
    password is empty: the reply is 400. *)
Lemma private_join_counterexample :
  let '(r, db') := serve [] (join "C" 1 "1" [("pass", "wrong")]) db_private in
  let db_open := snd (serve [] (create_private "A" "") db0) in
  let '(r2, db2) := serve [] (join "B" 0 "1" []) db_open in
  readPartyPublic 1 db_private = Val false /\
  readPartyPass 1 db_private = Val "xyz" /\
  (status (fst r), body (fst r)) = (Some 200, "ok") /\
  readPlayerPartyId "2kki" "C" db' = 1 /\
  readPartyPublic 1 db_open = Val false /\
  readPartyPass 1 db_open = Val "" /\
  (status (fst r2), body (fst r2)) = (Some 400, "pass not specified") /\
  db2 = db_open.
Proof. vm_compute. repeat split. Qed.

Lemma private_join_rank0_witness :
  serve [] (join "B" 0 "1" [("pass", "wrong")]) db_private
    = (unauthorized fresh_reply, db_private) /\
  status (fst (unauthorized fresh_reply)) = Some 401.
Proof.
  destruct (private_join_rank0 "2kki" (fun u => bool_decide (u ∈ [])) (fun _ => true)
              (fun _ => Val "[]") (join "B" 0 "1" [("pass", "wrong")]) db_private "1" 1
              {| p_id := 1; p_game := "2kki"; p_owner := Some "A"; p_name := "Explorers";
                 p_public := false; p_pass := "xyz"; p_theme := "system";
                 p_description := "" |})
    as (_ & Hpass & _); try (vm_compute; reflexivity).
  destruct (Hpass "wrong") as [Hwrong _]; [vm_compute; reflexivity|].
  apply Hwrong; vm_compute; discriminate.
Defined.

Lemma ranked_join_skips_password_witness :
  serve [] (join "C" 1 "1" []) db_private
    = (ok fresh_reply, createPlayerParty 1 "C" db_private).
Proof.
  refine (proj2 (ranked_join_skips_password "2kki" (fun u => bool_decide (u ∈ []))
                   (fun _ => true) (fun _ => Val "[]") (join "C" 1 "1" []) db_private
                   "1" 1 _ _ _ _ _)).
  - reflexivity.
  - vm_compute. reflexivity.
  - vm_compute. reflexivity.
  - vm_compute. reflexivity.
  - vm_compute. discriminate.
Defined.

End PartyApi.

(** ** More on the session actor: unregistering, what a connect installs,
    and the identity map *)

Module RegistryFacts.

Import Chan Registry.

(** The states the actor itself produces: connects, unregisters, broadcasts
    and the writers emptying the queues, with no other code touching a
    client. *)
Inductive actor_reachable (maxID : Z) (delim : string) (btoa : bool -> string)
  : Session -> Prop :=
| actor_new : actor_reachable maxID delim btoa newSessionWs
| actor_connect s conn s' :
    actor_reachable maxID delim btoa s ->
    connect maxID delim btoa conn s = Ok s' ->
    actor_reachable maxID delim btoa s'
| actor_unregister s p s' :
    actor_reachable maxID delim btoa s ->
    unregister p s = Ok s' ->
    actor_reachable maxID delim btoa s'
| actor_broadcast s order data s' :
    actor_reachable maxID delim btoa s ->
    range_order s order ->
    broadcast_in order data s = Ok s' ->
    actor_reachable maxID delim btoa s'
| actor_drain s p :
    actor_reachable maxID delim btoa s ->
    actor_reachable maxID delim btoa (drain p s).

(** Every entry of [sessionClients] names a registered client of that
    uuid. *)
Definition identities_registered (s : Session) : Prop :=
  forall u p, sessionClients s !! u = Some p ->
              is_registered s p /\ uuid (deref s p) = u.

(** The flag [online] of a client that [run] installs for [conn]. *)
Definition online_flag (conn : ConnInfo) : bool :=
  if isShadowBanned (info_accessType conn) then false else Online conn.

Section Facts.

Variable maxID : Z.
Variable delim : string.
Variable btoa : bool -> string.

Lemma actor_reachable_reachable s :
  actor_reachable maxID delim btoa s -> reachable maxID delim btoa s.
Proof.
  induction 1 as [|s conn s' _ IH E|s p s' _ IH E|s order data s' _ IH Hord E|s p _ IH].
  - apply reach_new.
  - by apply (reach_connect maxID delim btoa s conn s').
  - by apply (reach_unregister maxID delim btoa s p s').
  - by apply (reach_broadcast maxID delim btoa s order data s').
  - by apply reach_drain.
Qed.

Lemma deref_deleted_self p s :
  deref (deleted p s) p =
  with_send (deref s p)
    {| cap := cap (send (deref s p)); buf := buf (send (deref s p)); closed := true |}.
Proof.
  unfold deleted. rewrite deref_set_send. by destruct (decide (p = p)).
Qed.

Lemma unregister_registered p s :
  inv maxID s -> is_registered s p ->
  unregister p s =
  Ok (writeLog (ip (deref s p)) "session" "disconnect" 200 (deleted p s)).
Proof.
  intros Hinv [b Hb]. unfold unregister. rewrite Hb.
  rewrite deleteClient_open by (apply (inv_open maxID s Hinv); by exists b).
  change (Ok (writeLog (ip (deref (deleted p s) p)) "session" "disconnect" 200
                (deleted p s))
          = Ok (writeLog (ip (deref s p)) "session" "disconnect" 200 (deleted p s))).
  by rewrite deref_deleted_self.
Qed.

Lemma unregister_unknown p s :
  ~ is_registered s p ->
  unregister p s =
  Ok (writeErrLog (ip (deref s p)) "session" "attempted to unregister nil client" s).
Proof.
  intros Hno. unfold unregister.
  destruct (clients s !! p) as [b|] eqn:E; [|done].
  exfalso. apply Hno. by exists b.
Qed.

(** X1. Unregistering a registered client of a reachable state runs
    [deleteClient] for it (it leaves [s.clients], its id and identity are
    freed, its row is written, its queue is closed), touches no other client
    and logs "disconnect".  Unregistering the same client again closes
    nothing a second time: it only logs "attempted to unregister nil
    client". *)
Theorem unregister_once_then_noop s p :
  reachable maxID delim btoa s -> is_registered s p ->
  exists s1,
    unregister p s = Ok s1 /\
    evicted s s1 p /\
    (forall q, q <> p ->
               (is_registered s1 q <-> is_registered s q) /\ deref s1 q = deref s q) /\
    last (logs s1) = Some (Log (ip (deref s p)) "session" "disconnect" 200) /\
    unregister p s1 =
    Ok (writeErrLog (ip (deref s p)) "session" "attempted to unregister nil client" s1).
Proof.
  intros Hreach Hp. pose proof (reachable_inv maxID delim btoa s Hreach) as Hinv.
  exists (writeLog (ip (deref s p)) "session" "disconnect" 200 (deleted p s)).
  split; [by apply unregister_registered|].
  split; [exact (evicted_deleted p s)|].
  split.
  { intros q Hq. split.
    - split; intros H.
      + by apply (registered_deleted p s q) in H as [_ H].
      + apply (registered_deleted p s q). by split.
    - exact (deref_deleted_ne p s q Hq). }
  split; [simpl; by rewrite last_snoc|].
  rewrite unregister_unknown.
  - change (deref (writeLog (ip (deref s p)) "session" "disconnect" 200 (deleted p s)) p)
      with (deref (deleted p s) p).
    by rewrite deref_deleted_self.
  - intros H. by apply (registered_deleted p s p) in H as [Hne _].
Qed.

(** X2. Ids are reused: after a registered client is unregistered, the next
    connect that passes the ban and address checks is registered under an id
    no larger than the one just freed. *)
Theorem freed_id_is_reused s p s1 conn :
  reachable maxID delim btoa s -> is_registered s p ->
  unregister p s = Ok s1 ->
  hard_banned conn = false ->
  (length (from_address s1 (Ip conn)) < 3)%nat ->
  exists s2 q,
    connect maxID delim btoa conn s1 = Ok s2 /\
    ~ is_registered s1 q /\ is_registered s2 q /\
    1 <= id (deref s2 q) <= id (deref s p).
Proof.
  intros Hreach Hp E1 Hb Hn.
  pose proof (reachable_inv maxID delim btoa s Hreach) as Hinv.
  assert (Hreach1 : reachable maxID delim btoa s1)
    by (by apply (reach_unregister maxID delim btoa s p s1)).
  pose proof (reachable_inv maxID delim btoa s1 Hreach1) as Hinv1.
  assert (Hfree : ~ held s1 (id (deref s p))).
  { rewrite unregister_registered in E1 by done. injection E1 as <-.
    intros Hh. apply (inv_ids maxID _ Hinv1) in Hh.
    destruct (evicted_deleted p s) as (_ & Hid & _).
    change (id_used (writeLog _ _ _ _ ?t) ?i) with (id_used t i) in Hh.
    congruence. }
  pose proof (inv_range maxID s Hinv p Hp) as Hrange.
  assert (Hip : same_ip s1 (Ip conn) < 3) by (rewrite same_ip_from_address; lia).
  destruct (connect_allocates maxID delim btoa conn s1 Hinv1 Hb Hip)
    as (s2 & q & E2 & Hnew & Hreg & _ & _ & _ & _ & Hr2 & _ & Hbelow).
  { exists (id (deref s p)). by split. }
  exists s2, q. repeat (split; [done|]). split; [lia|].
  destruct (Z_le_gt_dec (id (deref s2 q)) (id (deref s p))) as [|Hgt]; [done|].
  exfalso. apply Hfree, Hbelow. lia.
Qed.

(** What a connect does to the tables: nothing, or one new client at a
    fresh pointer. *)
Lemma connect_effect conn s s' :
  inv maxID s -> connect maxID delim btoa conn s = Ok s' ->
  (clients s' = clients s /\ ids s' = ids s /\
   sessionClients s' = sessionClients s /\ heap s' = heap s /\
   gameData s' = gameData s /\
   (hard_banned conn = true \/
    (3 <= length (from_address s (Ip conn)))%nat \/
    forall i, 1 <= i <= maxID -> held s i)) \/
  (hard_banned conn = false /\
   exists i,
     let p := fresh (dom (heap s)) in
     let c := greeted delim btoa i (online_flag conn) conn in
     ~ is_registered s p /\ 1 <= i <= maxID /\ ~ held s i /\
     clients s' = <[p := true]> (clients s) /\
     ids s' = <[i := true]> (ids s) /\
     sessionClients s' = <[info_uuid conn := p]> (sessionClients s) /\
     heap s' = <[p := c]> (heap s) /\
     gameData s' = gameData s /\
     last (logs s') = Some (Log (Ip conn) "session" "connect" 200)).
Proof.
  intros Hinv.
  assert (Henroll : forall s0,
    clients s0 = clients s -> ids s0 = ids s ->
    sessionClients s0 = sessionClients s -> heap s0 = heap s ->
    gameData s0 = gameData s ->
    enroll maxID delim btoa conn (online_flag conn) s0 = Ok s' ->
    (clients s' = clients s /\ ids s' = ids s /\
     sessionClients s' = sessionClients s /\ heap s' = heap s /\
     gameData s' = gameData s /\
     ((3 <= length (from_address s (Ip conn)))%nat \/
      forall i, 1 <= i <= maxID -> held s i)) \/
    (exists i,
       let p := fresh (dom (heap s)) in
       let c := greeted delim btoa i (online_flag conn) conn in
       ~ is_registered s p /\ 1 <= i <= maxID /\ ~ held s i /\
       clients s' = <[p := true]> (clients s) /\
       ids s' = <[i := true]> (ids s) /\
       sessionClients s' = <[info_uuid conn := p]> (sessionClients s) /\
       heap s' = <[p := c]> (heap s) /\
       gameData s' = gameData s /\
       last (logs s') = Some (Log (Ip conn) "session" "connect" 200))).
  { intros s0 Hc Hi Hsc Hh Hg. rewrite enroll_cases.
    assert (Hsame : same_ip s0 (Ip conn) = same_ip s (Ip conn)).
    { unfold same_ip, same_ip_in, registered, deref. by rewrite Hc, Hh. }
    assert (Hused : forall j, id_used s0 j = id_used s j).
    { intros j. unfold id_used. by rewrite Hi. }
    rewrite Hsame.
    destruct (3 <=? same_ip s (Ip conn)) eqn:E3.
    { intros [= <-]. left. simpl. repeat (split; [done|]). left.
      apply Z.leb_le in E3. rewrite same_ip_from_address in E3. lia. }
    pose proof (first_free_id_spec maxID s0) as Hspec. simpl in Hspec.
    destruct (first_free_id maxID s0 =? 0) eqn:Ez.
    { intros [= <-]. left. simpl. repeat (split; [done|]). right.
      apply Z.eqb_eq in Ez.
      destruct Hspec as [[_ Hall]|[Hr _]]; [|lia].
      intros j Hj. apply (inv_ids maxID s Hinv). rewrite <- Hused. by apply Hall. }
    apply Z.eqb_neq in Ez.
    destruct Hspec as [[Hz _]|(Hrange & Hunused & _)]; [done|].
    intros [= <-]. right. exists (first_free_id maxID s0). simpl.
    split.
    { intros Hr. apply (is_fresh (dom (heap s))). by apply (inv_heap maxID s Hinv). }
    split; [done|]. split.
    { intros Hh'. apply (inv_ids maxID s Hinv) in Hh'. rewrite <- Hused in Hh'.
      congruence. }
    rewrite Hc, Hi, Hsc, Hh, Hg. repeat (split; [done|]). by rewrite last_snoc. }
  unfold connect, hard_banned, online_flag in *.
  destruct (isShadowBanned (info_accessType conn)); simpl.
  - intros E. apply Henroll in E; try done.
    destruct E as [(H1 & H2 & H3 & H4 & H5 & H6)|H]; [left|right; by split].
    repeat (split; [done|]). by right.
  - destruct (isBanned (info_accessType conn)).
    + intros [= <-]. left. simpl. repeat (split; [done|]). by left.
    + intros E. apply Henroll in E; try done.
      destruct E as [(H1 & H2 & H3 & H4 & H5 & H6)|H]; [left|right; by split].
      repeat (split; [done|]). by right.
Qed.

(** X3. A connect in a reachable state never blocks or panics, and it either
    registers nothing (banned, three clients of the address, or every id
    held) or it allocates one client and registers it: the client carries
    the fields of the request, is offline when the player is shadow-banned,
    has the greeting alone on its queue, and [sessionClients] names it for
    the uuid. *)
Theorem connect_outcome s conn :
  reachable maxID delim btoa s ->
  exists s',
    connect maxID delim btoa conn s = Ok s' /\
    ((clients s' = clients s /\ ids s' = ids s /\
      sessionClients s' = sessionClients s /\ heap s' = heap s /\
      (hard_banned conn = true \/
       (3 <= length (from_address s (Ip conn)))%nat \/
       forall i, 1 <= i <= maxID -> held s i)) \/
     (hard_banned conn = false /\
      exists p i,
        ~ is_registered s p /\ is_registered s' p /\
        deref s' p = greeted delim btoa i (online_flag conn) conn /\
        buf (send (deref s' p)) = [greeting delim btoa i conn] /\
        online (deref s' p) = online_flag conn /\
        sessionClients s' !! info_uuid conn = Some p)).
Proof.
  intros Hreach. pose proof (reachable_inv maxID delim btoa s Hreach) as Hinv.
  assert (Hok : exists s', connect maxID delim btoa conn s = Ok s').
  { unfold connect. rewrite !enroll_cases.
    destruct (isShadowBanned _); [|destruct (isBanned _)];
      repeat (destruct (_ <=? _) || destruct (_ =? _)); by eexists. }
  destruct Hok as [s' E]. exists s'. split; [done|].
  destruct (connect_effect conn s s' Hinv E)
    as [(H1 & H2 & H3 & H4 & _ & H6)|(Hb & i & Hnew & _ & _ & Hc & _ & Hsc & Hh & _)].
  - left. by repeat (split; [done|]).
  - right. split; [done|]. exists (fresh (dom (heap s))), i.
    assert (Hd : deref s' (fresh (dom (heap s)))
                 = greeted delim btoa i (online_flag conn) conn).
    { unfold deref. rewrite Hh. by rewrite lookup_total_insert_eq. }
    split; [done|]. split.
    { unfold is_registered. rewrite Hc, lookup_insert_eq. by eexists. }
    split; [done|]. rewrite Hd. split; [done|]. split; [done|].
    by rewrite Hsc, lookup_insert_eq.
Qed.

(** *** The identity map under the actor's own steps *)

Lemma identities_set_send p ch s :
  identities_registered s -> identities_registered (set_send p ch s).
Proof.
  intros H u q Hq. destruct (H u q Hq) as [Hr Hu]. split; [done|].
  rewrite deref_set_send. by destruct (decide (p = q)) as [->|].
Qed.

Lemma identities_deleted p s :
  identities_registered s -> identities_registered (deleted p s).
Proof.
  intros H u q Hq. unfold deleted in Hq. simpl in Hq.
  destruct (decide (uuid (deref s p) = u)) as [<-|Hne].
  { by rewrite lookup_delete_eq in Hq. }
  rewrite lookup_delete_ne in Hq by done.
  destruct (H u q Hq) as [Hr Hu].
  assert (Hqp : q <> p) by (intros ->; done).
  split.
  - apply (registered_deleted p s q). by split.
  - by rewrite deref_deleted_ne.
Qed.

Lemma identities_broadcast_in data order : forall s s',
  (forall p, p ∈ order -> closed (send (deref s p)) = false) ->
  NoDup order ->
  identities_registered s ->
  broadcast_in order data s = Ok s' ->
  identities_registered s'.
Proof.
  induction order as [|p rest IH]; intros s s' Hopen Hnd Hid; simpl.
  - by intros [= <-].
  - apply NoDup_cons in Hnd as [Hp Hnd].
    unfold broadcast_one, try_send.
    rewrite (Hopen p) by (by left).
    assert (Hrest : forall s1, (forall q, q <> p -> deref s1 q = deref s q) ->
                               forall q, q ∈ rest -> closed (send (deref s1 q)) = false).
    { intros s1 Hs1 q Hq. rewrite Hs1 by (intros ->; done). apply Hopen. by right. }
    destruct (has_room (send (deref s p))); simpl.
    + apply IH; [|done|by apply identities_set_send].
      apply Hrest. intros q Hq. rewrite deref_set_send.
      destruct (decide (p = q)); [congruence|done].
    + rewrite deleteClient_open by (apply Hopen; by left). simpl.
      apply IH; [|done|by apply identities_deleted].
      apply Hrest. intros q Hq. by apply deref_deleted_ne.
Qed.

Lemma identities_actor_reachable s :
  actor_reachable maxID delim btoa s -> identities_registered s.
Proof.
  induction 1 as [|s conn s' Hr IH E|s p s' Hr IH E|s order data s' Hr IH Hord E|s p Hr IH].
  - intros u p Hp. simpl in Hp. by rewrite lookup_empty in Hp.
  - pose proof (reachable_inv maxID delim btoa s (actor_reachable_reachable s Hr)) as Hinv.
    destruct (connect_effect conn s s' Hinv E)
      as [(Hc & _ & Hsc & Hh & _)|(_ & i & Hnew & _ & _ & Hc & _ & Hsc & Hh & _)].
    + intros u p Hp. rewrite Hsc in Hp. destruct (IH u p Hp) as [Hreg Hu].
      unfold is_registered, deref. by rewrite Hc, Hh.
    + intros u p Hp. rewrite Hsc in Hp. unfold is_registered, deref.
      rewrite Hc, Hh.
      destruct (decide (info_uuid conn = u)) as [<-|Hne].
      * rewrite lookup_insert_eq in Hp. injection Hp as <-.
        rewrite lookup_insert_eq, lookup_total_insert_eq. split; [by eexists|done].
      * rewrite lookup_insert_ne in Hp by done.
        destruct (IH u p Hp) as [Hreg Hu].
        assert (Hpf : fresh (dom (heap s)) <> p) by (intros <-; done).
        rewrite lookup_insert_ne, lookup_total_insert_ne by done. done.
  - pose proof (reachable_inv maxID delim btoa s (actor_reachable_reachable s Hr)) as Hinv.
    destruct (clients s !! p) as [b|] eqn:Hp.
    + rewrite unregister_registered in E by (done || by exists b).
      injection E as <-. exact (identities_deleted p s IH).
    + rewrite unregister_unknown in E by (intros [b Hb]; congruence).
      injection E as <-. exact IH.
  - pose proof (reachable_inv maxID delim btoa s (actor_reachable_reachable s Hr)) as Hinv.
    apply (identities_broadcast_in data order s s'); try done.
    + intros p Hp. apply (inv_open maxID s Hinv).
      by apply (range_order_elem s order p Hord).
    + by apply (range_order_NoDup s).
  - by apply identities_set_send.
Qed.

(** X4. In every state the actor produces by its own steps, each entry of
    [sessionClients] names a client that is registered and has that uuid, so
    [len(sessionClients)], the population the actor announces, is never
    above the number of registered clients. *)
Theorem population_count_bounded s :
  actor_reachable maxID delim btoa s ->
  identities_registered s /\
  (size (sessionClients s) <= size (clients s))%nat.
Proof.
  intros Hr. pose proof (identities_actor_reachable s Hr) as Hid.
  split; [done|].
  rewrite <- (length_map_to_list (sessionClients s)).
  rewrite <- (length_fmap snd (map_to_list (sessionClients s))).
  rewrite <- (size_dom (clients s)).
  unfold size at 1, set_size. simpl.
  apply submseteq_length, NoDup_submseteq.
  - apply NoDup_fmap_2_strong; [|apply NoDup_map_to_list].
    intros [u1 p1] [u2 p2] H1 H2 Heq. simpl in Heq. subst p2.
    apply elem_of_map_to_list in H1, H2.
    destruct (Hid u1 p1 H1) as [_ Hu1]. destruct (Hid u2 p1 H2) as [_ Hu2].
    congruence.
  - intros p Hp. apply list_elem_of_fmap in Hp as ([u q] & -> & Hin).
    apply elem_of_map_to_list in Hin. simpl.
    apply elem_of_elements, elem_of_dom. by apply (Hid u q).
Qed.

(** *** A broadcast that evicts nobody *)

Lemma broadcast_in_room data order : forall s,
  NoDup order ->
  (forall p, p ∈ order ->
             closed (send (deref s p)) = false /\ has_room (send (deref s p)) = true) ->
  exists s',
    broadcast_in order data s = Ok s' /\
    clients s' = clients s /\ ids s' = ids s /\
    sessionClients s' = sessionClients s /\
    gameData s' = gameData s /\ logs s' = logs s /\
    forall q, deref s' q =
              if decide (q ∈ order) then with_send (deref s q) (push (send (deref s q)) data)
              else deref s q.
Proof.
  induction order as [|p rest IH]; intros s Hnd Hroom.
  - exists s. simpl. repeat (split; [done|]). intros q.
    destruct (decide (q ∈ [])) as [H|]; [by apply elem_of_nil in H|done].
  - apply NoDup_cons in Hnd as [Hp Hnd].
    destruct (Hroom p) as [Hopen Hr]; [by left|].
    assert (Hd : forall q, q <> p ->
                 deref (set_send p (push (send (deref s p)) data) s) q = deref s q).
    { intros q Hq. rewrite deref_set_send. destruct (decide (p = q)); [congruence|done]. }
    destruct (IH (set_send p (push (send (deref s p)) data) s) Hnd)
      as (s' & E & H1 & H2 & H3 & H4 & H5 & H6).
    { intros q Hq. rewrite Hd by (intros ->; done). apply Hroom. by right. }
    exists s'. simpl. unfold broadcast_one, try_send. rewrite Hopen, Hr. simpl.
    split; [done|]. repeat (split; [done|]).
    intros q. rewrite H6.
    destruct (decide (q = p)) as [->|Hne].
    + destruct (decide (p ∈ rest)); [done|].
      destruct (decide (p ∈ p :: rest)) as [|Hno]; [|exfalso; apply Hno; by left].
      rewrite deref_set_send. by destruct (decide (p = p)).
    + rewrite Hd by done.
      destruct (decide (q ∈ rest)) as [Hin|Hout].
      * destruct (decide (q ∈ p :: rest)) as [|Hno]; [done|].
        exfalso. apply Hno. by right.
      * destruct (decide (q ∈ p :: rest)) as [Hin|]; [|done].
        apply elem_of_cons in Hin as [->|Hin]; done.
Qed.

(** X5. When every registered client of a reachable state has room, a
    broadcast appends the payload to each of their queues and changes
    nothing else: nobody is unregistered, no id or identity is freed, no row
    is written, nothing is logged, and no other client is touched. *)
Theorem broadcast_with_room_only_queues data order s :
  reachable maxID delim btoa s -> range_order s order ->
  (forall p, is_registered s p -> has_room (send (deref s p)) = true) ->
  exists s',
    broadcast_in order data s = Ok s' /\
    clients s' = clients s /\ ids s' = ids s /\
    sessionClients s' = sessionClients s /\
    gameData s' = gameData s /\ logs s' = logs s /\
    (forall p, is_registered s p ->
               deref s' p = with_send (deref s p) (push (send (deref s p)) data)) /\
    (forall q, ~ is_registered s q -> deref s' q = deref s q).
Proof.
  intros Hreach Hord Hroom.
  pose proof (reachable_inv maxID delim btoa s Hreach) as Hinv.
  destruct (broadcast_in_room data order s) as (s' & E & H1 & H2 & H3 & H4 & H5 & H6).
  - by apply (range_order_NoDup s).
  - intros p Hp. apply (range_order_elem s order p Hord) in Hp.
    split; [by apply (inv_open maxID s Hinv) | by apply Hroom].
  - exists s'. repeat (split; [done|]). split.
    + intros p Hp. rewrite H6.
      destruct (decide (p ∈ order)) as [|Hno]; [done|].
      exfalso. by apply Hno, (range_order_elem s order p Hord).
    + intros q Hq. rewrite H6.
      destruct (decide (q ∈ order)) as [Hin|]; [|done].
      exfalso. by apply Hq, (range_order_elem s order q Hord).
Qed.

End Facts.

(** *** Concrete runs *)

Lemma actor_connects maxID delim btoa cs : forall s s',
  actor_reachable maxID delim btoa s ->
  connects maxID delim btoa cs s = Ok s' ->
  actor_reachable maxID delim btoa s'.
Proof.
  induction cs as [|c rest IH]; intros s s' Hs; simpl.
  - by intros [= <-].
  - destruct (connect maxID delim btoa c s) as [s1| |] eqn:E; simpl; try done.
    apply IH. by apply (actor_connect maxID delim btoa s c s1).
Qed.

Lemma two_players_reachable : reachable 3 "|" demo_btoa two_players.
Proof. apply after_reachable. vm_compute. reflexivity. Qed.

Lemma two_players_first_registered : is_registered two_players 1%positive.
Proof. exists true. vm_compute. reflexivity. Qed.

(** [two_players] after client 1 is unregistered. *)
Definition one_left : Session :=
  match unregister 1%positive two_players with
  | Ok s => s
  | _ => two_players
  end.

Lemma unregister_once_then_noop_witness :
  exists s1,
    unregister 1%positive two_players = Ok s1 /\
    evicted two_players s1 1%positive /\
    unregister 1%positive s1 =
    Ok (writeErrLog (ip (deref two_players 1%positive)) "session"
          "attempted to unregister nil client" s1).
Proof.
  destruct (unregister_once_then_noop 3 "|" demo_btoa two_players 1%positive
              two_players_reachable two_players_first_registered)
    as (s1 & E & Hev & _ & _ & Hagain).
  exists s1. by repeat (split; [done|]).
Defined.

Lemma freed_id_is_reused_witness :
  exists s2 q,
    connect 3 "|" demo_btoa (player "10.0.0.3" "c") one_left = Ok s2 /\
    ~ is_registered one_left q /\ is_registered s2 q /\
    1 <= id (deref s2 q) <= id (deref two_players 1%positive).
Proof.
  apply (freed_id_is_reused 3 "|" demo_btoa two_players 1%positive one_left
           (player "10.0.0.3" "c") two_players_reachable two_players_first_registered).
  - vm_compute. reflexivity.
  - reflexivity.
  - vm_compute. lia.
Defined.

Example freed_id_is_reused_run :
  exists s2,
    connect 3 "|" demo_btoa (player "10.0.0.3" "c") one_left = Ok s2 /\
    map (fun p => (uuid (deref s2 p), id (deref s2 p))) (registered s2)
    = [("c", 1); ("b", 2)].
Proof. eexists. split; vm_compute; reflexivity. Qed.

Lemma connect_outcome_witness :
  exists s',
    connect 3 "|" demo_btoa (player "10.0.0.3" "c") two_players = Ok s' /\
    ((clients s' = clients two_players /\ ids s' = ids two_players /\
      sessionClients s' = sessionClients two_players /\ heap s' = heap two_players /\
      (hard_banned (player "10.0.0.3" "c") = true \/
       (3 <= length (from_address two_players "10.0.0.3"))%nat \/
       forall i, 1 <= i <= 3 -> held two_players i)) \/
     (hard_banned (player "10.0.0.3" "c") = false /\
      exists p i,
        ~ is_registered two_players p /\ is_registered s' p /\
        deref s' p = greeted "|" demo_btoa i (online_flag (player "10.0.0.3" "c"))
                       (player "10.0.0.3" "c") /\
        buf (send (deref s' p)) = [greeting "|" demo_btoa i (player "10.0.0.3" "c")] /\
        online (deref s' p) = online_flag (player "10.0.0.3" "c") /\
        sessionClients s' !! "c" = Some p)).
Proof.
  exact (connect_outcome 3 "|" demo_btoa two_players (player "10.0.0.3" "c")
           two_players_reachable).
Defined.

Lemma population_count_bounded_witness :
  identities_registered one_left /\
  (size (sessionClients one_left) <= size (clients one_left))%nat.
Proof.
  apply (population_count_bounded 3 "|" demo_btoa).
  apply (actor_unregister 3 "|" demo_btoa two_players 1%positive).
  - apply (actor_connects 3 "|" demo_btoa
             [player "10.0.0.1" "a"; player "10.0.0.2" "b"] newSessionWs).
    + apply actor_new.
    + vm_compute. reflexivity.
  - vm_compute. reflexivity.
Defined.

Lemma broadcast_with_room_only_queues_witness :
  exists s',
    broadcast_in (registered two_players) "pc|2" two_players = Ok s' /\
    clients s' = clients two_players /\ ids s' = ids two_players /\
    sessionClients s' = sessionClients two_players /\
    gameData s' = gameData two_players /\ logs s' = logs two_players.
Proof.
  destruct (broadcast_with_room_only_queues 3 "|" demo_btoa "pc|2"
              (registered two_players) two_players two_players_reachable)
    as (s' & E & H1 & H2 & H3 & H4 & H5 & _).
  - unfold range_order. reflexivity.
  - intros p Hp. apply elem_of_registered in Hp. vm_compute in Hp.
    apply list_elem_of_In in Hp. destruct Hp as [<-|[<-|[]]]; vm_compute; reflexivity.
  - exists s'. by repeat (split; [done|]).
Defined.

End RegistryFacts.

(** ** More on the concurrent-map variant: its ids and a refused
    reconnect *)

Module SyncMapFacts.

Import SyncMapVariant.

(** The states joins and disconnects of stored clients lead to. *)
Inductive reachable : State -> Prop :=
| reach_empty : reachable empty
| reach_join s j : reachable s -> reachable (joinSessionWs j s)
| reach_disconnect s u c :
    reachable s -> clients s !! u = Some c -> reachable (disconnect c s).

(** The same states, with the number of calls of [joinSessionWs] it took
    to get there. *)
Inductive reachable_in : nat -> State -> Prop :=
| reach_in_empty : reachable_in 0 empty
| reach_in_join n s j : reachable_in n s -> reachable_in (S n) (joinSessionWs j s)
| reach_in_disconnect n s u c :
    reachable_in n s -> clients s !! u = Some c -> reachable_in n (disconnect c s).

(** Every stored client sits under its own uuid. *)
Definition keyed (s : State) : Prop :=
  forall u c, clients s !! u = Some c -> uuid c = u.



Lemma disconnect_sub c s u x :
  clients (disconnect c s) !! u = Some x -> clients s !! u = Some x.
Proof.
  unfold disconnect. simpl.
  destruct (decide (uuid c = u)) as [->|Hne].
  - by rewrite lookup_delete_eq.
  - by rewrite lookup_delete_ne.
Qed.

Lemma keyed_disconnect c s : keyed s -> keyed (disconnect c s).
Proof. intros Hk u x Hx. by apply Hk, (disconnect_sub c). Qed.

Lemma keyed_joinSessionWs j s : keyed s -> keyed (joinSessionWs j s).
Proof.
  intros Hk. unfold joinSessionWs.
  destruct (resolve j) as [client banned]. destruct banned; [done|].
  set (s1 := match clients s !! uuid client with
             | Some prior => disconnect prior s
             | None => s
             end).
  assert (Hk1 : keyed s1).
  { unfold s1. destruct (clients s !! uuid client); [by apply keyed_disconnect|done]. }
  destruct (3 <? sameIp s1 (j_ip j)); [done|].
  intros u c. simpl. destruct (decide (uuid client = u)) as [<-|Hne].
  - rewrite lookup_insert_eq. by intros [= <-].
  - rewrite lookup_insert_ne by done. apply Hk1.
Qed.

Lemma reachable_keyed s : reachable s -> keyed s.
Proof.
  induction 1 as [|s j _ IH|s u c _ IH Hc].
  - intros u c. simpl. by rewrite lookup_empty.
  - by apply keyed_joinSessionWs.
  - by apply keyed_disconnect.
Qed.

Lemma reachable_in_reachable n s : reachable_in n s -> reachable s.
Proof.
  induction 1 as [|n s j _ IH|n s u c _ IH Hc].
  - apply reach_empty.
  - by apply reach_join.
  - by apply (reach_disconnect s u c).
Qed.






(** X7. A reconnect that is refused for its address has already lost the
    identity its session: [disconnect] ran for the prior record before the
    clients of the address were counted, nothing is stored in its place and
    the counter does not move. *)
Theorem refused_reconnect_drops_session j s prior :
  reachable s ->
  snd (resolve j) = false ->
  clients s !! uuid (fst (resolve j)) = Some prior ->
  3 < sameIp (disconnect prior s) (j_ip j) ->
  clients (joinSessionWs j s) !! uuid (fst (resolve j)) = None /\
  prior ∈ disconnected (joinSessionWs j s) /\
  lastId (joinSessionWs j s) = lastId s /\
  last (logs (joinSessionWs j s))
  = Some (ErrLog (uuid (fst (resolve j))) "sess" "too many connections from ip").
Proof.
  intros Hr Hb Hprior Hmany.
  pose proof (reachable_keyed s Hr _ _ Hprior) as Hu.
  unfold joinSessionWs.
  destruct (resolve j) as [client banned]. simpl in *. subst banned.
  rewrite Hprior. apply Z.ltb_lt in Hmany. rewrite Hmany. simpl.
  split; [by rewrite Hu, lookup_delete_eq|].
  split; [apply elem_of_app; right; by apply list_elem_of_singleton|].
  split; [done|]. by rewrite last_snoc.
Qed.

Definition four_guests : State :=
  foldl (fun s j => joinSessionWs j s) empty
    [guest "10.0.0.9" "a"; guest "10.0.0.9" "b"; guest "10.0.0.9" "c";
     guest "10.0.0.9" "d"; guest "10.0.0.7" "e"].

Lemma four_guests_reachable : reachable four_guests.
Proof. unfold four_guests. simpl. repeat apply reach_join. apply reach_empty. Qed.



(** The guest "e" comes back from the address of the four others. *)
Lemma refused_reconnect_drops_session_witness :
  clients (joinSessionWs (guest "10.0.0.9" "e") four_guests) !! "e" = None /\
  lastId (joinSessionWs (guest "10.0.0.9" "e") four_guests) = 5.
Proof.
  destruct (refused_reconnect_drops_session (guest "10.0.0.9" "e") four_guests
              {| ip := "10.0.0.7"; uuid := "e"; name := ""; rank := 0; badge := "null";
                 muted := false; account := false; id := 4; spriteName := "";
                 spriteIndex := 0; systemName := "" |} four_guests_reachable)
    as (Hnone & _ & Hlast & _).
  - reflexivity.
  - vm_compute. reflexivity.
  - vm_compute. reflexivity.
  - split; [exact Hnone | exact Hlast].
Defined.

End SyncMapFacts.

(** ** The dispatcher of the concurrent-map variant,
    [SessionClient.processMsg] of [src/server/session.go] *)

Module ServerDispatch.

Import Chan GoText.

(** The errors [processMsg] returns: the two package variables, or what a
    handler returned. *)
Inductive error : Type :=
| errInvalidUTF8
| errUnkMsgType
| handlerError (e : string).

Section Handlers.

(** The sender with everything its handlers reach; the handlers, [sendMsg]
    and [writeLog] are declared outside the sources at hand. *)
Variable St : Type.
Variable delim : string.
Variables handleI handlePt handleEp handleE : St -> St * option string.
Variables handleName handlePloc handleGSay handlePSay
  : list string -> St -> St * option string.
Variable sendMsg : list string -> St -> St.
Variable writeLog : string -> St -> St.

(** The tail of [processMsg]: an error is returned, success is logged. *)
Definition finish (msg : string) (r : St * option string) : St * option error :=
  match snd r with
  | Some e => (fst r, Some (handlerError e))
  | None => (writeLog msg (fst r), None)
  end.

(** [SessionClient.processMsg]; [Panic] is the index [msgFields[0]] out of
    range. *)
Definition processMsg (msg : string) (st : St) : res (St * option error) :=
  if negb (Valid msg) then Ok (st, Some errInvalidUTF8)
  else
    match Split msg delim with
    | [] => Panic
    | cmd :: _ =>
        let msgFields := Split msg delim in
        if decide (cmd = "i") then Ok (finish msg (handleI st))
        else if decide (cmd = "name") then Ok (finish msg (handleName msgFields st))
        else if decide (cmd = "ploc") then Ok (finish msg (handlePloc msgFields st))
        else if decide (cmd = "gsay") then Ok (finish msg (handleGSay msgFields st))
        else if decide (cmd = "psay") then Ok (finish msg (handlePSay msgFields st))
        else if decide (cmd = "pt") then
          let r := handlePt st in
          let st1 := match snd r with
                     | Some _ => sendMsg ["pt"; "null"] (fst r)
                     | None => fst r
                     end in
          Ok (writeLog msg st1, None)
        else if decide (cmd = "ep") then Ok (finish msg (handleEp st))
        else if decide (cmd = "e") then Ok (finish msg (handleE st))
        else Ok (st, Some errUnkMsgType)
    end.

Lemma split_go_nonempty sep s : forall skip cur, split_go sep s skip cur <> [].
Proof.
  induction s as [|a rest IH]; intros skip cur; simpl; [done|].
  destruct skip; [|apply IH].
  match goal with |- context [if ?c then _ else _] => destruct c end;
    [done|apply IH].
Qed.

(** X8. With a delimiter that is not empty, [processMsg] of the variant
    never fails on [msgFields[0]].  A message that is not valid UTF-8 gets
    [errInvalidUTF8] and reaches no handler.  A "pt" message never returns an
    error: when [handlePt] fails, "pt", "null" is sent and the message is
    logged as a success all the same.  An error other than these comes from
    an unknown command, which changes nothing, or from one of the other
    handlers. *)
Theorem server_processMsg_errors (msg : string) (st : St) :
  delim <> "" ->
  exists st' e,
    processMsg msg st = Ok (st', e) /\
    (Valid msg = false -> st' = st /\ e = Some errInvalidUTF8) /\
    (Valid msg = true -> hd "" (Split msg delim) = "pt" ->
     e = None /\
     st' = writeLog msg
             (match snd (handlePt st) with
              | Some _ => sendMsg ["pt"; "null"] (fst (handlePt st))
              | None => fst (handlePt st)
              end)) /\
    (e = Some errUnkMsgType ->
     st' = st /\ hd "" (Split msg delim) ∉ ["i"; "name"; "ploc"; "gsay"; "psay"; "pt"; "ep"; "e"]) /\
    (forall x, e = Some (handlerError x) -> hd "" (Split msg delim) <> "pt").
Proof.
  intros Hdelim.
  cut (exists r : St * option error,
         processMsg msg st = Ok r /\
         (Valid msg = false -> fst r = st /\ snd r = Some errInvalidUTF8) /\
         (Valid msg = true -> hd "" (Split msg delim) = "pt" ->
          snd r = None /\
          fst r = writeLog msg
                    (match snd (handlePt st) with
                     | Some _ => sendMsg ["pt"; "null"] (fst (handlePt st))
                     | None => fst (handlePt st)
                     end)) /\
         (snd r = Some errUnkMsgType ->
          fst r = st /\
          hd "" (Split msg delim) ∉ ["i"; "name"; "ploc"; "gsay"; "psay"; "pt"; "ep"; "e"]) /\
         (forall x, snd r = Some (handlerError x) -> hd "" (Split msg delim) <> "pt")).
  { intros ([st' e] & E & H). by exists st', e. }
  unfold processMsg.
  destruct (Valid msg) eqn:Hvalid; simpl.
  2:{ eexists. split; [reflexivity|]. simpl. repeat split; done. }
  assert (Hne : Split msg delim <> []).
  { unfold Split. destruct (decide (delim = "")); [done|]. apply split_go_nonempty. }
  destruct (Split msg delim) as [|cmd rest] eqn:Hsplit; [done|]. simpl.
  assert (Hfin : forall r : St * option string,
            snd (finish msg r) <> Some errUnkMsgType).
  { intros r. unfold finish. by destruct (snd r). }
  destruct (decide (cmd = "i")) as [->|?].
  { eexists. split; [reflexivity|]. repeat split; try done; exfalso; eapply Hfin; eassumption. }
  destruct (decide (cmd = "name")) as [->|?].
  { eexists. split; [reflexivity|]. repeat split; try done; exfalso; eapply Hfin; eassumption. }
  destruct (decide (cmd = "ploc")) as [->|?].
  { eexists. split; [reflexivity|]. repeat split; try done; exfalso; eapply Hfin; eassumption. }
  destruct (decide (cmd = "gsay")) as [->|?].
  { eexists. split; [reflexivity|]. repeat split; try done; exfalso; eapply Hfin; eassumption. }
  destruct (decide (cmd = "psay")) as [->|?].
  { eexists. split; [reflexivity|]. repeat split; try done; exfalso; eapply Hfin; eassumption. }
  destruct (decide (cmd = "pt")) as [->|?].
  { eexists. split; [reflexivity|]. simpl. repeat split; done. }
  destruct (decide (cmd = "ep")) as [->|?].
  { eexists. split; [reflexivity|]. repeat split; try done; exfalso; eapply Hfin; eassumption. }
  destruct (decide (cmd = "e")) as [->|?].
  { eexists. split; [reflexivity|]. repeat split; try done; exfalso; eapply Hfin; eassumption. }
  eexists. split; [reflexivity|]. simpl.
  split; [done|]. split; [done|]. split; [|done].
  intros _. split; [done|].
  intros Hin. repeat (apply elem_of_cons in Hin as [Hin|Hin]; [done|]).
  by apply elem_of_nil in Hin.
Qed.

End Handlers.

(** A handler that always fails, and a state that records what was sent and
    logged. *)
Lemma server_processMsg_errors_witness :
  processMsg (list string) "|"
    (fun st => (st, None)) (fun st => (st, Some "player not in a party"))
    (fun st => (st, None)) (fun st => (st, None))
    (fun _ st => (st, None)) (fun _ st => (st, None))
    (fun _ st => (st, None)) (fun _ st => (st, None))
    (fun segs st => st ++ [String.concat "|" segs])
    (fun m st => st ++ ["log " ++ m]%string)
    "pt" []
  = Ok (["pt|null"; "log pt"], None).
Proof.
  destruct (server_processMsg_errors (list string) "|"
    (fun st => (st, None)) (fun st => (st, Some "player not in a party"))
    (fun st => (st, None)) (fun st => (st, None))
    (fun _ st => (st, None)) (fun _ st => (st, None))
    (fun _ st => (st, None)) (fun _ st => (st, None))
    (fun segs st => st ++ [String.concat "|" segs])
    (fun m st => st ++ ["log " ++ m]%string)
    "pt" []) as (st' & e & E & _ & Hpt & _).
  - discriminate.
  - destruct Hpt as [-> ->]; [reflexivity|reflexivity|]. exact E.
Defined.

End ServerDispatch.

(** ** Splitting loses nothing *)

Module GoTextFacts.

Import GoText.

Fixpoint string_drop (n : nat) (s : string) : string :=
  match n, s with
  | O, _ => s
  | S k, EmptyString => EmptyString
  | S k, String _ rest => string_drop k rest
  end.

Lemma append_cons (a : ascii) (s t : string) :
  (String a s ++ t)%string = String a (s ++ t)%string.
Proof. reflexivity. Qed.

Lemma append_empty_l (s : string) : ("" ++ s)%string = s.
Proof. reflexivity. Qed.

Lemma append_empty_r (s : string) : (s ++ "")%string = s.
Proof. induction s as [|a s IH]; [done|]. by rewrite append_cons, IH. Qed.

Lemma append_assoc (a b c : string) : ((a ++ b) ++ c)%string = (a ++ b ++ c)%string.
Proof. induction a as [|x a IH]; [done|]. by rewrite !append_cons, IH. Qed.

Lemma length_append (a b : string) :
  String.length (a ++ b) = (String.length a + String.length b)%nat.
Proof. induction a as [|x a IH]; [done|]. rewrite append_cons. simpl. by rewrite IH. Qed.

Lemma prefix_split (sep : string) : forall s,
  String.prefix sep s = true ->
  s = (sep ++ string_drop (String.length sep) s)%string.
Proof.
  induction sep as [|a sep IH]; intros s; [done|].
  destruct s as [|b s]; [done|]. simpl.
  destruct (ascii_dec a b) as [->|]; [|done].
  intros H. rewrite append_cons. by rewrite <- (IH s H).
Qed.

Lemma split_go_skip sep : forall s k cur,
  (k <= String.length s)%nat ->
  split_go sep s k cur = split_go sep (string_drop k s) 0 cur.
Proof.
  induction s as [|a s IH]; intros k cur Hk.
  - simpl in Hk. by replace k with 0%nat by lia.
  - destruct k; [done|]. simpl. apply IH. simpl in Hk. lia.
Qed.

Lemma split_go_not_nil sep s : forall skip cur, split_go sep s skip cur <> [].
Proof.
  induction s as [|a rest IH]; intros skip cur; simpl; [done|].
  destruct skip; [|apply IH].
  match goal with |- context [if ?c then _ else _] => destruct c end;
    [done|apply IH].
Qed.

Lemma concat_cons sep x xs :
  xs <> [] -> String.concat sep (x :: xs) = (x ++ sep ++ String.concat sep xs)%string.
Proof. intros H. destruct xs; done. Qed.

Lemma concat_split_go sep :
  sep <> "" ->
  forall n s cur, (String.length s <= n)%nat ->
                  String.concat sep (split_go sep s 0 cur) = (cur ++ s)%string.
Proof.
  intros Hsep. induction n as [|n IH]; intros s cur Hlen.
  - destruct s; [|simpl in Hlen; lia]. simpl. by rewrite append_empty_r.
  - destruct s as [|a rest]; [simpl; by rewrite append_empty_r|].
    simpl in Hlen.
    change (split_go sep (String a rest) 0 cur)
      with (if String.prefix sep (String a rest)
            then cur :: split_go sep rest (String.length sep - 1) ""
            else split_go sep rest 0 (cur ++ String a "")%string).
    destruct (String.prefix sep (String a rest)) eqn:Hpre.
    + pose proof (prefix_split sep _ Hpre) as Hs.
      destruct sep as [|b sep']; [done|].
      rewrite append_cons in Hs. simpl in Hs. injection Hs as Ha Hrest.
      assert (Hk : (String.length sep' <= String.length rest)%nat).
      { rewrite Hrest, length_append. lia. }
      replace (String.length (String b sep') - 1)%nat with (String.length sep')
        by (simpl; lia).
      rewrite (split_go_skip (String b sep') rest (String.length sep') "" Hk).
      rewrite concat_cons by apply split_go_not_nil.
      rewrite IH.
      * rewrite append_empty_l, append_cons, <- Ha, <- Hrest. done.
      * assert (String.length rest
                = (String.length sep' + String.length (string_drop (String.length sep') rest))%nat)
          by (rewrite Hrest at 1; apply length_append).
        lia.
    + rewrite IH by lia. rewrite append_assoc, append_cons, append_empty_l. done.
Qed.

Lemma concat_explode_go : forall s more cur,
  String.concat "" (explode_go s more cur) = (cur ++ s)%string.
Proof.
  induction s as [|a rest IH]; intros more cur; simpl.
  - rewrite append_empty_r. by destruct (decide (cur = "")) as [->|].
  - destruct more as [|k].
    + specialize (IH (default 1%nat (rune_len (bytes (String a rest))) - 1)%nat
                     (String a "")).
      simpl in IH.
      rewrite append_cons, append_empty_l in IH.
      destruct (decide (cur = "")) as [->|Hcur]; [exact IH|].
      destruct (explode_go rest _ (String a "")) as [|x xs] eqn:E; [done|].
      rewrite concat_cons by done. rewrite IH. done.
    + rewrite IH, append_assoc, append_cons, append_empty_l. done.
Qed.

(** X9. The pieces Split returns, put back together with the separator,
    are the string that was split: the sub-messages of a frame and the
    fields of a sub-message lose and add nothing. *)
Theorem concat_Split (s sep : string) : String.concat sep (Split s sep) = s.
Proof.
  unfold Split. destruct (decide (sep = "")) as [->|Hsep].
  - by rewrite concat_explode_go.
  - by rewrite (concat_split_go sep Hsep (String.length s) s "").
Qed.

(** With a separator that is not empty Split returns a piece at least, so
    the test [len(msgFields) == 0] of [processMsg] never holds. *)
Lemma Split_nonempty (s sep : string) : sep <> "" -> Split s sep <> [].
Proof.
  intros Hsep. unfold Split. destruct (decide (sep = "")); [done|].
  apply split_go_not_nil.
Qed.

End GoTextFacts.

(** ** More on the party endpoint: what each command does to the tables *)

Module PartyFacts.

Import PartyDb PartyApi.

(** Party ids come from an auto-increment key: they are positive, and [0]
    is free to mean "in no party". *)
Definition ids_positive (db : Db) : Prop :=
  forall p, p ∈ parties db -> 0 < p_id p.

Section Facts.

Variable gameName : string.
Variable online : string -> bool.
Variable isValidSystem : string -> bool.
Variable partyListJson : Db -> result string.

(** The member row [readPlayerPartyId] looks for. *)
Definition row_of_player (db : Db) (u : string) (pm : MemberRow) : bool :=
  bool_decide (pm_uuid pm = u) && in_this_game gameName db pm.

Lemma find_filter_out {A} (f : A -> bool) (l : list A) :
  List.find f (List.filter (fun x => negb (f x)) l) = None.
Proof.
  induction l as [|x l IH]; simpl; [done|].
  destruct (f x) eqn:E; simpl; [done|]. by rewrite E.
Qed.

Lemma find_filter_other {A} (f g : A -> bool) (l : list A) :
  (forall x, f x = true -> g x = true) ->
  List.find f (List.filter g l) = List.find f l.
Proof.
  intros H. induction l as [|x l IH]; simpl; [done|].
  destruct (f x) eqn:E.
  - rewrite (H x E). simpl. by rewrite E.
  - destruct (g x); simpl; [by rewrite E|done].
Qed.

Lemma find_ext {A} (f g : A -> bool) (l : list A) :
  (forall x, f x = g x) -> List.find f l = List.find g l.
Proof.
  intros H. induction l as [|x l IH]; simpl; [done|]. by rewrite H, IH.
Qed.

Lemma find_snoc {A} (f : A -> bool) (l : list A) (x : A) :
  List.find f (l ++ [x]) =
  match List.find f l with
  | Some y => Some y
  | None => if f x then Some x else None
  end.
Proof.
  induction l as [|y l IH]; simpl; [done|]. destruct (f y); [done|exact IH].
Qed.

Lemma in_this_game_parties db db' pm :
  parties db' = parties db ->
  in_this_game gameName db' pm = in_this_game gameName db pm.
Proof. intros H. unfold in_this_game. by rewrite H. Qed.

(** Under positive ids, [readPlayerPartyId] is [0] exactly when the player
    has no member row in a party of this game. *)
Lemma readPlayerPartyId_zero db u :
  ids_positive db ->
  readPlayerPartyId gameName u db = 0 ->
  List.find (row_of_player db u) (partyMembers db) = None.
Proof.
  intros Hpos. unfold readPlayerPartyId.
  change (fun pm : MemberRow =>
            bool_decide (pm_uuid pm = u) && in_this_game gameName db pm)
    with (row_of_player db u).
  destruct (List.find (row_of_player db u) (partyMembers db)) as [pm|] eqn:E; [|done].
  intros Hz. exfalso.
  apply find_some in E as [_ E]. unfold row_of_player in E.
  apply andb_true_iff in E as [_ E]. unfold in_this_game in E.
  apply existsb_exists in E as (p & Hp & Hpid).
  apply andb_true_iff in Hpid as [Hpid _]. apply bool_decide_eq_true in Hpid.
  pose proof (Hpos p ltac:(by apply list_elem_of_In)). lia.
Qed.

(** After [clearPlayerParty] the player is in no party of this game, and
    every other player is where they were. *)
Lemma readPlayerPartyId_clear db u :
  readPlayerPartyId gameName u (clearPlayerParty gameName u db) = 0.
Proof.
  unfold readPlayerPartyId, clearPlayerParty. simpl.
  rewrite (find_ext _ (row_of_player db u)) by done.
  change (fun pm : MemberRow =>
            negb (bool_decide (pm_uuid pm = u) && in_this_game gameName db pm))
    with (fun pm => negb (row_of_player db u pm)).
  by rewrite find_filter_out.
Qed.

Lemma readPlayerPartyId_clear_other db u v :
  v <> u ->
  readPlayerPartyId gameName v (clearPlayerParty gameName u db)
  = readPlayerPartyId gameName v db.
Proof.
  intros Hne. unfold readPlayerPartyId, clearPlayerParty. simpl.
  rewrite (find_ext _ (row_of_player db v)) by done.
  rewrite find_filter_other; [done|].
  intros pm Hpm. unfold row_of_player in Hpm.
  apply andb_true_iff in Hpm as [Hv _]. apply bool_decide_eq_true in Hv.
  rewrite (bool_decide_eq_false_2 (pm_uuid pm = u)) by congruence. done.
Qed.

Lemma party_in_this_game db pid p u i :
  party_by_id pid db = Some p -> p_game p = gameName ->
  in_this_game gameName db {| pm_id := i; pm_partyId := pid; pm_uuid := u |} = true.
Proof.
  intros Hp Hg. unfold in_this_game. apply existsb_exists.
  unfold party_by_id in Hp. apply find_some in Hp as [Hin Hid].
  exists p. split; [done|]. simpl. rewrite Hid. simpl.
  by apply bool_decide_eq_true.
Qed.

(** After [createPlayerParty] into a party of this game, a player who was in
    none is in that party, and every other player is where they were. *)
Lemma readPlayerPartyId_create db pid p u :
  ids_positive db ->
  party_by_id pid db = Some p -> p_game p = gameName ->
  readPlayerPartyId gameName u db = 0 ->
  readPlayerPartyId gameName u (createPlayerParty pid u db) = pid.
Proof.
  intros Hpos Hp Hg Hz.
  pose proof (readPlayerPartyId_zero db u Hpos Hz) as Hnone.
  unfold readPlayerPartyId, createPlayerParty. simpl.
  rewrite (find_ext _ (row_of_player db u)) by done.
  rewrite find_snoc, Hnone. unfold row_of_player at 1. simpl.
  rewrite bool_decide_eq_true_2 by done. simpl.
  by rewrite (party_in_this_game db pid p u _ Hp Hg).
Qed.

Lemma readPlayerPartyId_create_other db pid u v :
  v <> u ->
  readPlayerPartyId gameName v (createPlayerParty pid u db)
  = readPlayerPartyId gameName v db.
Proof.
  intros Hne.
  change (readPlayerPartyId gameName v db)
    with (match List.find (row_of_player db v) (partyMembers db) with
          | Some pm => pm_partyId pm
          | None => 0
          end).
  unfold readPlayerPartyId, createPlayerParty. simpl.
  rewrite (find_ext _ (row_of_player db v)) by done.
  rewrite find_snoc.
  destruct (List.find (row_of_player db v) (partyMembers db)); [done|].
  unfold row_of_player. simpl.
  by rewrite (bool_decide_eq_false_2 (u = v)) by congruence.
Qed.

Local Notation "'serve_party'" :=
  (handleParty gameName online isValidSystem partyListJson).

(** X10. A kick by the owner of a member of the same party answers "ok" and
    deletes the target's membership: the target is then in no party, every
    other player (the owner, when the target is somebody else) is where they
    were, and no party row is touched. *)
Theorem kick_removes_target req db target :
  r_banned req = false ->
  param "command" req = Some "kick" ->
  readPlayerPartyId gameName (r_uuid req) db <> 0 ->
  readPartyOwnerUuid (readPlayerPartyId gameName (r_uuid req) db) db = Val (r_uuid req) ->
  param "player" req = Some target ->
  readPlayerPartyId gameName target db = readPlayerPartyId gameName (r_uuid req) db ->
  fst (serve_party req db) = ok fresh_reply /\
  readPlayerPartyId gameName target (snd (serve_party req db)) = 0 /\
  parties (snd (serve_party req db)) = parties db /\
  (forall v, v <> target ->
             readPlayerPartyId gameName v (snd (serve_party req db))
             = readPlayerPartyId gameName v db).
Proof.
  intros Hb Hcmd Hin Howner Htarget Hsame.
  rewrite (kick_by_owner_removes gameName online isValidSystem partyListJson
             req db target) by done.
  simpl. split; [done|]. split; [apply readPlayerPartyId_clear|]. split; [done|].
  intros v Hv. by apply readPlayerPartyId_clear_other.
Qed.

Lemma count_snoc db pid u pid' :
  readPartyMemberCount pid' (createPlayerParty pid u db)
  = readPartyMemberCount pid' db + (if bool_decide (pid = pid') then 1 else 0).
Proof.
  unfold readPartyMemberCount, createPlayerParty. simpl.
  rewrite List.filter_app, length_app. simpl.
  destruct (bool_decide (pid = pid')); simpl; lia.
Qed.

(** X11. A join that gets past the rank-0 password block, by a player who
    is in no party, into a party of this game: the reply is "ok", the player
    is a member of that party, the party has one member more, and neither
    the party rows (so the owner) nor where the other players are change. *)
Theorem join_adds_member req db partyIdParam pid p :
  ids_positive db ->
  r_banned req = false ->
  param "command" req = Some "join" ->
  param "partyId" req = Some partyIdParam ->
  atoi partyIdParam = Some pid ->
  party_by_id pid db = Some p -> p_game p = gameName ->
  join_check pid req db fresh_reply = inr fresh_reply ->
  readPlayerPartyId gameName (r_uuid req) db = 0 ->
  fst (serve_party req db) = ok fresh_reply /\
  readPlayerPartyId gameName (r_uuid req) (snd (serve_party req db)) = pid /\
  readPartyMemberCount pid (snd (serve_party req db)) = readPartyMemberCount pid db + 1 /\
  parties (snd (serve_party req db)) = parties db /\
  (forall v, v <> r_uuid req ->
             readPlayerPartyId gameName v (snd (serve_party req db))
             = readPlayerPartyId gameName v db).
Proof.
  intros Hpos Hb Hcmd Hid Hatoi Hp Hg Hcheck Hfree.
  rewrite (handleParty_join gameName online isValidSystem partyListJson
             req db partyIdParam) by done.
  rewrite Hatoi, Hcheck, Hfree. simpl.
  split; [done|]. split; [by apply (readPlayerPartyId_create db pid p)|].
  split; [rewrite count_snoc; by rewrite bool_decide_eq_true_2|].
  split; [done|]. intros v Hv. by apply readPlayerPartyId_create_other.
Qed.

Lemma handleParty_command req db :
  r_banned req = false ->
  serve_party req db =
  match param "command" req with
  | None => (handleError "command not specified" fresh_reply, db)
  | Some command =>
      if decide (command = "id") then
        (write (itoa (readPlayerPartyId gameName (r_uuid req) db)) fresh_reply, db)
      else if decide (command = "list") then
        match partyListJson db with
        | Err e => (handleInternalError e fresh_reply, db)
        | Val json => (write json fresh_reply, db)
        end
      else if decide (command = "description") then
        match param "partyId" req with
        | None => (handleError "partyId not specified" fresh_reply, db)
        | Some partyIdParam =>
            match atoi partyIdParam with
            | None => (handleError "invalid partyId value" fresh_reply, db)
            | Some partyId =>
                match readPartyDescription partyId db with
                | Err e => (handleInternalError e fresh_reply, db)
                | Val description => (write description fresh_reply, db)
                end
            end
        end
      else if decide (command = "create") then
        create_update_case gameName isValidSystem true req db
      else if decide (command = "update") then
        create_update_case gameName isValidSystem false req db
      else if decide (command = "join") then join_case gameName req db
      else if decide (command = "leave") then leave_case gameName online req db
      else if decide (command = "kick") then kick_transfer_case gameName true req db
      else if decide (command = "transfer") then kick_transfer_case gameName false req db
      else if decide (command = "disband") then disband_case gameName req db
      else (handleError "unknown command" fresh_reply, db)
  end.
Proof. intros Hb. unfold handleParty. by rewrite Hb. Qed.

Lemma party_by_id_filter_other pid pid' db ms :
  pid' <> pid ->
  party_by_id pid'
    (with_parties (List.filter (fun p => negb (bool_decide (p_id p = pid))) (parties db))
                  (with_members ms db))
  = party_by_id pid' db.
Proof.
  intros Hne. unfold party_by_id. simpl.
  apply find_filter_other. intros p Hp. apply bool_decide_eq_true in Hp.
  rewrite bool_decide_eq_false_2 by congruence. done.
Qed.

(** X12. A disband by the owner answers "ok" and removes the party row and
    every member row of that party; the rows of other parties and their
    members stay as they were. *)
Theorem disband_removes_party req db :
  r_banned req = false ->
  param "command" req = Some "disband" ->
  readPartyOwnerUuid (readPlayerPartyId gameName (r_uuid req) db) db = Val (r_uuid req) ->
  let pid := readPlayerPartyId gameName (r_uuid req) db in
  let db' := snd (serve_party req db) in
  fst (serve_party req db) = ok fresh_reply /\
  party_by_id pid db' = None /\
  readPartyMemberCount pid db' = 0 /\
  (forall pm, pm ∈ partyMembers db' <-> pm ∈ partyMembers db /\ pm_partyId pm <> pid) /\
  (forall pid', pid' <> pid ->
                party_by_id pid' db' = party_by_id pid' db /\
                readPartyMemberCount pid' db' = readPartyMemberCount pid' db).
Proof.
  intros Hb Hcmd Howner. simpl.
  rewrite handleParty_command, Hcmd by done. simpl.
  unfold disband_case. rewrite Howner.
  rewrite bool_decide_eq_true_2 by done. simpl.
  set (pid := readPlayerPartyId gameName (r_uuid req) db).
  split; [done|]. unfold deletePartyAndMembers.
  split; [apply party_by_id_deleted|].
  assert (Hmem : forall pm,
    In pm (List.filter (fun pm => negb (bool_decide (pm_partyId pm = pid))) (partyMembers db))
    <-> In pm (partyMembers db) /\ pm_partyId pm <> pid).
  { intros pm. rewrite filter_In, negb_true_iff, bool_decide_eq_false. done. }
  split.
  { unfold readPartyMemberCount. simpl.
    destruct (List.filter _ (List.filter _ (partyMembers db))) as [|pm rest] eqn:E; [done|].
    exfalso.
    assert (Hin : In pm (pm :: rest)) by (by left). rewrite <- E in Hin.
    apply filter_In in Hin as [Hin Hpid]. apply bool_decide_eq_true in Hpid.
    apply Hmem in Hin as [_ Hne]. done. }
  split.
  { intros pm. simpl. rewrite !list_elem_of_In. apply Hmem. }
  intros pid' Hne. split.
  - apply (party_by_id_filter_other pid pid' db); done.
  - unfold readPartyMemberCount. simpl. f_equal. f_equal.
    clear Hmem. induction (partyMembers db) as [|pm l IH]; simpl; [done|].
    destruct (bool_decide (pm_partyId pm = pid)) eqn:E1; simpl.
    + apply bool_decide_eq_true in E1.
      rewrite (bool_decide_eq_false_2 (pm_partyId pm = pid')) by congruence.
      exact IH.
    + destruct (bool_decide (pm_partyId pm = pid')); simpl; by rewrite IH.
Qed.

(** X13. A transfer by the owner to a member of the same party answers
    "ok" and makes the target the owner; no member row changes. *)
Theorem transfer_sets_owner req db target :
  r_banned req = false ->
  param "command" req = Some "transfer" ->
  readPlayerPartyId gameName (r_uuid req) db <> 0 ->
  readPartyOwnerUuid (readPlayerPartyId gameName (r_uuid req) db) db = Val (r_uuid req) ->
  param "player" req = Some target ->
  readPlayerPartyId gameName target db = readPlayerPartyId gameName (r_uuid req) db ->
  fst (serve_party req db) = ok fresh_reply /\
  readPartyOwnerUuid (readPlayerPartyId gameName (r_uuid req) db) (snd (serve_party req db))
  = Val target /\
  partyMembers (snd (serve_party req db)) = partyMembers db.
Proof.
  intros Hb Hcmd Hin Howner Htarget Hsame.
  rewrite handleParty_command, Hcmd by done. simpl.
  unfold kick_transfer_case.
  apply Z.eqb_neq in Hin. rewrite Hin, Howner.
  rewrite bool_decide_eq_true_2 by done. simpl. rewrite Htarget, Hsame.
  rewrite Z.eqb_refl. simpl. split; [done|]. split; [|done].
  unfold readPartyOwnerUuid in Howner.
  destruct (party_by_id (readPlayerPartyId gameName (r_uuid req) db) db) as [p|] eqn:Hp;
    [|done].
  by apply (owner_after_setPartyOwner _ target db p).
Qed.

Lemma find_ext_in {A} (f g : A -> bool) (l : list A) :
  (forall x, In x l -> f x = g x) -> List.find f l = List.find g l.
Proof.
  induction l as [|x l IH]; intros H; simpl; [done|].
  rewrite (H x) by (by left). rewrite IH; [done|].
  intros y Hy. apply H. by right.
Qed.

Lemma find_all_false {A} (f : A -> bool) (l : list A) :
  (forall x, In x l -> f x = false) -> List.find f l = None.
Proof.
  induction l as [|x l IH]; intros H; simpl; [done|].
  rewrite (H x) by (by left). apply IH. intros y Hy. apply H. by right.
Qed.

(** A party row that is new to the table makes no difference to member rows
    that do not name it. *)
Lemma in_this_game_new_party db row pm :
  pm_partyId pm <> p_id row ->
  in_this_game gameName (with_parties (parties db ++ [row]) db) pm
  = in_this_game gameName db pm.
Proof.
  intros Hne. unfold in_this_game. simpl. rewrite existsb_app. simpl.
  rewrite (bool_decide_eq_false_2 (p_id row = pm_partyId pm)) by congruence.
  simpl. by rewrite !orb_false_r.
Qed.

(** X14. A create by a player who is in no party, with a name of at most 255
    bytes, a pass of at most 255 bytes if any and a valid theme, when the
    next party id is positive and not in use: the reply is that id, the new
    party row has the requester as its owner and the name asked for, it is
    public exactly when the parameter public is there, a public party stores
    the empty password whatever pass was sent, and the requester is its one
    member. *)
Theorem create_founds_party req db name theme :
  ids_positive db ->
  0 < next_party_id db ->
  party_by_id (next_party_id db) db = None ->
  readPartyMemberCount (next_party_id db) db = 0 ->
  r_banned req = false ->
  param "command" req = Some "create" ->
  readPlayerPartyId gameName (r_uuid req) db = 0 ->
  param "name" req = Some name -> (String.length name <= 255)%nat ->
  (forall pass, param "pass" req = Some pass -> (String.length pass <= 255)%nat) ->
  param "theme" req = Some theme -> isValidSystem theme = true ->
  let newId := next_party_id db in
  let db' := snd (serve_party req db) in
  fst (serve_party req db) = write (itoa newId) fresh_reply /\
  readPlayerPartyId gameName (r_uuid req) db' = newId /\
  readPartyMemberCount newId db' = 1 /\
  exists p,
    party_by_id newId db' = Some p /\
    p_owner p = Some (r_uuid req) /\ p_game p = gameName /\ p_name p = name /\
    p_public p = bool_decide (is_Some (param "public" req)) /\
    (p_public p = true -> p_pass p = "") /\
    (p_public p = false -> p_pass p = default "" (param "pass" req)).
Proof.
  intros Hpos Hnext Hfresh Hnomem Hb Hcmd Hfree Hname Hlen Hpass Htheme Hvalid. simpl.
  rewrite handleParty_command, Hcmd by done. simpl.
  unfold create_update_case. rewrite Hfree. simpl. rewrite Hname.
  apply Nat.leb_le in Hlen. rewrite Nat.ltb_antisym, Hlen. simpl.
  set (public := bool_decide (is_Some (param "public" req))).
  set (pass_or_err :=
         if negb public then
           match param "pass" req with
           | Some pass => if (255 <? String.length pass)%nat then None else Some pass
           | None => Some ""
           end
         else Some "").
  assert (Hpe : exists pass, pass_or_err = Some pass /\
                             (public = true -> pass = "") /\
                             (public = false -> pass = default "" (param "pass" req))).
  { unfold pass_or_err. destruct public; simpl.
    - exists "". by repeat split.
    - destruct (param "pass" req) as [pass|] eqn:E.
      + specialize (Hpass pass eq_refl). apply Nat.leb_le in Hpass.
        rewrite Nat.ltb_antisym, Hpass. simpl. exists pass. by repeat split.
      + exists "". by repeat split. }
  destruct Hpe as (pass & -> & Hpub & Hpriv).
  rewrite Htheme, Hvalid. simpl.
  set (row := {| p_id := next_party_id db; p_game := gameName;
                 p_owner := Some (r_uuid req); p_name := name; p_public := public;
                 p_pass := pass; p_theme := theme;
                 p_description := default "" (param "description" req) |}).
  set (db1 := {| parties := parties db ++ [row]; partyMembers := partyMembers db;
                 players := players db; next_party_id := next_party_id db + 1;
                 next_member_id := next_member_id db |}).
  assert (Hrow : party_by_id (next_party_id db) db1 = Some row).
  { unfold party_by_id in *. simpl. rewrite find_snoc, Hfresh. simpl.
    by rewrite bool_decide_eq_true_2. }
  assert (Hnone : forall pm, In pm (partyMembers db) ->
                             pm_partyId pm <> next_party_id db).
  { intros pm Hin Heq. unfold readPartyMemberCount in Hnomem.
    destruct (List.filter _ (partyMembers db)) as [|x l] eqn:E; [|done].
    assert (Hx : In pm (List.filter
                          (fun pm => bool_decide (pm_partyId pm = next_party_id db))
                          (partyMembers db))).
    { apply filter_In. split; [done|]. by apply bool_decide_eq_true. }
    by rewrite E in Hx. }
  split; [done|]. split; [|split].
  - apply (readPlayerPartyId_create db1 (next_party_id db) row); try done.
    + intros p Hp. apply list_elem_of_In in Hp. simpl in Hp.
      apply in_app_iff in Hp as [Hp|[<-|[]]]; [|done].
      apply Hpos. by apply list_elem_of_In.
    + pose proof (readPlayerPartyId_zero db (r_uuid req) Hpos Hfree) as Hz.
      unfold readPlayerPartyId. simpl.
      rewrite (find_ext_in _ (row_of_player db (r_uuid req))); [by rewrite Hz|].
      intros pm Hin. unfold row_of_player. f_equal.
      apply (in_this_game_new_party db row pm). by apply Hnone.
  - rewrite count_snoc. rewrite bool_decide_eq_true_2 by done.
    change (readPartyMemberCount (next_party_id db) db1)
      with (readPartyMemberCount (next_party_id db) db).
    rewrite Hnomem. done.
  - exists row. split; [exact Hrow|]. by repeat split.
Qed.

(** Member rows that were in no party of this game stay so when party rows
    go or change their owner only. *)
Lemma in_this_game_fewer db db' pm :
  (forall p', In p' (parties db') ->
              exists p, In p (parties db) /\ p_id p = p_id p' /\ p_game p = p_game p') ->
  in_this_game gameName db' pm = true -> in_this_game gameName db pm = true.
Proof.
  intros Hsub. unfold in_this_game. rewrite !existsb_exists.
  intros (p' & Hin & Hp'). destruct (Hsub p' Hin) as (p & Hp & Hid & Hg).
  exists p. split; [done|]. by rewrite Hid, Hg.
Qed.

(** X15. A leave by a player who is in a party whose owner can be read
    answers "ok", and afterwards the player is in no party of this game,
    whichever of the three ways the request ends (party deleted, owner
    reassigned, or neither). *)
Theorem leave_clears_membership req db owner :
  r_banned req = false ->
  param "command" req = Some "leave" ->
  readPlayerPartyId gameName (r_uuid req) db <> 0 ->
  readPartyOwnerUuid (readPlayerPartyId gameName (r_uuid req) db) db = Val owner ->
  fst (serve_party req db) = ok fresh_reply /\
  readPlayerPartyId gameName (r_uuid req) (snd (serve_party req db)) = 0 /\
  partyMembers (snd (serve_party req db))
  = partyMembers (clearPlayerParty gameName (r_uuid req) db).
Proof.
  intros Hb Hcmd Hin Howner.
  rewrite handleParty_command, Hcmd by done. simpl.
  unfold leave_case. apply Z.eqb_neq in Hin. rewrite Hin.
  unfold handlePartyMemberLeave. rewrite Howner.
  set (pid := readPlayerPartyId gameName (r_uuid req) db).
  set (db1 := clearPlayerParty gameName (r_uuid req) db).
  assert (Hgone : forall db',
    partyMembers db' = partyMembers db1 ->
    (forall p', In p' (parties db') ->
                exists p, In p (parties db) /\ p_id p = p_id p' /\ p_game p = p_game p') ->
    readPlayerPartyId gameName (r_uuid req) db' = 0).
  { intros db' Hm Hsub. unfold readPlayerPartyId. rewrite Hm.
    rewrite find_all_false; [done|].
    intros pm Hpm. unfold db1, clearPlayerParty in Hpm. simpl in Hpm.
    apply filter_In in Hpm as [_ Hpm]. apply negb_true_iff in Hpm.
    destruct (bool_decide (pm_uuid pm = r_uuid req)); [|done]. simpl in *.
    destruct (in_this_game gameName db' pm) eqn:E; [|done].
    apply (in_this_game_fewer db db' pm Hsub) in E. congruence. }
  unfold checkDeleteOrphanedParty.
  destruct (readPartyMemberCount pid db1 =? 0); simpl.
  - split; [done|]. split; [|done]. apply Hgone; [done|].
    intros p' Hp'. simpl in Hp'. apply filter_In in Hp' as [Hp' _]. by exists p'.
  - destruct (bool_decide (r_uuid req = owner)); simpl.
    + split; [done|]. unfold assumeNextPartyOwner.
      destruct (negb (bool_decide (default "" (List.find online
                  (readPartyMemberUuids pid db1)) = ""))).
      * split; [|done]. apply Hgone; [done|].
        intros p' Hp'. unfold setPartyOwner in Hp'. simpl in Hp'.
        apply in_map_iff in Hp' as (p & <- & Hp).
        exists p. split; [exact Hp|]. by destruct (bool_decide (p_id p = pid)).
      * split; [|done]. apply Hgone; [done|].
        intros p' Hp'. unfold setPartyOwnerToFirstListed in Hp'. simpl in Hp'.
        apply in_map_iff in Hp' as (p & <- & Hp).
        exists p. split; [exact Hp|]. by destruct (bool_decide (p_id p = pid)).
    + split; [done|]. split; [|done]. apply Hgone; [done|].
      intros p' Hp'. by exists p'.
Qed.

(** The status the response ends with. *)
Definition status_of (out : Reply * Db) : option Z := status (fst (fst out)).

(** A join that gets past the password check has written nothing yet: the
    read of the password cannot fail once the read of the public flag of the
    same row went through. *)
Lemma join_check_inr partyId req db r r1 :
  join_check partyId req db r = inr r1 -> r1 = r.
Proof.
  unfold join_check, readPartyPublic, readPartyPass.
  destruct (r_rank req =? 0); [|by intros [= <-]].
  destruct (party_by_id partyId db) as [p|]; [|done].
  destruct (negb (p_public p)); [|by intros [= <-]].
  destruct (param "pass" req) as [pass|]; [|done].
  destruct (negb (bool_decide (p_pass p = "")) && negb (bool_decide (pass = p_pass p)));
    [done|by intros [= <-]].
Qed.

Lemma create_update_case_refused create req db :
  status_of (create_update_case gameName isValidSystem create req db) <> Some 200 ->
  snd (create_update_case gameName isValidSystem create req db) = db.
Proof.
  unfold status_of, create_update_case.
  repeat match goal with
         | |- context [match ?x with _ => _ end] => destruct x eqn:?; simpl
         end; try done; intros H; by destruct H.
Qed.

Lemma join_case_refused req db :
  status_of (join_case gameName req db) <> Some 200 -> snd (join_case gameName req db) = db.
Proof.
  unfold status_of, join_case.
  destruct (param "partyId" req) as [partyIdParam|]; [|done].
  destruct (atoi partyIdParam) as [partyId|]; [|done].
  destruct (join_check partyId req db fresh_reply) as [out|r1] eqn:E; [done|].
  apply join_check_inr in E as ->.
  destruct (0 <? readPlayerPartyId gameName (r_uuid req) db); [done|].
  simpl. intros H. by destruct H.
Qed.

Lemma leave_case_refused req db :
  status_of (leave_case gameName online req db) <> Some 200 ->
  snd (leave_case gameName online req db) = db.
Proof.
  unfold status_of, leave_case.
  destruct (readPlayerPartyId gameName (r_uuid req) db =? 0); [done|].
  destruct (handlePartyMemberLeave _ _ _ _ _); [|done].
  simpl. intros H. by destruct H.
Qed.

Lemma kick_transfer_case_refused kick req db :
  status_of (kick_transfer_case gameName kick req db) <> Some 200 ->
  snd (kick_transfer_case gameName kick req db) = db.
Proof.
  unfold status_of, kick_transfer_case.
  repeat match goal with
         | |- context [match ?x with _ => _ end] => destruct x eqn:?; simpl
         end; try done; intros H; by destruct H.
Qed.

Lemma disband_case_refused req db :
  status_of (disband_case gameName req db) <> Some 200 ->
  snd (disband_case gameName req db) = db.
Proof.
  unfold status_of, disband_case.
  repeat match goal with
         | |- context [match ?x with _ => _ end] => destruct x eqn:?; simpl
         end; try done; intros H; by destruct H.
Qed.

(** Case by case: with queries that fail for missing rows only, the branches
    that do not answer with the status 200 return before the writes of their
    case. *)
Lemma not_ok_unchanged req db :
  status_of (serve_party req db) <> Some 200 \/
  (exists c, param "command" req = Some c /\ c ∈ ["id"; "list"; "description"]) ->
  snd (serve_party req db) = db.
Proof.
  intros H. unfold handleParty in *.
  destruct (r_banned req); [done|].
  destruct (param "command" req) as [command|]; [|done].
  destruct (decide (command = "id")); [done|].
  destruct (decide (command = "list")); [by destruct (partyListJson db)|].
  destruct (decide (command = "description")).
  { destruct (param "partyId" req) as [i|]; [|done].
    destruct (atoi i) as [partyId|]; [|done].
    by destruct (readPartyDescription partyId db). }
  destruct H as [H|(c & [= <-] & Hc)].
  2: { repeat (apply elem_of_cons in Hc as [->|Hc]; [done|]).
       by apply elem_of_nil in Hc. }
  destruct (decide (command = "create")); [by apply create_update_case_refused|].
  destruct (decide (command = "update")); [by apply create_update_case_refused|].
  destruct (decide (command = "join")); [by apply join_case_refused|].
  destruct (decide (command = "leave")); [by apply leave_case_refused|].
  destruct (decide (command = "kick")); [by apply kick_transfer_case_refused|].
  destruct (decide (command = "transfer")); [by apply kick_transfer_case_refused|].
  destruct (decide (command = "disband")); [by apply disband_case_refused|].
  done.
Qed.

(** The reply of a request that one of the checks of [handleParty] turns
    down: the 401 of the password check, or one [handleError] with a message
    of the handler, on a response nothing else was written to.  The reply of
    [handleInternalError], which follows an error of the database, is not
    among them. *)
Definition refused_by_check (r : Reply) : Prop :=
  r = unauthorized fresh_reply \/
  exists payload, payload <> "400 - Bad Request" /\ r = handleError payload fresh_reply.

(** X16. A party request that one of the checks of [handleParty] turns down
    has written no party row and no member row: every [handleError] of the
    handler and the 401 of the password check come before the first write
    of their case.  The commands "id", "list" and "description" write none
    either, whatever they answer.  Nothing is said of the replies of
    [handleInternalError], which may follow a write. *)
Theorem request_refused_by_check_writes_nothing req db :
  refused_by_check (fst (serve_party req db)) \/
  (exists c, param "command" req = Some c /\ c ∈ ["id"; "list"; "description"]) ->
  parties (snd (serve_party req db)) = parties db /\
  partyMembers (snd (serve_party req db)) = partyMembers db.
Proof.
  intros H.
  assert (Hsame : snd (serve_party req db) = db); [|by rewrite Hsame].
  apply not_ok_unchanged. destruct H as [Hcheck|Hread]; [left|by right].
  unfold status_of. destruct Hcheck as [->|(payload & _ & ->)]; simpl; discriminate.
Qed.

End Facts.

(** The theorems at the tables of the examples: the party 1 of A with the
    members A, B, C and D, for the game "2kki" with nobody online. *)

Lemma ids_positive_db0 : ids_positive db0.
Proof. intros p Hp. apply list_elem_of_In in Hp. destruct Hp. Qed.

Lemma ids_positive_db_four : ids_positive db_four.
Proof.
  intros p Hp. apply list_elem_of_In in Hp. vm_compute in Hp.
  destruct Hp as [<-|[]]. reflexivity.
Qed.

Definition kick_B : Request := request "A" 0 [("command", "kick"); ("player", "B")].

Lemma kick_removes_target_witness :
  fst (serve [] kick_B db_four) = ok fresh_reply /\
  readPlayerPartyId "2kki" "B" (snd (serve [] kick_B db_four)) = 0 /\
  readPlayerPartyId "2kki" "D" (snd (serve [] kick_B db_four)) = 1.
Proof.
  set (req := kick_B).
  destruct (kick_removes_target "2kki" (fun u => bool_decide (u ∈ [])) (fun _ => true)
              (fun _ => Val "[]") req db_four "B") as (Hok & Hgone & _ & Hrest).
  - reflexivity.
  - vm_compute. reflexivity.
  - vm_compute. discriminate.
  - vm_compute. reflexivity.
  - vm_compute. reflexivity.
  - vm_compute. reflexivity.
  - split; [exact Hok|]. split; [exact Hgone|].
    unfold serve. rewrite (Hrest "D") by discriminate. vm_compute. reflexivity.
Defined.

Definition db_public : Db := snd (serve [] (create_public "A") db0).

Lemma join_adds_member_witness :
  fst (serve [] (join "B" 0 "1" []) db_public) = ok fresh_reply /\
  readPlayerPartyId "2kki" "B" (snd (serve [] (join "B" 0 "1" []) db_public)) = 1 /\
  readPartyMemberCount 1 (snd (serve [] (join "B" 0 "1" []) db_public)) = 2.
Proof.
  set (req := join "B" 0 "1" []). set (db := db_public).
  destruct (join_adds_member "2kki" (fun u => bool_decide (u ∈ [])) (fun _ => true)
              (fun _ => Val "[]") req db "1" 1
              {| p_id := 1; p_game := "2kki"; p_owner := Some "A"; p_name := "Explorers";
                 p_public := true; p_pass := ""; p_theme := "system";
                 p_description := "" |})
    as (Hok & Hin & Hcount & _).
  - intros p Hp. apply list_elem_of_In in Hp. vm_compute in Hp.
    destruct Hp as [<-|[]]. reflexivity.
  - reflexivity.
  - vm_compute. reflexivity.
  - vm_compute. reflexivity.
  - vm_compute. reflexivity.
  - vm_compute. reflexivity.
  - reflexivity.
  - vm_compute. reflexivity.
  - vm_compute. reflexivity.
  - split; [exact Hok|]. split; [exact Hin|].
    unfold serve. rewrite Hcount. vm_compute. reflexivity.
Defined.

Lemma create_founds_party_witness :
  fst (serve [] (create_private "A" "xyz") db0) = write "1" fresh_reply /\
  readPlayerPartyId "2kki" "A" (snd (serve [] (create_private "A" "xyz") db0)) = 1 /\
  readPartyMemberCount 1 (snd (serve [] (create_private "A" "xyz") db0)) = 1 /\
  readPartyOwnerUuid 1 (snd (serve [] (create_private "A" "xyz") db0)) = Val "A".
Proof.
  set (req := create_private "A" "xyz").
  destruct (create_founds_party "2kki" (fun u => bool_decide (u ∈ [])) (fun _ => true)
              (fun _ => Val "[]") req db0 "Explorers" "system")
    as (Hreply & Hin & Hcount & p & Hp & Howner & _).
  - apply ids_positive_db0.
  - reflexivity.
  - reflexivity.
  - reflexivity.
  - reflexivity.
  - vm_compute. reflexivity.
  - vm_compute. reflexivity.
  - vm_compute. reflexivity.
  - vm_compute. lia.
  - intros pass Hpass. vm_compute in Hpass. injection Hpass as <-. vm_compute. lia.
  - vm_compute. reflexivity.
  - reflexivity.
  - split; [exact Hreply|]. split; [exact Hin|]. split; [exact Hcount|].
    change (party_by_id 1 (snd (serve [] req db0)) = Some p) in Hp.
    unfold readPartyOwnerUuid. rewrite Hp, Howner. reflexivity.
Defined.

Definition disband_A : Request := request "A" 0 [("command", "disband")].

Lemma disband_removes_party_witness :
  fst (serve [] disband_A db_four) = ok fresh_reply /\
  party_by_id 1 (snd (serve [] disband_A db_four)) = None /\
  readPartyMemberCount 1 (snd (serve [] disband_A db_four)) = 0.
Proof.
  set (req := disband_A).
  destruct (disband_removes_party "2kki" (fun u => bool_decide (u ∈ [])) (fun _ => true)
              (fun _ => Val "[]") req db_four) as (Hok & Hparty & Hcount & _).
  - reflexivity.
  - vm_compute. reflexivity.
  - vm_compute. reflexivity.
  - split; [exact Hok|]. split; [exact Hparty|exact Hcount].
Defined.

Definition transfer_to_D : Request :=
  request "A" 0 [("command", "transfer"); ("player", "D")].

Lemma transfer_sets_owner_witness :
  fst (serve [] transfer_to_D db_four) = ok fresh_reply /\
  readPartyOwnerUuid 1 (snd (serve [] transfer_to_D db_four)) = Val "D".
Proof.
  set (req := transfer_to_D).
  destruct (transfer_sets_owner "2kki" (fun u => bool_decide (u ∈ [])) (fun _ => true)
              (fun _ => Val "[]") req db_four "D") as (Hok & Howner & _).
  - reflexivity.
  - vm_compute. reflexivity.
  - vm_compute. discriminate.
  - vm_compute. reflexivity.
  - vm_compute. reflexivity.
  - vm_compute. reflexivity.
  - split; [exact Hok|exact Howner].
Defined.

(** B, who is not the owner, asks to disband the party. *)
Definition disband_B : Request := request "B" 0 [("command", "disband")].

Lemma request_refused_by_check_writes_nothing_witness :
  fst (serve [] disband_B db_four)
  = handleError "attempted party disband from non-owner" fresh_reply /\
  parties (snd (serve [] disband_B db_four)) = parties db_four /\
  partyMembers (snd (serve [] disband_B db_four)) = partyMembers db_four.
Proof.
  assert (Hreply : fst (serve [] disband_B db_four)
                   = handleError "attempted party disband from non-owner" fresh_reply)
    by (vm_compute; reflexivity).
  split; [exact Hreply|].
  apply (request_refused_by_check_writes_nothing "2kki" (fun u => bool_decide (u ∈ []))
           (fun _ => true) (fun _ => Val "[]") disband_B db_four).
  left. right. exists "attempted party disband from non-owner".
  split; [discriminate|exact Hreply].
Defined.

Definition leave_A : Request := request "A" 0 [("command", "leave")].

Lemma leave_clears_membership_witness :
  fst (serve ["B"; "D"] leave_A db_four) = ok fresh_reply /\
  readPlayerPartyId "2kki" "A" (snd (serve ["B"; "D"] leave_A db_four)) = 0.
Proof.
  set (req := leave_A).
  destruct (leave_clears_membership "2kki" (fun u => bool_decide (u ∈ ["B"; "D"]))
              (fun _ => true) (fun _ => Val "[]") req db_four "A") as (Hok & Hgone & _).
  - reflexivity.
  - vm_compute. reflexivity.
  - vm_compute. discriminate.
  - vm_compute. reflexivity.
  - split; [exact Hok|exact Hgone].
Defined.

End PartyFacts.

(** ** Moderation: [readPlayerRank], [tryBanPlayer], [tryMutePlayer] and
    [tryUnmutePlayer] of [src/database.go] *)

Module Moderation.

Import Chan Registry RegistryFacts.

(** A row of [players]. *)
Record PlayerData : Type := {
  pl_uuid : string;
  pl_rank : Z;
  pl_banned : bool;
  pl_muted : bool
}.

(** What the three functions read and write: the table [players], the
    session with the global [sessionClients], the global [hubClients], and
    the clients sent on the [unregister] channels of the hubs and of the
    session, in the order of the sends. *)
Record World : Type := {
  players : list PlayerData;
  session : Session;
  hubClients : gmap string positive;
  hub_unregister : list positive;
  session_unregister : list ptr
}.

Definition with_banned (b : bool) (r : PlayerData) : PlayerData :=
  {| pl_uuid := pl_uuid r; pl_rank := pl_rank r; pl_banned := b; pl_muted := pl_muted r |}.

Definition with_muted (m : bool) (r : PlayerData) : PlayerData :=
  {| pl_uuid := pl_uuid r; pl_rank := pl_rank r; pl_banned := pl_banned r; pl_muted := m |}.

(** [UPDATE players SET ... WHERE uuid = ?]. *)
Definition update_players (f : PlayerData -> PlayerData) (uuid : string) (w : World)
  : World :=
  {| players := map (fun r => if bool_decide (pl_uuid r = uuid) then f r else r) (players w);
     session := session w; hubClients := hubClients w;
     hub_unregister := hub_unregister w; session_unregister := session_unregister w |}.

(** [client.muted = m]. *)
Definition client_muted (m : bool) (c : SessionClient) : SessionClient :=
  {| send := send c; ip := ip c; id := id c; online := online c;
     account := account c; name := name c; uuid := uuid c; rank := rank c;
     badge := badge c; muted := m; accessType := accessType c;
     spriteName := spriteName c; spriteIndex := spriteIndex c;
     systemName := systemName c |}.

Definition with_session (s : Session) (w : World) : World :=
  {| players := players w; session := s; hubClients := hubClients w;
     hub_unregister := hub_unregister w; session_unregister := session_unregister w |}.

(** [readPlayerRank]: the rank of the connected client if there is one, else
    the row of the table, else [0]. *)
Definition readPlayerRank (uuid : string) (w : World) : Z :=
  match sessionClients (session w) !! uuid with
  | Some p => rank (deref (session w) p)
  | None =>
      match List.find (fun r => bool_decide (pl_uuid r = uuid)) (players w) with
      | Some r => pl_rank r
      | None => 0
      end
  end.

(** [tryBanPlayer]. *)
Definition tryBanPlayer (senderUuid recipientUuid : string) (w : World)
  : PartyDb.result World :=
  if readPlayerRank senderUuid w <=? readPlayerRank recipientUuid w then
    PartyDb.Err "insufficient rank"
  else if bool_decide (senderUuid = recipientUuid) then
    PartyDb.Err "attempted self-ban"
  else
    let w1 := update_players (with_banned true) recipientUuid w in
    let w2 :=
      match hubClients w1 !! recipientUuid with
      | Some client =>
          {| players := players w1; session := session w1; hubClients := hubClients w1;
             hub_unregister := hub_unregister w1 ++ [client];
             session_unregister := session_unregister w1 |}
      | None => w1
      end in
    let w3 :=
      match sessionClients (session w2) !! recipientUuid with
      | Some client =>
          {| players := players w2; session := session w2; hubClients := hubClients w2;
             hub_unregister := hub_unregister w2;
             session_unregister := session_unregister w2 ++ [client] |}
      | None => w2
      end in
    PartyDb.Val w3.

(** The common body of [tryMutePlayer] and [tryUnmutePlayer], which differ in
    the flag and in the text of the second error. *)
Definition set_muted (m : bool) (self_error : string) (senderUuid recipientUuid : string)
           (w : World) : PartyDb.result World :=
  if readPlayerRank senderUuid w <=? readPlayerRank recipientUuid w then
    PartyDb.Err "insufficient rank"
  else if bool_decide (senderUuid = recipientUuid) then
    PartyDb.Err self_error
  else
    let w1 := update_players (with_muted m) recipientUuid w in
    match sessionClients (session w1) !! recipientUuid with
    | Some client =>
        PartyDb.Val (with_session
                       (set_client client (client_muted m (deref (session w1) client))
                                   (session w1)) w1)
    | None => PartyDb.Val w1
    end.

(** [tryMutePlayer]. *)
Definition tryMutePlayer : string -> string -> World -> PartyDb.result World :=
  set_muted true "attempted self-mute".

(** [tryUnmutePlayer]. *)
Definition tryUnmutePlayer : string -> string -> World -> PartyDb.result World :=
  set_muted false "attempted self-unmute".

(** The player [u] is muted, or not, in every row of the table and in the
    client of the session if there is one. *)
Definition muted_is (m : bool) (u : string) (w : World) : Prop :=
  (forall r, r ∈ players w -> pl_uuid r = u -> pl_muted r = m) /\
  (forall p, sessionClients (session w) !! u = Some p -> muted (deref (session w) p) = m).

(** *** Properties *)

(** X17. The checks against moderating oneself never fire: the comparison of
    the ranks comes first and refuses equal ranks, so a player who names
    themselves is told "insufficient rank", and none of the three functions
    ever returns its "attempted self-..." error. *)
Theorem self_checks_never_fire senderUuid recipientUuid w :
  (senderUuid = recipientUuid ->
   tryBanPlayer senderUuid recipientUuid w = PartyDb.Err "insufficient rank" /\
   tryMutePlayer senderUuid recipientUuid w = PartyDb.Err "insufficient rank" /\
   tryUnmutePlayer senderUuid recipientUuid w = PartyDb.Err "insufficient rank") /\
  tryBanPlayer senderUuid recipientUuid w <> PartyDb.Err "attempted self-ban" /\
  tryMutePlayer senderUuid recipientUuid w <> PartyDb.Err "attempted self-mute" /\
  tryUnmutePlayer senderUuid recipientUuid w <> PartyDb.Err "attempted self-unmute".
Proof.
  unfold tryMutePlayer, tryUnmutePlayer, set_muted, tryBanPlayer.
  split.
  - intros <-. rewrite Z.leb_refl. done.
  - destruct (decide (senderUuid = recipientUuid)) as [<-|Hne].
    + rewrite Z.leb_refl. done.
    + rewrite (bool_decide_eq_false_2 _ Hne).
      destruct (readPlayerRank senderUuid w <=? readPlayerRank recipientUuid w);
        [done|].
      repeat split; simpl; repeat case_match; discriminate.
Qed.

Lemma readPlayerRank_update_players f u v w :
  (forall r, pl_rank (f r) = pl_rank r) -> (forall r, pl_uuid (f r) = pl_uuid r) ->
  readPlayerRank v (update_players f u w) = readPlayerRank v w.
Proof.
  intros Hrank Huuid. unfold readPlayerRank. simpl.
  destruct (sessionClients (session w) !! v); [done|].
  induction (players w) as [|r l IH]; simpl; [done|].
  destruct (bool_decide (pl_uuid r = u)); simpl.
  - rewrite Huuid. destruct (bool_decide (pl_uuid r = v)); [by rewrite Hrank|done].
  - destruct (bool_decide (pl_uuid r = v)); done.
Qed.

Lemma deref_set_client s p c q :
  deref (set_client p c s) q = if decide (p = q) then c else deref s q.
Proof.
  unfold deref, set_client. simpl.
  destruct (decide (p = q)) as [->|Hne].
  - by rewrite lookup_total_insert_eq.
  - by rewrite lookup_total_insert_ne.
Qed.

(** What a muting or unmuting by a player of higher rank does. *)
Lemma set_muted_spec m self_error a b w :
  readPlayerRank b w < readPlayerRank a w ->
  exists w',
    set_muted m self_error a b w = PartyDb.Val w' /\
    muted_is m b w' /\
    (forall u, readPlayerRank u w' = readPlayerRank u w) /\
    sessionClients (session w') = sessionClients (session w) /\
    players w' = map (fun r => if bool_decide (pl_uuid r = b) then with_muted m r else r)
                     (players w) /\
    session w' = match sessionClients (session w) !! b with
                 | Some p => set_client p (client_muted m (deref (session w) p)) (session w)
                 | None => session w
                 end /\
    hubClients w' = hubClients w /\ hub_unregister w' = hub_unregister w /\
    session_unregister w' = session_unregister w.
Proof.
  intros Hrank. unfold set_muted.
  rewrite (proj2 (Z.leb_gt _ _)) by done.
  assert (Hne : a <> b) by (intros ->; lia).
  rewrite (bool_decide_eq_false_2 _ Hne).
  assert (Hrows : forall r,
             r ∈ map (fun r => if bool_decide (pl_uuid r = b) then with_muted m r else r)
                     (players w) ->
             pl_uuid r = b -> pl_muted r = m).
  { intros r Hr Hu. apply list_elem_of_In, in_map_iff in Hr as (r0 & <- & _).
    destruct (bool_decide (pl_uuid r0 = b)) eqn:E; [done|].
    apply bool_decide_eq_false in E. by destruct E. }
  change (session (update_players (with_muted m) b w)) with (session w).
  destruct (sessionClients (session w) !! b) as [p|] eqn:Ep.
  - eexists. split; [done|]. repeat split; try done.
    + intros q Hq. simpl in Hq. rewrite Ep in Hq. injection Hq as <-.
      simpl. rewrite deref_set_client. by destruct (decide (p = p)).
    + intros u. unfold readPlayerRank at 1. simpl.
      rewrite <- (readPlayerRank_update_players (with_muted m) b u w) by done.
      unfold readPlayerRank. simpl.
      destruct (sessionClients (session w) !! u) as [q|]; [|done].
      rewrite deref_set_client. by destruct (decide (p = q)) as [<-|].
  - eexists. split; [done|]. repeat split; try done.
    + intros q Hq. simpl in Hq. congruence.
    + intros u. by apply readPlayerRank_update_players.
Qed.

(** X18. A mute by a player of higher rank marks the recipient as muted in
    every row of the table and in the connected client, and leaves every
    rank as it was, so that the unmute by the same player goes through as
    well and clears both; if the recipient was not muted before, and the
    client of a connected recipient is allocated, the two calls together
    change nothing at all. *)
Theorem mute_then_unmute a b w :
  readPlayerRank b w < readPlayerRank a w ->
  exists w1 w2,
    tryMutePlayer a b w = PartyDb.Val w1 /\ muted_is true b w1 /\
    tryUnmutePlayer a b w1 = PartyDb.Val w2 /\ muted_is false b w2 /\
    (muted_is false b w ->
     (forall p, sessionClients (session w) !! b = Some p -> p ∈ dom (heap (session w))) ->
     w2 = w).
Proof.
  intros Hrank. unfold tryMutePlayer, tryUnmutePlayer.
  destruct (set_muted_spec true "attempted self-mute" a b w Hrank)
    as (w1 & E1 & Hm1 & Hr1 & Hsc1 & Hp1 & Hs1 & Hh1 & Hu1 & Hq1).
  assert (Hrank1 : readPlayerRank b w1 < readPlayerRank a w1) by (by rewrite !Hr1).
  destruct (set_muted_spec false "attempted self-unmute" a b w1 Hrank1)
    as (w2 & E2 & Hm2 & Hr2 & Hsc2 & Hp2 & Hs2 & Hh2 & Hu2 & Hq2).
  exists w1, w2. repeat split; try done; try apply Hm1; try apply Hm2.
  intros [Hrows Hclient] Hheap.
  destruct w as [pl s hc hu su], w2 as [pl2 s2 hc2 hu2 su2]. simpl in *.
  subst hc2 hu2 su2. rewrite Hh1, Hu1, Hq1. f_equal.
  - rewrite Hp2, Hp1. rewrite map_map.
    clear -Hrows. induction pl as [|r l IH]; simpl; [done|].
    rewrite IH by (intros r0 Hr0; apply Hrows; by right).
    f_equal. destruct (bool_decide (pl_uuid r = b)) eqn:E; simpl; [|by rewrite E].
    rewrite E. apply bool_decide_eq_true in E.
    specialize (Hrows r (list_elem_of_here _ _) E).
    destruct r; simpl in *; by subst.
  - rewrite Hs2, Hsc1, Hs1. destruct (sessionClients s !! b) as [p|]; [|done].
    specialize (Hclient p eq_refl). specialize (Hheap p eq_refl).
    rewrite deref_set_client. destruct (decide (p = p)); [|done].
    unfold set_client. simpl. rewrite insert_insert_eq.
    apply elem_of_dom in Hheap as [c Hc].
    assert (Hd : deref s p = c) by (unfold deref; by rewrite (lookup_total_correct _ _ _ Hc)).
    rewrite Hd in *.
    rewrite (insert_id (heap s) p) ; [by destruct s|].
    rewrite Hc. f_equal. destruct c; simpl in *; by subst.
Qed.

Section Ban.

Variable maxID : Z.
Variable delim : string.
Variable btoa : bool -> string.

(** X19. A ban by a player of higher rank marks every row of the recipient
    as banned and touches no other row and no client; a connected recipient
    is sent on the [unregister] channel of the session, and when the actor
    takes that request the recipient leaves the registry: it is no longer
    registered, its identity is free and its queue is closed. *)
Theorem ban_unregisters_recipient a b w :
  reachable maxID delim btoa (session w) ->
  identities_registered (session w) ->
  readPlayerRank b w < readPlayerRank a w ->
  exists w',
    tryBanPlayer a b w = PartyDb.Val w' /\
    (forall r, r ∈ players w' -> pl_uuid r = b -> pl_banned r = true) /\
    (forall r, pl_uuid r <> b -> r ∈ players w' <-> r ∈ players w) /\
    session w' = session w /\
    match sessionClients (session w) !! b with
    | Some p =>
        session_unregister w' = session_unregister w ++ [p] /\
        exists s1,
          unregister p (session w') = Ok s1 /\
          ~ is_registered s1 p /\ sessionClients s1 !! b = None /\
          closed (send (deref s1 p)) = true
    | None => session_unregister w' = session_unregister w
    end.
Proof.
  intros Hreach Hids Hrank. unfold tryBanPlayer.
  rewrite (proj2 (Z.leb_gt _ _)) by done.
  assert (Hne : a <> b) by (intros ->; lia).
  rewrite (bool_decide_eq_false_2 _ Hne).
  eexists. split; [done|].
  split; [|split; [|split]].
  - intros r Hr Hu.
    assert (Hr' : r ∈ map (fun r => if bool_decide (pl_uuid r = b)
                                    then with_banned true r else r) (players w)).
    { revert Hr. simpl. by repeat case_match. }
    apply list_elem_of_In, in_map_iff in Hr' as (r0 & <- & _).
    destruct (bool_decide (pl_uuid r0 = b)) eqn:E; [done|].
    apply bool_decide_eq_false in E. by destruct E.
  - intros r Hu.
    assert (Hpl : forall l,
               r ∈ map (fun r => if bool_decide (pl_uuid r = b)
                                 then with_banned true r else r) l <-> r ∈ l).
    { induction l as [|r0 l IH]; simpl; [done|].
      rewrite !elem_of_cons, IH.
      destruct (bool_decide (pl_uuid r0 = b)) eqn:E; [|done].
      apply bool_decide_eq_true in E.
      split; (intros [->|?]; [|by right]); simpl in *; congruence. }
    rewrite <- (Hpl (players w)). simpl. by repeat case_match.
  - simpl. by repeat case_match.
  - simpl. destruct (sessionClients (session w) !! b) as [p|] eqn:Ep.
    + assert (Hsame : forall w0 : World,
                 session (match hubClients w !! b with
                          | Some client =>
                              {| players := players w0; session := session w;
                                 hubClients := hubClients w;
                                 hub_unregister := hub_unregister w ++ [client];
                                 session_unregister := session_unregister w |}
                          | None => update_players (with_banned true) b w
                          end) = session w) by (intros; by case_match).
      destruct (Hids b p Ep) as [Hreg Hu].
      pose proof (reachable_inv maxID delim btoa _ Hreach) as Hinv.
      destruct (hubClients w !! b); simpl; rewrite Ep; simpl.
      all: split; [done|].
      all: eexists; split; [by apply (unregister_registered maxID)|].
      all: destruct (evicted_deleted p (session w)) as (H1 & _ & H3 & H4 & _).
      all: rewrite Hu in H3; by repeat split.
    + destruct (hubClients w !! b); simpl; by rewrite Ep.
Qed.

End Ban.

(** The table and the session of the examples: the player "m" of rank 1,
    and the connected players "a" and "b" of rank 0. *)
Definition world0 : World :=
  {| players := [ {| pl_uuid := "m"; pl_rank := 1; pl_banned := false; pl_muted := false |};
                  {| pl_uuid := "b"; pl_rank := 0; pl_banned := false; pl_muted := false |} ];
     session := two_players;
     hubClients := ∅; hub_unregister := []; session_unregister := [] |}.

Lemma self_checks_never_fire_witness :
  tryBanPlayer "m" "m" world0 = PartyDb.Err "insufficient rank".
Proof.
  exact (proj1 (proj1 (self_checks_never_fire "m" "m" world0) eq_refl)).
Defined.

Lemma mute_then_unmute_witness :
  exists w1,
    tryMutePlayer "m" "b" world0 = PartyDb.Val w1 /\ muted_is true "b" w1 /\
    tryUnmutePlayer "m" "b" w1 = PartyDb.Val world0.
Proof.
  destruct (mute_then_unmute "m" "b" world0) as (w1 & w2 & E1 & Hm1 & E2 & _ & Hsame).
  - vm_compute. reflexivity.
  - exists w1. split; [exact E1|]. split; [exact Hm1|].
    rewrite E2. f_equal. apply Hsame.
    + split.
      * intros r Hr _. apply list_elem_of_In in Hr.
        destruct Hr as [<-|[<-|[]]]; reflexivity.
      * intros p Hp. vm_compute in Hp. injection Hp as <-. vm_compute. reflexivity.
    + intros p Hp. vm_compute in Hp. injection Hp as <-.
      apply elem_of_dom. eexists. vm_compute. reflexivity.
Defined.

Lemma two_players_identities : identities_registered two_players.
Proof.
  apply (identities_actor_reachable 3 "|" demo_btoa).
  apply (actor_connects 3 "|" demo_btoa
           [player "10.0.0.1" "a"; player "10.0.0.2" "b"] newSessionWs).
  - apply actor_new.
  - vm_compute. reflexivity.
Qed.

Lemma ban_unregisters_recipient_witness :
  exists w' s1,
    tryBanPlayer "m" "b" world0 = PartyDb.Val w' /\
    session_unregister w' = [2%positive] /\
    unregister 2%positive (session w') = Ok s1 /\
    sessionClients s1 !! "b" = None.
Proof.
  destruct (ban_unregisters_recipient 3 "|" demo_btoa "m" "b" world0)
    as (w' & E & _ & _ & _ & Hsent).
  - apply two_players_reachable.
  - apply two_players_identities.
  - vm_compute. reflexivity.
  - change (sessionClients (session world0) !! "b") with (Some 2%positive) in Hsent.
    destruct Hsent as (Hq & s1 & E1 & _ & Hfree & _).
    exists w', s1. by repeat split.
Defined.

End Moderation.

(** ** The grid of badge slots: [readPlayerBadgeSlots] and
    [setPlayerBadgeSlot] of [src/database.go] *)

Module BadgeSlots.

(** The rows of [playerBadges] and of [accounts], with the columns the query
    reads. *)
Record PlayerBadgeRow : Type := {
  pb_uuid : string;
  pb_badgeId : string;
  pb_slotRow : Z;
  pb_slotCol : Z
}.

Record AccountRow : Type := {
  a_uuid : string;
  a_user : string
}.

Record Db : Type := {
  playerBadges : list PlayerBadgeRow;
  accounts : list AccountRow
}.

(** A row of the result, and the three variables [badgeId], [badgeRow] and
    [badgeCol] that [Scan] fills. *)
Record Scanned : Type := {
  badgeId : string;
  badgeRow : Z;
  badgeCol : Z
}.

(** The rows the query selects: [playerBadges pb JOIN accounts a ON a.uuid =
    pb.uuid WHERE a.user = ? AND pb.slotRow BETWEEN 1 AND ? AND pb.slotCol
    BETWEEN 1 AND ?]. *)
Definition selected (db : Db) (playerName : string) (badgeSlotRows badgeSlotCols : Z)
  : list Scanned :=
  flat_map (fun pb =>
    flat_map (fun a =>
      if bool_decide (a_uuid a = pb_uuid pb) && bool_decide (a_user a = playerName)
         && (1 <=? pb_slotRow pb) && (pb_slotRow pb <=? badgeSlotRows)
         && (1 <=? pb_slotCol pb) && (pb_slotCol pb <=? badgeSlotCols)
      then [{| badgeId := pb_badgeId pb; badgeRow := pb_slotRow pb;
               badgeCol := pb_slotCol pb |}]
      else []) (accounts db)) (playerBadges db).

(** [ORDER BY pb.slotRow, pb.slotCol]. *)
Definition slot_le (x y : Scanned) : Prop :=
  badgeRow x < badgeRow y \/ (badgeRow x = badgeRow y /\ badgeCol x <= badgeCol y).

(** The results the query may hand over: the selected rows in the order asked
    for, rows of one slot in any order. *)
Definition query_results (db : Db) (playerName : string) (badgeSlotRows badgeSlotCols : Z)
           (results : list Scanned) : Prop :=
  results ≡ₚ selected db playerName badgeSlotRows badgeSlotCols /\ Sorted slot_le results.

(** [badgeRow > r || (badgeRow == r && badgeCol >= c)]. *)
Definition reached (cur : Scanned) (r c : Z) : bool :=
  (r <? badgeRow cur) || ((badgeRow cur =? r) && (c <=? badgeCol cur)).

(** [badgeRow == r && badgeCol == c]. *)
Definition at_slot (r c : Z) (cur : Scanned) : bool :=
  (badgeRow cur =? r) && (badgeCol cur =? c).

(** The inner [for] of the slot [(r, c)]: rows are scanned until one is at
    the slot or past it, or until there is none left. *)
Fixpoint seek (r c : Z) (badgeSlotRow : list string) (cur : Scanned)
         (results : list Scanned) : list string * Scanned * list Scanned :=
  match results with
  | [] => (badgeSlotRow, cur, [])
  | row :: rest =>
      if reached row r c then
        (if at_slot r c row then badgeSlotRow ++ [badgeId row] else badgeSlotRow, row, rest)
      else seek r c badgeSlotRow row rest
  end.

(** The body of the loop over [c]. *)
Definition slot (r : Z) (st : list string * Scanned * list Scanned) (c : Z)
  : list string * Scanned * list Scanned :=
  let '(badgeSlotRow, cur, results) := st in
  if reached cur r c then
    (if at_slot r c cur then badgeSlotRow ++ [badgeId cur]
     else badgeSlotRow ++ ["null"], cur, results)
  else
    let '(badgeSlotRow1, cur1, results1) := seek r c badgeSlotRow cur results in
    (if Z.of_nat (length badgeSlotRow1) <? c then badgeSlotRow1 ++ ["null"]
     else badgeSlotRow1, cur1, results1).

(** The body of the loop over [r]. *)
Definition slot_row (badgeSlotCols : Z) (st : list (list string) * Scanned * list Scanned)
           (r : Z) : list (list string) * Scanned * list Scanned :=
  let '(badgeSlots, cur, results) := st in
  let '(badgeSlotRow, cur1, results1) :=
    foldl (slot r) ([], cur, results) (seqZ 1 badgeSlotCols) in
  (badgeSlots ++ [badgeSlotRow], cur1, results1).

(** The zero values of [badgeId], [badgeRow] and [badgeCol]. *)
Definition unscanned : Scanned := {| badgeId := ""; badgeRow := 0; badgeCol := 0 |}.

(** [readPlayerBadgeSlots], from the results of the query on. *)
Definition readPlayerBadgeSlots (results : list Scanned) (badgeSlotRows badgeSlotCols : Z)
  : list (list string) :=
  fst (fst (foldl (slot_row badgeSlotCols) ([], unscanned, results)
                  (seqZ 1 badgeSlotRows))).

(** What the slot [(r, c)] shows when [o] is the first row of the results at
    it. *)
Definition cell_of (o : option Scanned) : string :=
  match o with
  | Some x => badgeId x
  | None => "null"
  end.

(** The grid read off the results slot by slot. *)
Definition grid_of (results : list Scanned) (badgeSlotRows badgeSlotCols : Z)
  : list (list string) :=
  map (fun r => map (fun c => cell_of (List.find (at_slot r c) results))
                    (seqZ 1 badgeSlotCols))
      (seqZ 1 badgeSlotRows).

(** [UPDATE playerBadges SET slotRow = ?, slotCol = ? WHERE ...]. *)
Definition with_slot (r c : Z) (pb : PlayerBadgeRow) : PlayerBadgeRow :=
  {| pb_uuid := pb_uuid pb; pb_badgeId := pb_badgeId pb; pb_slotRow := r; pb_slotCol := c |}.

Definition place (which : PlayerBadgeRow -> bool) (r c : Z) (db : Db) : Db :=
  {| playerBadges := map (fun pb => if which pb then with_slot r c pb else pb)
                         (playerBadges db);
     accounts := accounts db |}.

(** [WHERE uuid = ? AND badgeId = ?] and [WHERE uuid = ? AND slotRow = ? AND
    slotCol = ?]. *)
Definition is_badge (uuid badgeId : string) (pb : PlayerBadgeRow) : bool :=
  bool_decide (pb_uuid pb = uuid) && bool_decide (pb_badgeId pb = badgeId).

Definition in_slot (uuid : string) (r c : Z) (pb : PlayerBadgeRow) : bool :=
  bool_decide (pb_uuid pb = uuid) && (pb_slotRow pb =? r) && (pb_slotCol pb =? c).

(** [setPlayerBadgeSlot]; [LIMIT 1] is the first row of the table that
    matches. *)
Definition setPlayerBadgeSlot (uuid badgeId : string) (slotRow slotCol : Z) (db : Db) : Db :=
  let last := place (is_badge uuid badgeId) slotRow slotCol in
  match List.find (in_slot uuid slotRow slotCol) (playerBadges db) with
  | None => last db
  | Some row =>
      let slotCurrentBadgeId := pb_badgeId row in
      if bool_decide (slotCurrentBadgeId = badgeId) then db
      else if negb (bool_decide (badgeId = "null")) then
        let '(badgeCurrentSlotRow, badgeCurrentSlotCol) :=
          match List.find (is_badge uuid badgeId) (playerBadges db) with
          | Some b => (pb_slotRow b, pb_slotCol b)
          | None => (0, 0)
          end in
        last (place (is_badge uuid slotCurrentBadgeId)
                    badgeCurrentSlotRow badgeCurrentSlotCol db)
      else last (place (in_slot uuid slotRow slotCol) 0 0 db)
  end.

(** The key of [playerBadges] and the layout of the slots: a player has a
    badge once, and two badges of a player share no slot of the grid; the
    slot [(0, 0)] is that of the badges not placed. *)
Definition well_placed (db : Db) : Prop :=
  forall i j x y,
    playerBadges db !! i = Some x -> playerBadges db !! j = Some y -> i <> j ->
    pb_uuid x = pb_uuid y ->
    pb_badgeId x <> pb_badgeId y /\
    (pb_slotRow x = pb_slotRow y -> pb_slotCol x = pb_slotCol y ->
     pb_slotRow x = 0 /\ pb_slotCol x = 0).

(** The slot of the badge [badgeId] of the player [uuid]. *)
Definition slot_of (uuid badgeId : string) (db : Db) : option (Z * Z) :=
  match List.find (is_badge uuid badgeId) (playerBadges db) with
  | Some b => Some (pb_slotRow b, pb_slotCol b)
  | None => None
  end.

(** *** The cursor against the grid *)

(** The slot [(r, c)] comes before the slot [(r', c')], or is it. *)
Definition pos_le (r c r' c' : Z) : Prop := r < r' \/ (r = r' /\ c <= c').
Definition pos_lt (r c r' c' : Z) : Prop := r < r' \/ (r = r' /\ c < c').

#[export] Instance slot_le_trans : Transitive slot_le.
Proof. intros x y z. unfold slot_le. lia. Qed.

Lemma reached_true cur r c :
  reached cur r c = true <-> pos_le r c (badgeRow cur) (badgeCol cur).
Proof. unfold reached, pos_le. lia. Qed.

Lemma reached_false cur r c :
  reached cur r c = false <-> pos_lt (badgeRow cur) (badgeCol cur) r c.
Proof. unfold reached, pos_lt. lia. Qed.

Lemma at_slot_true r c x : at_slot r c x = true <-> badgeRow x = r /\ badgeCol x = c.
Proof. unfold at_slot. lia. Qed.

Lemma at_slot_false r c x : at_slot r c x = false <-> ~ (badgeRow x = r /\ badgeCol x = c).
Proof. unfold at_slot. lia. Qed.

Lemma sorted_after cur results :
  Sorted slot_le (cur :: results) -> Forall (slot_le cur) results.
Proof.
  intros Hs. apply Sorted_StronglySorted in Hs; [|apply _].
  by apply StronglySorted_inv in Hs as [_ H].
Qed.

(** Past the slot, no later row is at it. *)
Lemma find_past r c cur results :
  Sorted slot_le (cur :: results) ->
  pos_lt r c (badgeRow cur) (badgeCol cur) ->
  List.find (at_slot r c) results = None.
Proof.
  intros Hs Hlt. pose proof (sorted_after cur results Hs) as Hall.
  clear Hs. induction Hall as [|x l Hx _ IH]; simpl; [done|].
  rewrite (proj2 (at_slot_false r c x)); [exact IH|].
  unfold slot_le, pos_lt in *. lia.
Qed.

Lemma not_at r c r' c' x :
  reached x r c = false -> pos_le r c r' c' -> at_slot r' c' x = false.
Proof.
  rewrite reached_false, at_slot_false. unfold pos_lt, pos_le. lia.
Qed.

Lemma seek_spec r c badgeSlotRow : forall cur results,
  Sorted slot_le (cur :: results) ->
  reached cur r c = false ->
  match seek r c badgeSlotRow cur results with
  | (badgeSlotRow1, cur1, results1) =>
      Sorted slot_le (cur1 :: results1) /\
      (forall r' c', pos_le r c r' c' ->
                     List.find (at_slot r' c') (cur1 :: results1)
                     = List.find (at_slot r' c') (cur :: results)) /\
      badgeSlotRow1 = match List.find (at_slot r c) (cur :: results) with
                      | Some x => badgeSlotRow ++ [badgeId x]
                      | None => badgeSlotRow
                      end
  end.
Proof.
  intros cur results. revert cur.
  induction results as [|row rest IH]; intros cur Hs Hcur.
  - simpl. split; [done|]. split; [done|].
    by rewrite (not_at r c r c cur Hcur) by (unfold pos_le; lia).
  - pose proof (Sorted_inv Hs) as [Hs' _].
    assert (Hskip : forall r' c', pos_le r c r' c' ->
              List.find (at_slot r' c') (cur :: row :: rest)
              = List.find (at_slot r' c') (row :: rest)).
    { intros r' c' Hle.
      change (List.find (at_slot r' c') (cur :: row :: rest))
        with (if at_slot r' c' cur then Some cur
              else List.find (at_slot r' c') (row :: rest)).
      by rewrite (not_at r c r' c' cur Hcur Hle). }
    change (seek r c badgeSlotRow cur (row :: rest))
      with (if reached row r c then
              (if at_slot r c row then badgeSlotRow ++ [badgeId row] else badgeSlotRow,
               row, rest)
            else seek r c badgeSlotRow row rest).
    destruct (reached row r c) eqn:Hrow.
    + split; [done|]. split; [intros r' c' Hle; by rewrite Hskip|].
      rewrite Hskip by (unfold pos_le; lia). simpl.
      destruct (at_slot r c row) eqn:Hat; [done|].
      rewrite (find_past r c row rest Hs'); [done|].
      apply reached_true in Hrow. apply at_slot_false in Hat.
      unfold pos_le, pos_lt in *. lia.
    + specialize (IH row Hs' Hrow).
      destruct (seek r c badgeSlotRow row rest) as [[row1 cur1] results1].
      destruct IH as (H1 & H2 & H3). split; [done|].
      split; [intros r' c' Hle; by rewrite Hskip, H2|].
      by rewrite Hskip by (unfold pos_le; lia).
Qed.

Section Grid.

(** What each slot is to show. *)
Variable F : Z -> Z -> option Scanned.

Lemma slot_spec r c badgeSlotRow cur results :
  Z.of_nat (length badgeSlotRow) = c - 1 ->
  Sorted slot_le (cur :: results) ->
  (forall r' c', pos_le r c r' c' ->
                 List.find (at_slot r' c') (cur :: results) = F r' c') ->
  match slot r (badgeSlotRow, cur, results) c with
  | (badgeSlotRow1, cur1, results1) =>
      badgeSlotRow1 = badgeSlotRow ++ [cell_of (F r c)] /\
      Sorted slot_le (cur1 :: results1) /\
      (forall r' c', pos_lt r c r' c' ->
                     List.find (at_slot r' c') (cur1 :: results1) = F r' c')
  end.
Proof.
  intros Hlen Hs HF. unfold slot.
  assert (Hweak : forall r' c', pos_lt r c r' c' -> pos_le r c r' c')
    by (unfold pos_lt, pos_le; lia).
  rewrite <- (HF r c) by (unfold pos_le; lia).
  destruct (reached cur r c) eqn:Hcur.
  - split; [|split; [done|intros r' c' Hlt; by apply HF, Hweak]].
    simpl. destruct (at_slot r c cur) eqn:Hat; [done|].
    rewrite (find_past r c cur results Hs); [done|].
    apply reached_true in Hcur. apply at_slot_false in Hat.
    unfold pos_le, pos_lt in *. lia.
  - pose proof (seek_spec r c badgeSlotRow cur results Hs Hcur) as Hseek.
    destruct (seek r c badgeSlotRow cur results) as [[row1 cur1] results1].
    destruct Hseek as (H1 & H2 & ->).
    split; [|split; [done|intros r' c' Hlt; rewrite H2 by (by apply Hweak);
                          by apply HF, Hweak]].
    destruct (List.find (at_slot r c) (cur :: results)) as [x|]; simpl.
    + rewrite length_app.
      change (length [badgeId x]) with 1%nat.
      rewrite (proj2 (Z.ltb_ge _ _)); [done|lia].
    + rewrite (proj2 (Z.ltb_lt _ _)); [done|lia].
Qed.

Lemma cols_spec r (k : nat) : forall c0 badgeSlotRow cur results,
  Z.of_nat (length badgeSlotRow) = c0 - 1 ->
  Sorted slot_le (cur :: results) ->
  (forall r' c', pos_le r c0 r' c' ->
                 List.find (at_slot r' c') (cur :: results) = F r' c') ->
  match foldl (slot r) (badgeSlotRow, cur, results) (seqZ c0 (Z.of_nat k)) with
  | (badgeSlotRow1, cur1, results1) =>
      badgeSlotRow1 = badgeSlotRow ++ map (fun c => cell_of (F r c)) (seqZ c0 (Z.of_nat k)) /\
      Sorted slot_le (cur1 :: results1) /\
      (forall r' c', pos_le r (c0 + Z.of_nat k) r' c' ->
                     List.find (at_slot r' c') (cur1 :: results1) = F r' c')
  end.
Proof.
  induction k as [|k IH]; intros c0 badgeSlotRow cur results Hlen Hs HF.
  - simpl. rewrite app_nil_r. split; [done|]. split; [done|].
    intros r' c' Hle. apply HF. unfold pos_le in *. lia.
  - rewrite seqZ_cons by lia.
    replace (Z.pred (Z.of_nat (S k))) with (Z.of_nat k) by lia.
    cbn [foldl map]. pose proof (slot_spec r c0 badgeSlotRow cur results Hlen Hs HF) as H1.
    destruct (slot r (badgeSlotRow, cur, results) c0) as [[row1 cur1] results1].
    destruct H1 as (-> & Hs1 & HF1).
    assert (Hlen1 : Z.of_nat (length (badgeSlotRow ++ [cell_of (F r c0)])) = Z.succ c0 - 1).
    { rewrite length_app. simpl. lia. }
    assert (HF1' : forall r' c', pos_le r (Z.succ c0) r' c' ->
                     List.find (at_slot r' c') (cur1 :: results1) = F r' c').
    { intros r' c' Hle. apply HF1. unfold pos_le, pos_lt in *. lia. }
    specialize (IH (Z.succ c0) (badgeSlotRow ++ [cell_of (F r c0)]) cur1 results1
                   Hlen1 Hs1 HF1').
    revert IH.
    destruct (foldl (slot r) _ (seqZ (Z.succ c0) (Z.of_nat k))) as [[row2 cur2] results2].
    intros (-> & Hs2 & HF2).
    split; [by rewrite <- app_assoc|]. split; [done|].
    intros r' c' Hle. apply HF2. unfold pos_le in *. lia.
Qed.

Lemma slot_row_spec badgeSlotCols r badgeSlots cur results :
  Sorted slot_le (cur :: results) ->
  (forall r' c', r <= r' -> List.find (at_slot r' c') (cur :: results) = F r' c') ->
  match slot_row badgeSlotCols (badgeSlots, cur, results) r with
  | (badgeSlots1, cur1, results1) =>
      badgeSlots1 = badgeSlots ++ [map (fun c => cell_of (F r c)) (seqZ 1 badgeSlotCols)] /\
      Sorted slot_le (cur1 :: results1) /\
      (forall r' c', r + 1 <= r' ->
                     List.find (at_slot r' c') (cur1 :: results1) = F r' c')
  end.
Proof.
  intros Hs HF. unfold slot_row.
  destruct (decide (badgeSlotCols <= 0)) as [Hneg|Hpos].
  - rewrite seqZ_nil by done. simpl. split; [done|]. split; [done|].
    intros r' c' Hle. apply HF. lia.
  - pose proof (cols_spec r (Z.to_nat badgeSlotCols) 1 [] cur results) as H1.
    rewrite Z2Nat.id in H1 by lia.
    assert (HF' : forall r' c', pos_le r 1 r' c' ->
                    List.find (at_slot r' c') (cur :: results) = F r' c').
    { intros r' c' Hle. apply HF. unfold pos_le in Hle. lia. }
    specialize (H1 eq_refl Hs HF').
    revert H1.
    destruct (foldl (slot r) _ (seqZ 1 badgeSlotCols)) as [[row1 cur1] results1].
    intros (-> & Hs1 & HF1).
    split; [done|]. split; [done|].
    intros r' c' Hle. apply HF1. unfold pos_le. lia.
Qed.

Lemma rows_spec badgeSlotCols (k : nat) : forall r0 badgeSlots cur results,
  Sorted slot_le (cur :: results) ->
  (forall r' c', r0 <= r' -> List.find (at_slot r' c') (cur :: results) = F r' c') ->
  fst (fst (foldl (slot_row badgeSlotCols) (badgeSlots, cur, results)
                  (seqZ r0 (Z.of_nat k))))
  = badgeSlots ++ map (fun r => map (fun c => cell_of (F r c)) (seqZ 1 badgeSlotCols))
                      (seqZ r0 (Z.of_nat k)).
Proof.
  induction k as [|k IH]; intros r0 badgeSlots cur results Hs HF.
  - simpl. by rewrite app_nil_r.
  - rewrite seqZ_cons by lia.
    replace (Z.pred (Z.of_nat (S k))) with (Z.of_nat k) by lia.
    cbn [foldl map].
    pose proof (slot_row_spec badgeSlotCols r0 badgeSlots cur results Hs HF) as H1.
    destruct (slot_row badgeSlotCols (badgeSlots, cur, results) r0)
      as [[slots1 cur1] results1].
    destruct H1 as (-> & Hs1 & HF1).
    rewrite (IH (Z.succ r0)); [by rewrite <- app_assoc|done|].
    intros r' c' Hle. apply HF1. lia.
Qed.

End Grid.

(** The loops fill the grid slot by slot with the first row of the results
    at the slot, whatever the size asked for. *)
Lemma readPlayerBadgeSlots_grid_of results badgeSlotRows badgeSlotCols :
  Sorted slot_le results ->
  Forall (fun x => 1 <= badgeRow x) results ->
  readPlayerBadgeSlots results badgeSlotRows badgeSlotCols
  = grid_of results badgeSlotRows badgeSlotCols.
Proof.
  intros Hs Hpos. unfold readPlayerBadgeSlots, grid_of.
  destruct (decide (badgeSlotRows <= 0)) as [Hneg|Hrows].
  { by rewrite seqZ_nil by done. }
  pose proof (rows_spec (fun r c => List.find (at_slot r c) results) badgeSlotCols
                (Z.to_nat badgeSlotRows) 1 [] unscanned results) as H.
  rewrite Z2Nat.id in H by lia. apply H.
  - constructor; [done|]. destruct Hpos as [|x l Hx _]; constructor.
    unfold slot_le. simpl. lia.
  - intros r' c' Hle. simpl.
    rewrite (proj2 (at_slot_false r' c' unscanned)); [done|]. simpl. lia.
Qed.

Lemma selected_in_bounds db playerName badgeSlotRows badgeSlotCols x :
  x ∈ selected db playerName badgeSlotRows badgeSlotCols ->
  1 <= badgeRow x <= badgeSlotRows /\ 1 <= badgeCol x <= badgeSlotCols.
Proof.
  unfold selected. rewrite list_elem_of_In, in_flat_map.
  intros (pb & _ & Hx). apply in_flat_map in Hx as (a & _ & Hx).
  destruct (_ && _) eqn:E in Hx; [|by destruct Hx].
  destruct Hx as [<-|[]]. simpl. lia.
Qed.

Lemma find_at_slot r c l :
  match List.find (at_slot r c) l with
  | Some x => x ∈ l /\ badgeRow x = r /\ badgeCol x = c
  | None => forall x, x ∈ l -> ~ (badgeRow x = r /\ badgeCol x = c)
  end.
Proof.
  destruct (List.find (at_slot r c) l) as [x|] eqn:E.
  - apply find_some in E as [Hin Hat]. apply at_slot_true in Hat.
    split; [by apply list_elem_of_In|done].
  - intros x Hx. apply list_elem_of_In in Hx.
    apply at_slot_false. by apply (find_none _ _ E).
Qed.

(** X20. Whatever order the query gives to the badges of one slot, the grid
    [readPlayerBadgeSlots] builds by walking its sorted results once is the
    grid read off the results slot by slot: it has [badgeSlotRows] rows of
    [badgeSlotCols] cells, and the cell of a slot is "null" when none of the
    player's badges is placed there, and else the id of one of the badges
    placed there. *)
Theorem badge_slots_show_placed_badges db playerName badgeSlotRows badgeSlotCols results :
  query_results db playerName badgeSlotRows badgeSlotCols results ->
  let placed := selected db playerName badgeSlotRows badgeSlotCols in
  let badgeSlots := readPlayerBadgeSlots results badgeSlotRows badgeSlotCols in
  badgeSlots = grid_of results badgeSlotRows badgeSlotCols /\
  length badgeSlots = Z.to_nat badgeSlotRows /\
  Forall (fun badgeSlotRow => length badgeSlotRow = Z.to_nat badgeSlotCols) badgeSlots /\
  forall r c, 1 <= r <= badgeSlotRows -> 1 <= c <= badgeSlotCols ->
    exists cell,
      badgeSlots !! Z.to_nat (r - 1) ≫= (.!! Z.to_nat (c - 1)) = Some cell /\
      ((forall x, x ∈ placed -> ~ (badgeRow x = r /\ badgeCol x = c)) -> cell = "null") /\
      ((exists x, x ∈ placed /\ badgeRow x = r /\ badgeCol x = c) ->
       exists x, x ∈ placed /\ badgeRow x = r /\ badgeCol x = c /\ cell = badgeId x).
Proof.
  intros [Hperm Hs]. simpl.
  rewrite readPlayerBadgeSlots_grid_of; [|done|].
  2: { apply Forall_forall. intros x Hx. rewrite Hperm in Hx.
       by apply selected_in_bounds in Hx as [[? _] _]. }
  split; [done|].
  unfold grid_of. split; [by rewrite length_map, length_seqZ|].
  split.
  { apply Forall_forall. intros row Hrow.
    apply list_elem_of_In, in_map_iff in Hrow as (r & <- & _).
    by rewrite length_map, length_seqZ. }
  intros r c Hr Hc.
  exists (cell_of (List.find (at_slot r c) results)).
  split.
  { change (map ?f ?l) with (f <$> l). rewrite list_lookup_fmap.
    rewrite lookup_seqZ_lt by lia. simpl.
    rewrite list_lookup_fmap. rewrite lookup_seqZ_lt by lia. simpl.
    rewrite !Z2Nat.id by lia.
    replace (1 + (r - 1)) with r by lia. by replace (1 + (c - 1)) with c by lia. }
  pose proof (find_at_slot r c results) as Hfind.
  destruct (List.find (at_slot r c) results) as [y|]; simpl.
  - destruct Hfind as (Hy & Hyr & Hyc). rewrite Hperm in Hy. split.
    + intros Hnone. by destruct (Hnone y Hy).
    + intros _. by exists y.
  - split; [done|]. intros (x & Hx & Hxr & Hxc).
    rewrite <- Hperm in Hx. by destruct (Hfind x Hx).
Qed.

(** *** Placing a badge *)

Lemma is_badge_true u b x :
  is_badge u b x = true <-> pb_uuid x = u /\ pb_badgeId x = b.
Proof. unfold is_badge. rewrite andb_true_iff, !bool_decide_eq_true. done. Qed.

Lemma in_slot_true u r c x :
  in_slot u r c x = true <-> pb_uuid x = u /\ pb_slotRow x = r /\ pb_slotCol x = c.
Proof.
  unfold in_slot. rewrite !andb_true_iff, bool_decide_eq_true, !Z.eqb_eq. tauto.
Qed.

Lemma find_lookup {A} (f : A -> bool) (l : list A) x :
  List.find f l = Some x -> exists i, l !! i = Some x /\ f x = true.
Proof.
  intros E. apply find_some in E as [Hin Hf].
  apply list_elem_of_In, list_elem_of_lookup in Hin as [i Hi]. by exists i.
Qed.

Lemma find_none_lookup {A} (f : A -> bool) (l : list A) i x :
  List.find f l = None -> l !! i = Some x -> f x = false.
Proof.
  intros E Hi. apply (find_none _ _ E). apply list_elem_of_In.
  by apply list_elem_of_lookup_2 in Hi.
Qed.

(** An update of slots keeps the layout if it makes no two badges of a
    player meet in a slot of the grid. *)
Lemma well_placed_map (f : PlayerBadgeRow -> PlayerBadgeRow) db :
  well_placed db ->
  (forall x, pb_uuid (f x) = pb_uuid x /\ pb_badgeId (f x) = pb_badgeId x) ->
  (forall i j x y,
     playerBadges db !! i = Some x -> playerBadges db !! j = Some y -> i <> j ->
     pb_uuid x = pb_uuid y ->
     pb_slotRow (f x) = pb_slotRow (f y) -> pb_slotCol (f x) = pb_slotCol (f y) ->
     pb_slotRow (f x) = 0 /\ pb_slotCol (f x) = 0) ->
  well_placed {| playerBadges := map f (playerBadges db); accounts := accounts db |}.
Proof.
  intros Hwp Hkey Hslot i j x' y' Hi Hj Hne Hu. simpl in Hi, Hj.
  change (map f ?l) with (f <$> l) in Hi, Hj.
  rewrite list_lookup_fmap in Hi, Hj.
  destruct (playerBadges db !! i) as [x|] eqn:Ex; [|done].
  destruct (playerBadges db !! j) as [y|] eqn:Ey; [|done].
  simpl in Hi, Hj. injection Hi as <-. injection Hj as <-.
  destruct (Hkey x) as [Hux Hbx], (Hkey y) as [Huy Hby].
  rewrite Hux, Huy in Hu. rewrite Hbx, Hby.
  split; [by apply (Hwp i j x y)|].
  by apply (Hslot i j x y).
Qed.

Lemma place_place which1 which2 r1 c1 r2 c2 db :
  (forall x r c, which2 (with_slot r c x) = which2 x) ->
  place which2 r2 c2 (place which1 r1 c1 db)
  = {| playerBadges :=
         map (fun x => if which2 x then with_slot r2 c2 x
                       else if which1 x then with_slot r1 c1 x else x)
             (playerBadges db);
       accounts := accounts db |}.
Proof.
  intros Hkeep. unfold place. simpl. f_equal. rewrite map_map.
  apply map_ext. intros x. destruct (which1 x); [|done].
  rewrite Hkeep. by destruct (which2 x).
Qed.

Lemma is_badge_false u b x :
  is_badge u b x = false <-> (pb_uuid x = u -> pb_badgeId x <> b).
Proof. rewrite <- not_true_iff_false, is_badge_true. tauto. Qed.

Lemma in_slot_false u r c x :
  in_slot u r c x = false <-> (pb_uuid x = u -> ~ (pb_slotRow x = r /\ pb_slotCol x = c)).
Proof. rewrite <- not_true_iff_false, in_slot_true. tauto. Qed.

Ltac layout :=
  repeat match goal with
         | H : ?i <> ?k -> _ |- _ =>
             destruct (decide (i = k)) as [->|?];
             [clear H|specialize (H ltac:(assumption))]
         end;
  simplify_eq;
  repeat match goal with
         | H : is_badge _ _ _ = true |- _ => apply is_badge_true in H
         | H : in_slot _ _ _ _ = true |- _ => apply in_slot_true in H
         | H : is_badge _ _ _ = false |- _ => rewrite is_badge_false in H
         | H : in_slot _ _ _ _ = false |- _ => rewrite in_slot_false in H
         | H : _ /\ _ |- _ => destruct H
         end;
  repeat match goal with
         | H : pb_uuid ?x = _ -> _ |- _ =>
             first [specialize (H ltac:(congruence))|clear H]
         end;
  repeat match goal with
         | H : _ /\ _ |- _ => destruct H
         end;
  simpl; intros; subst; try (exfalso; congruence);
  repeat match goal with
         | H : _ = _ -> _ = _ -> _ |- _ =>
             first [specialize (H ltac:(congruence) ltac:(congruence)); destruct H
                   |clear H]
         end;
  try (exfalso; match goal with
                | H : ~ (_ /\ _) |- _ => apply H; split; congruence
                end);
  repeat match goal with
         | H : ~ (_ /\ _) |- _ => clear H
         end;
  try lia.

Lemma setPlayerBadgeSlot_layout uuid badgeId slotRow slotCol db :
  well_placed db -> 1 <= slotRow -> 1 <= slotCol ->
  well_placed (setPlayerBadgeSlot uuid badgeId slotRow slotCol db) /\
  map (fun pb => (pb_uuid pb, pb_badgeId pb))
      (playerBadges (setPlayerBadgeSlot uuid badgeId slotRow slotCol db))
  = map (fun pb => (pb_uuid pb, pb_badgeId pb)) (playerBadges db) /\
  accounts (setPlayerBadgeSlot uuid badgeId slotRow slotCol db) = accounts db.
Proof.
  intros Hwp Hr Hc. unfold setPlayerBadgeSlot.
  assert (Hkeys : forall f : PlayerBadgeRow -> PlayerBadgeRow,
             (forall x, pb_uuid (f x) = pb_uuid x /\ pb_badgeId (f x) = pb_badgeId x) ->
             map (fun pb => (pb_uuid pb, pb_badgeId pb)) (map f (playerBadges db))
             = map (fun pb => (pb_uuid pb, pb_badgeId pb)) (playerBadges db)).
  { intros f Hf. rewrite map_map. apply map_ext. intros x.
    destruct (Hf x) as [-> ->]. done. }
  destruct (List.find (in_slot uuid slotRow slotCol) (playerBadges db)) as [cur|] eqn:Ecur.
  - apply find_lookup in Ecur as (k & Hk & Hcur).
    destruct (bool_decide (pb_badgeId cur = badgeId)) eqn:Esame; [done|].
    apply bool_decide_eq_false in Esame.
    destruct (negb (bool_decide (badgeId = "null"))) eqn:Enull.
    + destruct (List.find (is_badge uuid badgeId) (playerBadges db)) as [b|] eqn:Eb.
      * apply find_lookup in Eb as (kb & Hkb & Hb).
        rewrite place_place by done.
        split; [|split; [|done]].
        2: { apply Hkeys. intros x. by repeat case_match. }
        apply well_placed_map; [done|intros x; by repeat case_match|].
        intros i j x y Hi Hj Hne Hu.
        pose proof (Hwp i j x y Hi Hj Hne Hu) as [Hid Hsl].
        pose proof (Hwp i k x cur Hi Hk) as Hxc.
        pose proof (Hwp j k y cur Hj Hk) as Hyc.
        pose proof (Hwp i kb x b Hi Hkb) as Hxb.
        pose proof (Hwp j kb y b Hj Hkb) as Hyb.
        pose proof (Hwp kb k b cur Hkb Hk) as Hbc.
        clear Enull Hkeys Hwp.
        destruct (is_badge uuid badgeId x) eqn:E1, (is_badge uuid badgeId y) eqn:E2,
                 (is_badge uuid (pb_badgeId cur) x) eqn:E3,
                 (is_badge uuid (pb_badgeId cur) y) eqn:E4;
          layout.
      * rewrite place_place by done.
        split; [|split; [|done]].
        2: { apply Hkeys. intros x. by repeat case_match. }
        apply well_placed_map; [done|intros x; by repeat case_match|].
        intros i j x y Hi Hj Hne Hu.
        pose proof (Hwp i j x y Hi Hj Hne Hu) as [Hid Hsl].
        pose proof (find_none_lookup _ _ i x Eb Hi) as Hbx.
        pose proof (find_none_lookup _ _ j y Eb Hj) as Hby.
        rewrite Hbx, Hby.
        destruct (is_badge uuid (pb_badgeId cur) x) eqn:E3,
                 (is_badge uuid (pb_badgeId cur) y) eqn:E4;
          layout.
    + rewrite place_place by done.
      split; [|split; [|done]].
      2: { apply Hkeys. intros x. by repeat case_match. }
      apply well_placed_map; [done|intros x; by repeat case_match|].
      intros i j x y Hi Hj Hne Hu.
      pose proof (Hwp i j x y Hi Hj Hne Hu) as [Hid Hsl].
      destruct (is_badge uuid badgeId x) eqn:E1, (is_badge uuid badgeId y) eqn:E2,
               (in_slot uuid slotRow slotCol x) eqn:E3,
               (in_slot uuid slotRow slotCol y) eqn:E4;
        layout.
  - split; [|split; [|done]].
    2: { apply Hkeys. intros x. by repeat case_match. }
    apply well_placed_map; [done|intros x; by repeat case_match|].
    intros i j x y Hi Hj Hne Hu.
    pose proof (Hwp i j x y Hi Hj Hne Hu) as [Hid Hsl].
    pose proof (find_none_lookup _ _ i x Ecur Hi) as Hsx.
    pose proof (find_none_lookup _ _ j y Ecur Hj) as Hsy.
    destruct (is_badge uuid badgeId x) eqn:E1, (is_badge uuid badgeId y) eqn:E2;
      layout.
Qed.

(** X21. [setPlayerBadgeSlot] for a slot of the grid keeps the layout: each
    player still has each badge once, in the same rows of the table, and no
    two badges of a player share a slot of the grid. *)
Theorem setPlayerBadgeSlot_keeps_layout uuid badgeId slotRow slotCol db :
  well_placed db -> 1 <= slotRow -> 1 <= slotCol ->
  well_placed (setPlayerBadgeSlot uuid badgeId slotRow slotCol db) /\
  map (fun pb => (pb_uuid pb, pb_badgeId pb))
      (playerBadges (setPlayerBadgeSlot uuid badgeId slotRow slotCol db))
  = map (fun pb => (pb_uuid pb, pb_badgeId pb)) (playerBadges db) /\
  accounts (setPlayerBadgeSlot uuid badgeId slotRow slotCol db) = accounts db.
Proof. apply setPlayerBadgeSlot_layout. Qed.

Lemma find_map_keys (f : PlayerBadgeRow -> PlayerBadgeRow) u b l :
  (forall x, pb_uuid (f x) = pb_uuid x /\ pb_badgeId (f x) = pb_badgeId x) ->
  List.find (is_badge u b) (map f l) = f <$> List.find (is_badge u b) l.
Proof.
  intros Hkey. induction l as [|x l IH]; simpl; [done|].
  assert (E : is_badge u b (f x) = is_badge u b x).
  { unfold is_badge. by destruct (Hkey x) as [-> ->]. }
  rewrite E. by destruct (is_badge u b x).
Qed.

Lemma slot_of_map (f : PlayerBadgeRow -> PlayerBadgeRow) u b db :
  (forall x, pb_uuid (f x) = pb_uuid x /\ pb_badgeId (f x) = pb_badgeId x) ->
  slot_of u b {| playerBadges := map f (playerBadges db); accounts := accounts db |}
  = match List.find (is_badge u b) (playerBadges db) with
    | Some x => Some (pb_slotRow (f x), pb_slotCol (f x))
    | None => None
    end.
Proof.
  intros Hkey. unfold slot_of. simpl. rewrite (find_map_keys f u b _ Hkey).
  by destruct (List.find (is_badge u b) (playerBadges db)).
Qed.

Lemma setPlayerBadgeSlot_effect uuid badgeId slotRow slotCol db r0 c0 :
  well_placed db -> 1 <= slotRow -> 1 <= slotCol ->
  badgeId <> "null" ->
  slot_of uuid badgeId db = Some (r0, c0) ->
  let db' := setPlayerBadgeSlot uuid badgeId slotRow slotCol db in
  slot_of uuid badgeId db' = Some (slotRow, slotCol) /\
  (forall other, other <> badgeId ->
                 slot_of uuid other db = Some (slotRow, slotCol) ->
                 slot_of uuid other db' = Some (r0, c0)) /\
  (forall u other,
     ~ (u = uuid /\ other = badgeId) ->
     ~ (u = uuid /\ slot_of u other db = Some (slotRow, slotCol)) ->
     slot_of u other db' = slot_of u other db).
Proof.
  intros Hwp Hr Hc Hnull Hown. simpl. unfold setPlayerBadgeSlot.
  unfold slot_of in Hown.
  destruct (List.find (is_badge uuid badgeId) (playerBadges db)) as [b|] eqn:Eb; [|done].
  injection Hown as <- <-.
  pose proof Eb as Eb'. apply find_lookup in Eb' as (kb & Hkb & Hb).
  assert (Hrow : forall u other,
             match List.find (is_badge u other) (playerBadges db) with
             | Some x => exists i, playerBadges db !! i = Some x /\
                                   pb_uuid x = u /\ pb_badgeId x = other
             | None => True
             end).
  { intros u other. destruct (List.find (is_badge u other) (playerBadges db)) as [x|] eqn:E;
      [|done].
    apply find_lookup in E as (i & Hi & Hx). apply is_badge_true in Hx. by exists i. }
  destruct (List.find (in_slot uuid slotRow slotCol) (playerBadges db)) as [cur|] eqn:Ecur.
  - pose proof Ecur as Ecur'. apply find_lookup in Ecur' as (k & Hk & Hcur).
    pose proof (Hwp kb k b cur Hkb Hk) as Hbc.
    destruct (bool_decide (pb_badgeId cur = badgeId)) eqn:Esame.
    + apply bool_decide_eq_true in Esame.
      split; [|split; [|done]].
      * unfold slot_of. rewrite Eb.
        apply is_badge_true in Hb as [Hbu Hbb].
        apply in_slot_true in Hcur as (Hcu & <- & <-).
        destruct (decide (kb = k)) as [->|Hne]; [by simplify_eq|].
        destruct (Hbc Hne) as [Hid _]; congruence.
      * intros other Hother Hat. unfold slot_of in Hat.
        pose proof (Hrow uuid other) as Ho.
        destruct (List.find (is_badge uuid other) (playerBadges db)) as [x|]; [|done].
        destruct Ho as (i & Hi & Hux & Hox). injection Hat as Hxr Hxc.
        pose proof (Hwp i k x cur Hi Hk) as Hxcur.
        exfalso. clear Eb Ecur Hrow. layout.
    + apply bool_decide_eq_false in Esame.
      rewrite (bool_decide_eq_false_2 _ Hnull). simpl.
      rewrite place_place by done.
      split; [|split].
      * rewrite slot_of_map by (intros x; by repeat case_match).
        rewrite Eb, Hb. done.
      * intros other Hother Hat. unfold slot_of in Hat.
        rewrite slot_of_map by (intros x; by repeat case_match).
        pose proof (Hrow uuid other) as Ho.
        destruct (List.find (is_badge uuid other) (playerBadges db)) as [x|]; [|done].
        destruct Ho as (i & Hi & Hux & Hox). injection Hat as Hxr Hxc.
        pose proof (Hwp i k x cur Hi Hk) as Hxcur.
        destruct (is_badge uuid badgeId x) eqn:E1;
          [apply is_badge_true in E1; destruct E1; congruence|].
        assert (E2 : is_badge uuid (pb_badgeId cur) x = true).
        { apply is_badge_true. split; [done|].
          clear Eb Ecur Hrow E1. destruct (decide (i = k)) as [->|Hik]; [congruence|].
          exfalso. layout. }
        by rewrite E2.
      * intros u other Hnot Hnotat. unfold slot_of in Hnotat |- *.
        fold (slot_of u other {| playerBadges :=
                 map (fun x => if is_badge uuid badgeId x then with_slot slotRow slotCol x
                               else if is_badge uuid (pb_badgeId cur) x
                                    then with_slot (pb_slotRow b) (pb_slotCol b) x else x)
                     (playerBadges db); accounts := accounts db |}).
        rewrite slot_of_map by (intros x; by repeat case_match).
        pose proof (Hrow u other) as Ho.
        destruct (List.find (is_badge u other) (playerBadges db)) as [x|]; [|done].
        destruct Ho as (i & Hi & Hux & Hox).
        pose proof (Hwp i k x cur Hi Hk) as Hxcur.
        destruct (is_badge uuid badgeId x) eqn:E1.
        { apply is_badge_true in E1 as [E1 E1']. exfalso. apply Hnot. split; congruence. }
        destruct (is_badge uuid (pb_badgeId cur) x) eqn:E2; [|done].
        apply is_badge_true in E2 as [E2 E2'].
        exfalso. apply Hnotat. split; [congruence|].
        destruct (decide (i = k)) as [->|Hik].
        { assert (x = cur) by congruence. subst x.
          apply in_slot_true in Hcur as (_ & -> & ->). done. }
        exfalso. clear Eb Ecur Hrow E1. layout.
  - split; [|split].
    + unfold place. rewrite slot_of_map by (intros x; by repeat case_match).
      rewrite Eb, Hb. done.
    + intros other Hother Hat. exfalso. unfold slot_of in Hat.
      pose proof (Hrow uuid other) as Ho.
      destruct (List.find (is_badge uuid other) (playerBadges db)) as [x|]; [|done].
      destruct Ho as (i & Hi & Hux & Hox). injection Hat as Hxr Hxc.
      pose proof (find_none_lookup _ _ i x Ecur Hi) as Hx.
      apply in_slot_false in Hx; [|done]. by apply Hx.
    + intros u other Hnot _. unfold place.
      rewrite slot_of_map by (intros x; by repeat case_match).
      unfold slot_of. pose proof (Hrow u other) as Ho.
      destruct (List.find (is_badge u other) (playerBadges db)) as [x|]; [|done].
      destruct Ho as (i & Hi & Hux & Hox).
      destruct (is_badge uuid badgeId x) eqn:E1; [|done].
      apply is_badge_true in E1 as [E1 E1']. exfalso. apply Hnot. split; congruence.
Qed.

(** X22. Placing a badge the player has, other than "null", in a slot of
    the grid: afterwards the badge is in that slot, the badge that was there
    is where the placed badge came from, so the two have changed places, and
    every other badge of every player is where it was. *)
Theorem setPlayerBadgeSlot_swaps uuid badgeId slotRow slotCol db r0 c0 :
  well_placed db -> 1 <= slotRow -> 1 <= slotCol ->
  badgeId <> "null" ->
  slot_of uuid badgeId db = Some (r0, c0) ->
  let db' := setPlayerBadgeSlot uuid badgeId slotRow slotCol db in
  slot_of uuid badgeId db' = Some (slotRow, slotCol) /\
  (forall other, other <> badgeId ->
                 slot_of uuid other db = Some (slotRow, slotCol) ->
                 slot_of uuid other db' = Some (r0, c0)) /\
  (forall u other,
     ~ (u = uuid /\ other = badgeId) ->
     ~ (u = uuid /\ slot_of u other db = Some (slotRow, slotCol)) ->
     slot_of u other db' = slot_of u other db).
Proof. apply setPlayerBadgeSlot_effect. Qed.

Lemma selected_elem db playerName badgeSlotRows badgeSlotCols x :
  x ∈ selected db playerName badgeSlotRows badgeSlotCols <->
  exists pb a,
    pb ∈ playerBadges db /\ a ∈ accounts db /\
    a_uuid a = pb_uuid pb /\ a_user a = playerName /\
    1 <= pb_slotRow pb <= badgeSlotRows /\ 1 <= pb_slotCol pb <= badgeSlotCols /\
    x = {| badgeId := pb_badgeId pb; badgeRow := pb_slotRow pb; badgeCol := pb_slotCol pb |}.
Proof.
  unfold selected. rewrite list_elem_of_In, in_flat_map. split.
  - intros (pb & Hpb & Hx). apply in_flat_map in Hx as (a & Ha & Hx).
    destruct (_ && _) eqn:E in Hx; [|by destruct Hx].
    destruct Hx as [<-|[]]. exists pb, a.
    rewrite !andb_true_iff, !bool_decide_eq_true in E.
    rewrite !list_elem_of_In. repeat split; try tauto; lia.
  - intros (pb & a & Hpb & Ha & Hu & Hn & Hr & Hc & ->).
    exists pb. split; [by apply list_elem_of_In|].
    apply in_flat_map. exists a. split; [by apply list_elem_of_In|].
    rewrite !bool_decide_eq_true_2 by done. simpl.
    replace (1 <=? pb_slotRow pb) with true by lia.
    replace (pb_slotRow pb <=? badgeSlotRows) with true by lia.
    replace (1 <=? pb_slotCol pb) with true by lia.
    replace (pb_slotCol pb <=? badgeSlotCols) with true by lia.
    by left.
Qed.

(** The cell of a slot of the grid is the first row of the results at it. *)
Lemma grid_cell db playerName badgeSlotRows badgeSlotCols results r c :
  query_results db playerName badgeSlotRows badgeSlotCols results ->
  1 <= r <= badgeSlotRows -> 1 <= c <= badgeSlotCols ->
  readPlayerBadgeSlots results badgeSlotRows badgeSlotCols
    !! Z.to_nat (r - 1) ≫= (.!! Z.to_nat (c - 1))
  = Some (cell_of (List.find (at_slot r c) results)).
Proof.
  intros [Hperm Hs] Hr Hc.
  rewrite readPlayerBadgeSlots_grid_of; [|done|].
  2: { apply Forall_forall. intros x Hx. rewrite Hperm in Hx.
       by apply selected_in_bounds in Hx as [[? _] _]. }
  unfold grid_of.
  change (map ?f ?l) with (f <$> l). rewrite list_lookup_fmap.
  rewrite lookup_seqZ_lt by lia. simpl.
  rewrite list_lookup_fmap. rewrite lookup_seqZ_lt by lia. simpl.
  rewrite !Z2Nat.id by lia.
  replace (1 + (r - 1)) with r by lia. by replace (1 + (c - 1)) with c by lia.
Qed.

(** X23. A badge the player has, other than "null", that
    [setPlayerBadgeSlot] has put in a slot of the player's grid is what
    [readPlayerBadgeSlots] shows in that slot afterwards, when the user name
    belongs to that player alone. *)
Theorem placed_badge_is_shown uuid playerName badgeId slotRow slotCol db r0 c0
        badgeSlotRows badgeSlotCols results :
  well_placed db ->
  (exists a, a ∈ accounts db /\ a_user a = playerName /\ a_uuid a = uuid) ->
  (forall a, a ∈ accounts db -> a_user a = playerName -> a_uuid a = uuid) ->
  1 <= slotRow <= badgeSlotRows -> 1 <= slotCol <= badgeSlotCols ->
  badgeId <> "null" ->
  slot_of uuid badgeId db = Some (r0, c0) ->
  query_results (setPlayerBadgeSlot uuid badgeId slotRow slotCol db)
                playerName badgeSlotRows badgeSlotCols results ->
  readPlayerBadgeSlots results badgeSlotRows badgeSlotCols
    !! Z.to_nat (slotRow - 1) ≫= (.!! Z.to_nat (slotCol - 1))
  = Some badgeId.
Proof.
  intros Hwp (a & Ha & Hname & Huuid) Hsole Hr Hc Hnull Hown Hq.
  rewrite (grid_cell _ _ _ _ _ _ _ Hq Hr Hc). f_equal.
  destruct (setPlayerBadgeSlot_layout uuid badgeId slotRow slotCol db Hwp)
    as (Hwp' & _ & Hacc); [lia|lia|].
  destruct (setPlayerBadgeSlot_effect uuid badgeId slotRow slotCol db r0 c0 Hwp)
    as (Hat & _); [lia|lia|done|done|].
  set (db' := setPlayerBadgeSlot uuid badgeId slotRow slotCol db) in *.
  unfold slot_of in Hat.
  destruct (List.find (is_badge uuid badgeId) (playerBadges db')) as [xb|] eqn:Exb; [|done].
  injection Hat as Hxr Hxc.
  apply find_lookup in Exb as (kb & Hkb & Hxb). apply is_badge_true in Hxb as [Hxu Hxi].
  destruct Hq as [Hperm _].
  pose proof (find_at_slot slotRow slotCol results) as Hfind.
  destruct (List.find (at_slot slotRow slotCol) results) as [y|]; simpl.
  - destruct Hfind as (Hy & Hyr & Hyc). rewrite Hperm in Hy.
    apply selected_elem in Hy as (pb & a' & Hpb & Ha' & Hu' & Hn' & _ & _ & ->).
    simpl in *. rewrite Hacc in Ha'. rewrite (Hsole a' Ha' Hn') in Hu'.
    apply list_elem_of_lookup in Hpb as [i Hi].
    destruct (decide (i = kb)) as [->|Hne]; [congruence|].
    destruct (Hwp' i kb pb xb Hi Hkb Hne) as [_ Hsl]; [congruence|].
    destruct Hsl; [congruence|congruence|lia].
  - exfalso.
    apply (Hfind {| badgeId := pb_badgeId xb; badgeRow := pb_slotRow xb;
                    badgeCol := pb_slotCol xb |}); [|done].
    rewrite Hperm. apply selected_elem. exists xb, a.
    rewrite Hacc. repeat split; try done; try lia; try congruence.
    by apply list_elem_of_lookup_2 in Hkb.
Qed.

(** The player "alice" has placed "b1" and "b2", keeps "b3" unplaced, and
    "b4" is placed outside the grid asked for; "b5" is another player's. *)
Definition demo_db : Db :=
  {| playerBadges :=
       [ {| pb_uuid := "u1"; pb_badgeId := "b2"; pb_slotRow := 2; pb_slotCol := 1 |};
         {| pb_uuid := "u1"; pb_badgeId := "b1"; pb_slotRow := 1; pb_slotCol := 2 |};
         {| pb_uuid := "u1"; pb_badgeId := "b3"; pb_slotRow := 0; pb_slotCol := 0 |};
         {| pb_uuid := "u1"; pb_badgeId := "b4"; pb_slotRow := 3; pb_slotCol := 1 |};
         {| pb_uuid := "u2"; pb_badgeId := "b5"; pb_slotRow := 1; pb_slotCol := 1 |} ];
     accounts := [ {| a_uuid := "u1"; a_user := "alice" |};
                   {| a_uuid := "u2"; a_user := "bob" |} ] |}.

Definition demo_results : list Scanned :=
  [ {| badgeId := "b1"; badgeRow := 1; badgeCol := 2 |};
    {| badgeId := "b2"; badgeRow := 2; badgeCol := 1 |} ].

Lemma demo_query_results : query_results demo_db "alice" 2 3 demo_results.
Proof.
  split.
  - vm_compute. apply perm_swap.
  - repeat constructor.
Qed.

Example demo_badge_slots :
  readPlayerBadgeSlots demo_results 2 3 = [["null"; "b1"; "null"]; ["b2"; "null"; "null"]].
Proof. vm_compute. reflexivity. Qed.

Lemma badge_slots_show_placed_badges_witness :
  length (readPlayerBadgeSlots demo_results 2 3) = 2%nat /\
  readPlayerBadgeSlots demo_results 2 3 !! 0%nat ≫= (.!! 0%nat) = Some "null".
Proof.
  destruct (badge_slots_show_placed_badges demo_db "alice" 2 3 demo_results
              demo_query_results) as (_ & Hlen & _ & Hcell).
  split; [exact Hlen|].
  destruct (Hcell 1 1) as (cell & E & Hnull & _); [lia|lia|].
  rewrite Hnull in E; [exact E|].
  intros x Hx. apply list_elem_of_In in Hx. vm_compute in Hx.
  destruct Hx as [<-|[<-|[]]]; simpl; lia.
Defined.

Lemma demo_well_placed : well_placed demo_db.
Proof.
  intros i j x y Hi Hj Hne Hu.
  destruct i as [|[|[|[|[|i]]]]]; simpl in Hi; try done;
    destruct j as [|[|[|[|[|j]]]]]; simpl in Hj; try done;
    simplify_eq; simpl in *; try done.
Qed.

(** "b2" is asked into the slot of "b1": the two change places. *)
Example demo_swap :
  map (fun pb => (pb_badgeId pb, pb_slotRow pb, pb_slotCol pb))
      (playerBadges (setPlayerBadgeSlot "u1" "b2" 1 2 demo_db))
  = [("b2", 1, 2); ("b1", 2, 1); ("b3", 0, 0); ("b4", 3, 1); ("b5", 1, 1)].
Proof. vm_compute. reflexivity. Qed.

Lemma setPlayerBadgeSlot_keeps_layout_witness :
  well_placed (setPlayerBadgeSlot "u1" "b2" 1 2 demo_db).
Proof.
  apply (setPlayerBadgeSlot_keeps_layout "u1" "b2" 1 2 demo_db).
  - apply demo_well_placed.
  - lia.
  - lia.
Defined.

Lemma setPlayerBadgeSlot_swaps_witness :
  slot_of "u1" "b2" (setPlayerBadgeSlot "u1" "b2" 1 2 demo_db) = Some (1, 2) /\
  slot_of "u1" "b1" (setPlayerBadgeSlot "u1" "b2" 1 2 demo_db) = Some (2, 1).
Proof.
  destruct (setPlayerBadgeSlot_swaps "u1" "b2" 1 2 demo_db 2 1) as (Hnew & Hold & _).
  - apply demo_well_placed.
  - lia.
  - lia.
  - discriminate.
  - vm_compute. reflexivity.
  - split; [exact Hnew|]. apply Hold; [discriminate|]. vm_compute. reflexivity.
Defined.

Lemma placed_badge_is_shown_witness :
  readPlayerBadgeSlots
    [ {| badgeId := "b2"; badgeRow := 1; badgeCol := 2 |};
      {| badgeId := "b1"; badgeRow := 2; badgeCol := 1 |} ] 2 3
    !! 0%nat ≫= (.!! 1%nat) = Some "b2".
Proof.
  apply (placed_badge_is_shown "u1" "alice" "b2" 1 2 demo_db 2 1 2 3).
  - apply demo_well_placed.
  - exists {| a_uuid := "u1"; a_user := "alice" |}.
    split; [|done]. apply list_elem_of_In. left. reflexivity.
  - intros a Ha Hn. apply list_elem_of_In in Ha.
    destruct Ha as [<-|[<-|[]]]; [reflexivity|discriminate].
  - lia.
  - lia.
  - discriminate.
  - vm_compute. reflexivity.
  - split.
    + vm_compute. reflexivity.
    + repeat constructor.
Defined.

End BadgeSlots.

(** ** Saved games: [handleSaveSync] of the API and the [gameSaves] queries
    of [src/database.go] *)

Module SaveSync.

Import PartyDb PartyApi.

(** The request: the Authorization header, what [getPlayerDataFromToken]
    answers for it, the query of the URL, and the body as [io.ReadAll]
    returns it, [None] when the read fails. *)
Record SaveRequest : Type := {
  token : string;
  identity : Request;
  req_body : option string
}.

Section Endpoint.

(** [config.gameName]; [time.Time] with [time.Parse(time.RFC3339, _)] and
    [Format(time.RFC3339)], which are of the Go library. *)
Variable gameName : string.
Variable Time : Type.
Variable parse : string -> option Time.
Variable format : Time -> string.

(** The table [gameSaves], with its key [(uuid, game)]. *)
Local Notation "'GameSaves'" := (gmap (string * string) (Time * string)).

(** [readSaveDataTimestamp] and [readSaveData]. *)
Definition readSaveDataTimestamp (playerUuid : string) (saves : GameSaves) : result Time :=
  match saves !! (playerUuid, gameName) with
  | Some row => Val (fst row)
  | None => Err no_rows
  end.

Definition readSaveData (playerUuid : string) (saves : GameSaves) : result string :=
  match saves !! (playerUuid, gameName) with
  | Some row => Val (snd row)
  | None => Err no_rows
  end.

(** [createGameSaveData]: [INSERT ... ON DUPLICATE KEY UPDATE]. *)
Definition createGameSaveData (playerUuid : string) (timestamp : Time) (data : string)
           (saves : GameSaves) : GameSaves :=
  <[(playerUuid, gameName) := (timestamp, data)]> saves.

(** [clearGameSaveData]. *)
Definition clearGameSaveData (playerUuid : string) (saves : GameSaves) : GameSaves :=
  delete (playerUuid, gameName) saves.

(** [handleSaveSync]. *)
Definition handleSaveSync (r : SaveRequest) (saves : GameSaves) : Reply * GameSaves :=
  let w := fresh_reply in
  if bool_decide (token r = "") then (handleError "token not specified" w, saves)
  else
    let uuid := r_uuid (identity r) in
    if r_banned (identity r) then (handleError "player is banned" w, saves)
    else match param "command" (identity r) with
    | None => (handleError "command not specified" w, saves)
    | Some command =>
        if decide (command = "timestamp") then
          match readSaveDataTimestamp uuid saves with
          | Err e => if decide (e = no_rows) then (w, saves)
                     else (handleInternalError e w, saves)
          | Val timestamp => (write (format timestamp) w, saves)
          end
        else if decide (command = "get") then
          match readSaveData uuid saves with
          | Err e => if decide (e = no_rows) then (write "{}" w, saves)
                     else (handleInternalError e w, saves)
          | Val saveData => (write saveData w, saves)
          end
        else if decide (command = "push") then
          match param "timestamp" (identity r) with
          | None => (handleError "timestamp not specified" w, saves)
          | Some timestampParam =>
              match parse timestampParam with
              | None => (handleError "invalid timestamp value" w, saves)
              | Some timestamp =>
                  match req_body r with
                  | None => (handleError "invalid data" w, saves)
                  | Some data =>
                      if 1024 * 1024 * 8 <? Z.of_nat (String.length data) then
                        (handleError "invalid data" w, saves)
                      else (w, createGameSaveData uuid timestamp data saves)
                  end
              end
          end
        else if decide (command = "clear") then
          (ok w, clearGameSaveData uuid saves)
        else (handleError "unknown command" w, saves)
    end.

(** A request of the player [uuid] with a token, for [command]. *)
Definition asks (uuid command : string) (r : SaveRequest) : Prop :=
  token r <> "" /\ r_uuid (identity r) = uuid /\ r_banned (identity r) = false /\
  param "command" (identity r) = Some command.

Lemma handleSaveSync_command uuid command r saves :
  asks uuid command r ->
  handleSaveSync r saves =
  if decide (command = "timestamp") then
    match readSaveDataTimestamp uuid saves with
    | Err e => if decide (e = no_rows) then (fresh_reply, saves)
               else (handleInternalError e fresh_reply, saves)
    | Val timestamp => (write (format timestamp) fresh_reply, saves)
    end
  else if decide (command = "get") then
    match readSaveData uuid saves with
    | Err e => if decide (e = no_rows) then (write "{}" fresh_reply, saves)
               else (handleInternalError e fresh_reply, saves)
    | Val saveData => (write saveData fresh_reply, saves)
    end
  else if decide (command = "push") then
    match param "timestamp" (identity r) with
    | None => (handleError "timestamp not specified" fresh_reply, saves)
    | Some timestampParam =>
        match parse timestampParam with
        | None => (handleError "invalid timestamp value" fresh_reply, saves)
        | Some timestamp =>
            match req_body r with
            | None => (handleError "invalid data" fresh_reply, saves)
            | Some data =>
                if 1024 * 1024 * 8 <? Z.of_nat (String.length data) then
                  (handleError "invalid data" fresh_reply, saves)
                else (fresh_reply, createGameSaveData uuid timestamp data saves)
            end
        end
    end
  else if decide (command = "clear") then
    (ok fresh_reply, clearGameSaveData uuid saves)
  else (handleError "unknown command" fresh_reply, saves).
Proof.
  intros (Htoken & <- & Hb & Hcmd). unfold handleSaveSync.
  by rewrite (bool_decide_eq_false_2 _ Htoken), Hb, Hcmd.
Qed.

(** X24. A push with a timestamp that parses and a body of at most 8 MiB
    stores the save and writes nothing to the response, not even "ok";
    afterwards a get of the same player answers the data pushed and a
    timestamp request answers the timestamp pushed, neither changing the
    table, and the saves of every other player and game are as before. *)
Theorem push_then_get uuid r saves timestampParam timestamp data :
  asks uuid "push" r ->
  param "timestamp" (identity r) = Some timestampParam ->
  parse timestampParam = Some timestamp ->
  req_body r = Some data ->
  Z.of_nat (String.length data) <= 1024 * 1024 * 8 ->
  let saves' := snd (handleSaveSync r saves) in
  fst (handleSaveSync r saves) = fresh_reply /\
  (forall r', asks uuid "get" r' ->
              handleSaveSync r' saves' = (write data fresh_reply, saves')) /\
  (forall r', asks uuid "timestamp" r' ->
              handleSaveSync r' saves' = (write (format timestamp) fresh_reply, saves')) /\
  (forall key, key <> (uuid, gameName) -> saves' !! key = saves !! key).
Proof.
  intros Hasks Hts Hparse Hbody Hlen. cbv zeta.
  rewrite (handleSaveSync_command uuid "push" r saves Hasks).
  destruct (decide ("push" = "timestamp")) as [|_]; [done|].
  destruct (decide ("push" = "get")) as [|_]; [done|].
  destruct (decide ("push" = "push")) as [_|]; [|done].
  rewrite Hts, Hparse, Hbody.
  rewrite (proj2 (Z.ltb_ge _ _)) by done. cbn [fst snd].
  split; [done|]. split; [|split].
  - intros r' Hr'. rewrite (handleSaveSync_command uuid "get" r' _ Hr').
    destruct (decide ("get" = "timestamp")) as [|_]; [done|].
    destruct (decide ("get" = "get")) as [_|]; [|done].
    unfold readSaveData, createGameSaveData. rewrite lookup_insert_eq. done.
  - intros r' Hr'. rewrite (handleSaveSync_command uuid "timestamp" r' _ Hr').
    destruct (decide ("timestamp" = "timestamp")) as [_|]; [|done].
    unfold readSaveDataTimestamp, createGameSaveData. rewrite lookup_insert_eq. done.
  - intros key Hkey. unfold createGameSaveData. by rewrite lookup_insert_ne.
Qed.

(** X25. A clear answers "ok" whether or not there was a save; afterwards a
    get of the same player answers "{}", a timestamp request answers with an
    empty response, and the saves of every other player and game are as
    before. *)
Theorem clear_then_get uuid r saves :
  asks uuid "clear" r ->
  let saves' := snd (handleSaveSync r saves) in
  fst (handleSaveSync r saves) = ok fresh_reply /\
  (forall r', asks uuid "get" r' ->
              handleSaveSync r' saves' = (write "{}" fresh_reply, saves')) /\
  (forall r', asks uuid "timestamp" r' ->
              handleSaveSync r' saves' = (fresh_reply, saves')) /\
  (forall key, key <> (uuid, gameName) -> saves' !! key = saves !! key).
Proof.
  intros Hasks. cbv zeta.
  rewrite (handleSaveSync_command uuid "clear" r saves Hasks).
  destruct (decide ("clear" = "timestamp")) as [|_]; [done|].
  destruct (decide ("clear" = "get")) as [|_]; [done|].
  destruct (decide ("clear" = "push")) as [|_]; [done|].
  destruct (decide ("clear" = "clear")) as [_|]; [|done].
  cbn [fst snd].
  split; [done|]. split; [|split].
  - intros r' Hr'. rewrite (handleSaveSync_command uuid "get" r' _ Hr').
    destruct (decide ("get" = "timestamp")) as [|_]; [done|].
    destruct (decide ("get" = "get")) as [_|]; [|done].
    unfold readSaveData, clearGameSaveData. rewrite lookup_delete_eq.
    by destruct (decide (no_rows = no_rows)).
  - intros r' Hr'. rewrite (handleSaveSync_command uuid "timestamp" r' _ Hr').
    destruct (decide ("timestamp" = "timestamp")) as [_|]; [|done].
    unfold readSaveDataTimestamp, clearGameSaveData. rewrite lookup_delete_eq.
    by destruct (decide (no_rows = no_rows)).
  - intros key Hkey. unfold clearGameSaveData. by rewrite lookup_delete_ne.
Qed.

End Endpoint.

(** Requests of the player "A" with the token "t"; timestamps are kept as
    the text sent. *)
Definition save_request (params : list (string * string)) (body : option string)
  : SaveRequest :=
  {| token := "t"; identity := request "A" 0 params; req_body := body |}.

Definition push_request : SaveRequest :=
  save_request [("command", "push"); ("timestamp", "2022-01-01T00:00:00Z")] (Some "{x}").

(** The table after the push, and after the clear that follows it. *)
Definition pushed : gmap (string * string) (string * string) :=
  snd (handleSaveSync "2kki" string Some id push_request ∅).

Definition cleared : gmap (string * string) (string * string) :=
  snd (handleSaveSync "2kki" string Some id (save_request [("command", "clear")] None)
         pushed).

Lemma push_then_get_witness :
  handleSaveSync "2kki" string Some id (save_request [("command", "get")] None) pushed
  = (write "{x}" fresh_reply, pushed).
Proof.
  destruct (push_then_get "2kki" string Some id "A" push_request ∅
              "2022-01-01T00:00:00Z" "2022-01-01T00:00:00Z" "{x}")
    as (_ & Hget & _).
  - repeat split; try discriminate; vm_compute; reflexivity.
  - vm_compute. reflexivity.
  - reflexivity.
  - reflexivity.
  - vm_compute. discriminate.
  - apply Hget. repeat split; try discriminate; vm_compute; reflexivity.
Defined.

Lemma clear_then_get_witness :
  handleSaveSync "2kki" string Some id (save_request [("command", "get")] None) cleared
  = (write "{}" fresh_reply, cleared).
Proof.
  destruct (clear_then_get "2kki" string Some id "A"
              (save_request [("command", "clear")] None) pushed)
    as (_ & Hget & _).
  - repeat split; try discriminate; vm_compute; reflexivity.
  - apply Hget. repeat split; try discriminate; vm_compute; reflexivity.
Defined.

End SaveSync.

(** ** More on the dispatcher of the actor: the reply to a failing "pt" *)

Module DispatchFacts.

Import Chan Registry GoText Dispatch RegistryFacts.

Section Facts.

Variable delim mdelim : string.
Variables handleI handleName handlePloc handleGSay handlePSay
          handlePt handleEp handleEl : Handler.

Local Notation "'process_msg'" :=
  (processMsg delim handleI handleName handlePloc handleGSay handlePSay
              handlePt handleEp handleEl).
Local Notation "'process_rest'" :=
  (process_each delim handleI handleName handlePloc handleGSay handlePSay
                handlePt handleEp handleEl).
Local Notation "'actor_on_message'" :=
  (on_message delim mdelim handleI handleName handlePloc handleGSay handlePSay
              handlePt handleEp handleEl).

(** X26. The reply to a failing "pt" is a plain send on the queue of the
    sender: when that queue has been closed, as for a client a broadcast has
    dropped, the actor panics on it, and when the queue is full the actor
    waits on it; either way the sub-messages behind the "pt" are not
    processed and the errors of those before it are not logged. *)
Theorem failed_pt_reply_stops_the_actor msg s ms1 m ms2 s1 errs s2 e :
  well_formed (data msg) ->
  Split (data msg) mdelim = ms1 ++ m :: ms2 ->
  process_rest ms1 (sender msg) s [] = Ok (s1, errs) ->
  hd "" (Split m delim) = "pt" ->
  handlePt (Split m delim) (sender msg) s1 = (s2, Some e) ->
  (closed (send (deref s2 (sender msg))) = true -> actor_on_message msg s = Panic) /\
  (closed (send (deref s2 (sender msg))) = false ->
   has_room (send (deref s2 (sender msg))) = false ->
   actor_on_message msg s = Blocked).
Proof.
  intros Hwf Hsplit Hbefore Hpt Hfail.
  destruct (well_formed_checks _ Hwf) as (Hlen & Hlow & Hvalid).
  assert (Hrun : actor_on_message msg s =
                 let* r := (let* r0 := process_msg m (sender msg) s1 in
                            process_rest ms2 (sender msg) (fst r0)
                              (match snd r0 with
                               | Some e0 => errs ++ [e0]
                               | None => errs
                               end)) in
                 Ok (foldl (fun s' e0 =>
                              writeErrLog (ip (deref s' (sender msg))) "session" e0 s')
                           (fst r) (snd r))).
  { unfold on_message, processMsgs. rewrite Hlen, Hlow, Hvalid. simpl.
    rewrite Hsplit, process_each_app, Hbefore. done. }
  rewrite Hrun, (processMsg_pt _ _ _ _ _ _ _ _ _ m (sender msg) s1 Hpt).
  unfold pt_case. rewrite Hfail. simpl. unfold Chan.send.
  split.
  - intros ->. done.
  - intros -> ->. done.
Qed.

End Facts.

(** Client 1 of [two_players] has been unregistered and a frame of it is
    still waiting: its failing "pt" panics the actor. *)
Lemma failed_pt_reply_stops_the_actor_witness :
  on_message "|" ";" accepts renames accepts accepts accepts no_party accepts accepts
    (frame_of "name|x;pt;name|y") one_left = Panic.
Proof.
  refine (proj1 (failed_pt_reply_stops_the_actor "|" ";" accepts renames accepts
                   accepts accepts no_party accepts accepts
                   (frame_of "name|x;pt;name|y") one_left ["name|x"] "pt" ["name|y"]
                   _ _ _ "player not in a party" _ _ _ _ _) _).
  - split; [apply Nat.leb_le; vm_compute; reflexivity|].
    split; [repeat constructor; vm_compute; discriminate | vm_compute; reflexivity].
  - vm_compute. reflexivity.
  - vm_compute. reflexivity.
  - vm_compute. reflexivity.
  - reflexivity.
  - vm_compute. reflexivity.
Defined.

End DispatchFacts.

(** ** Registration: [handleRegister] of the API *)

Module Accounts.

Import PartyApi.

(** The rows of [accounts] and of [players], with the columns
    [handleRegister] reads or writes; the ip of a player is [None] when the
    column is NULL. *)
Record AccountRow : Type := {
  acc_ip : string;
  acc_uuid : string;
  acc_user : string;
  acc_pass : string
}.

Record PlayerIpRow : Type := {
  plr_uuid : string;
  plr_ip : option string
}.

Record Db : Type := {
  accounts : list AccountRow;
  players : list PlayerIpRow
}.

(** The request: the address [getIp] finds and the values of the query
    parameters "user" and "password". *)
Record RegisterRequest : Type := {
  reg_ip : string;
  reg_user : list string;
  reg_password : list string
}.

Section Endpoint.

(** Declared outside the sources at hand: [isOkString], [isVpn],
    [isIpBanned], [getOrCreatePlayerData], which answers the uuid of the
    address and may add a row to [players], and
    [bcrypt.GenerateFromPassword], [None] when it fails. *)
Variable isOkString : string -> bool.
Variable isVpn : string -> bool.
Variable isIpBanned : string -> bool.
Variable getOrCreatePlayerData : string -> list PlayerIpRow -> string * list PlayerIpRow.
Variable GenerateFromPassword : string -> option string.

(** [SELECT COUNT( * ) FROM accounts WHERE user = ?]. *)
Definition userExists (user : string) (db : Db) : Z :=
  Z.of_nat (length (List.filter (fun a => bool_decide (acc_user a = user)) (accounts db))).

(** [SELECT uuid FROM players WHERE ip = ?] scanned into a fresh variable:
    the empty string when there is no row. *)
Definition uuid_of_ip (ip : string) (db : Db) : string :=
  match List.find (fun p => bool_decide (plr_ip p = Some ip)) (players db) with
  | Some p => plr_uuid p
  | None => ""
  end.

(** [UPDATE players SET ip = NULL WHERE ip = ?]. *)
Definition forget_ip (ip : string) (db : Db) : Db :=
  {| accounts := accounts db;
     players := map (fun p => if bool_decide (plr_ip p = Some ip)
                              then {| plr_uuid := plr_uuid p; plr_ip := None |} else p)
                    (players db) |}.

(** [INSERT INTO accounts (ip, timestampRegistered, uuid, user, pass)]. *)
Definition insert_account (a : AccountRow) (db : Db) : Db :=
  {| accounts := accounts db ++ [a]; players := players db |}.

(** [handleRegister]. *)
Definition handleRegister (r : RegisterRequest) (db : Db) : Reply * Db :=
  let w := fresh_reply in
  match reg_user r, reg_password r with
  | user0 :: _, password0 :: _ =>
      if (12 <? String.length user0)%nat || negb (isOkString user0)
         || (72 <? String.length password0)%nat
      then (handleError "bad response" w, db)
      else
        let ip := reg_ip r in
        let w1 := if isVpn ip then handleError "vpn not permitted" w else w in
        if isIpBanned ip then
          (handleError "banned users cannot create accounts" w1, db)
        else if 0 <? userExists user0 db then (handleError "user exists" w1, db)
        else
          let '(uuid, db1) :=
            if bool_decide (uuid_of_ip ip db = "") then
              let '(uuid, rows) := getOrCreatePlayerData ip (players db) in
              (uuid, {| accounts := accounts db; players := rows |})
            else (uuid_of_ip ip db, db) in
          let db2 := forget_ip ip db1 in
          match GenerateFromPassword password0 with
          | None => (handleError "bcrypt error" w1, db2)
          | Some hashedPassword =>
              (ok w1, insert_account {| acc_ip := ip; acc_uuid := uuid; acc_user := user0;
                                        acc_pass := hashedPassword |} db2)
          end
  | _, _ => (handleError "bad response" w, db)
  end.

(** X27. A registration from an address that [isVpn] flags is not stopped:
    "vpn not permitted" is written with the status 400 and logged, and the
    request goes on as for any other address; with a free user name, an
    address that is not banned and a password that can be hashed, the
    account is created all the same, and the response reads "vpn not
    permitted" followed by "ok".  From an address that is not flagged the
    same request is answered "ok" with the status 200. *)
Theorem register_behind_vpn r db user0 users password0 passwords hashedPassword :
  reg_user r = user0 :: users -> reg_password r = password0 :: passwords ->
  (String.length user0 <= 12)%nat -> isOkString user0 = true ->
  (String.length password0 <= 72)%nat ->
  isIpBanned (reg_ip r) = false ->
  userExists user0 db = 0 ->
  GenerateFromPassword password0 = Some hashedPassword ->
  let out := handleRegister r db in
  status (fst (fst out)) = Some (if isVpn (reg_ip r) then 400 else 200) /\
  body (fst (fst out)) = ((if isVpn (reg_ip r) then "vpn not permitted" else "") ++ "ok")%string /\
  snd (fst out) = (if isVpn (reg_ip r) then ["vpn not permitted"] else []) /\
  (exists uuid, last (accounts (snd out))
                = Some {| acc_ip := reg_ip r; acc_uuid := uuid; acc_user := user0;
                          acc_pass := hashedPassword |}) /\
  userExists user0 (snd out) = 1.
Proof.
  intros Hu Hp Hlen Hok Hplen Hban Hfree Hhash. simpl. unfold handleRegister.
  rewrite Hu, Hp.
  apply Nat.leb_le in Hlen, Hplen.
  rewrite !Nat.ltb_antisym, Hlen, Hplen, Hok. simpl.
  rewrite Hban, Hfree. simpl.
  assert (Hcount : forall uuid db1,
             accounts db1 = accounts db ->
             userExists user0
               (insert_account {| acc_ip := reg_ip r; acc_uuid := uuid; acc_user := user0;
                                  acc_pass := hashedPassword |} (forget_ip (reg_ip r) db1))
             = 1).
  { intros uuid db1 Hacc. unfold userExists in *. simpl. rewrite Hacc.
    rewrite List.filter_app, length_app. simpl.
    rewrite bool_decide_eq_true_2 by done. simpl. lia. }
  destruct (bool_decide (uuid_of_ip (reg_ip r) db = "")).
  - destruct (getOrCreatePlayerData (reg_ip r) (players db)) as [uuid rows].
    rewrite Hhash. simpl.
    destruct (isVpn (reg_ip r)); simpl; repeat split; try done.
    all: try (exists uuid; by rewrite last_snoc).
    all: by apply (Hcount uuid {| accounts := accounts db; players := rows |}).
  - rewrite Hhash. simpl.
    destruct (isVpn (reg_ip r)); simpl; repeat split; try done.
    all: try (eexists; by rewrite last_snoc).
    all: by apply Hcount.
Qed.

End Endpoint.

(** The address "10.9.9.9" is flagged and new to the server; user names of
    letters are fine, and the hash is the password itself. *)
Definition vpn_request : RegisterRequest :=
  {| reg_ip := "10.9.9.9"; reg_user := ["madotsuki"]; reg_password := ["secret"] |}.

Definition demo_register : Reply * Db :=
  handleRegister (fun _ => true) (fun ip => bool_decide (ip = "10.9.9.9")) (fun _ => false)
    (fun ip rows => ("u9", rows ++ [{| plr_uuid := "u9"; plr_ip := Some ip |}])) Some
    vpn_request {| accounts := []; players := [] |}.

Lemma register_behind_vpn_witness :
  status (fst (fst demo_register)) = Some 400 /\
  body (fst (fst demo_register)) = "vpn not permittedok" /\
  userExists "madotsuki" (snd demo_register) = 1.
Proof.
  destruct (register_behind_vpn (fun _ => true) (fun ip => bool_decide (ip = "10.9.9.9"))
              (fun _ => false)
              (fun ip rows => ("u9", rows ++ [{| plr_uuid := "u9"; plr_ip := Some ip |}]))
              Some vpn_request {| accounts := []; players := [] |}
              "madotsuki" [] "secret" [] "secret")
    as (Hstatus & Hbody & _ & _ & Hcount).
  - reflexivity.
  - reflexivity.
  - vm_compute. lia.
  - reflexivity.
  - vm_compute. lia.
  - reflexivity.
  - reflexivity.
  - reflexivity.
  - split; [exact Hstatus|]. split; [exact Hbody|exact Hcount].
Defined.

End Accounts.
